(** * MySQL -> ClickHouse migration engine: a shallow embedding

    This development embeds the migration core of
    [src/mysql_to_clickhouse.py] (class [MySQLToClickHouseMigration])
    and proves properties of the embedded functions.

    Conventions of the embedding:
    - Python [int] is [Z]; [len] is [Z.of_nat (length _)].
    - Python [str] is [string] (type descriptors are ASCII, so
      [str.lower] only moves the letters A-Z).
    - Wall-clock readings ([time.time()]) and speeds are rationals [Q].
    - A method that can raise returns a [result]; a method that talks to
      a database, the clock or the logger is a function of the [World],
      which it returns updated also when it raises.
    - [dict.get(k, dflt)] on the configuration is an [option] field read
      through [default dflt]. *)

From Stdlib Require Import ZArith QArith Lia Ascii.
From stdpp Require Import gmap strings list pretty.

Open Scope string_scope.
Open Scope list_scope.
Open Scope Z_scope.

(** ** Exceptions and results *)

Inductive exn : Type :=
| AttributeError (msg : string)
| IndexError (msg : string)
| ZeroDivisionError (msg : string)
| ProgrammingError (msg : string)
| OperationalError (msg : string).

(** [str(e)] *)
Definition str_of_exn (e : exn) : string :=
  match e with
  | AttributeError m | IndexError m | ZeroDivisionError m
  | ProgrammingError m | OperationalError m => m
  end.

Inductive result (A : Type) : Type :=
| Ok (a : A)
| Raise (e : exn).
Arguments Ok {A} a.
Arguments Raise {A} e.

(** ** Python string operations used by the type mapper *)

Module PyStr.

(** [c.lower()] on one ASCII character. *)
Definition lower_ascii (c : ascii) : ascii :=
  let n := nat_of_ascii c in
  if ((65 <=? n)%nat && (n <=? 90)%nat)%bool then ascii_of_nat (n + 32) else c.

(** [s.lower()] *)
Fixpoint lower (s : string) : string :=
  match s with
  | EmptyString => EmptyString
  | String c r => String (lower_ascii c) (lower r)
  end.

(** [s.split(sep)] for a one-character separator: never the empty list. *)
Fixpoint split (sep : ascii) (s : string) : list string :=
  match s with
  | EmptyString => [EmptyString]
  | String c r =>
      if Ascii.eqb c sep then EmptyString :: split sep r
      else match split sep r with
           | [] => [String c EmptyString]
           | hd :: tl => String c hd :: tl
           end
  end.

(** [s.startswith(p)] *)
Definition startswith (s p : string) : bool := String.prefix p s.

(** [needle in s] *)
Fixpoint contains (needle s : string) : bool :=
  String.prefix needle s ||
  match s with
  | EmptyString => false
  | String _ r => contains needle r
  end.

(** [sep.join(l)] *)
Fixpoint join (sep : string) (l : list string) : string :=
  match l with
  | [] => ""
  | [x] => x
  | x :: r => x +:+ sep +:+ join sep r
  end.

(** [l[i]] on a list of strings *)
Definition index (l : list string) (i : nat) : result string :=
  match l !! i with
  | Some x => Ok x
  | None => Raise (IndexError "list index out of range")
  end.

End PyStr.

(** ** TypeMapper: [TYPE_MAPPING] and [convert_mysql_type_to_clickhouse] *)

Definition TYPE_MAPPING : gmap string string :=
  list_to_map
    [ ("tinyint", "Int8"); ("smallint", "Int16"); ("mediumint", "Int32");
      ("int", "Int32"); ("integer", "Int32"); ("bigint", "Int64");
      ("float", "Float32"); ("double", "Float64"); ("decimal", "Decimal");
      ("char", "String"); ("varchar", "String"); ("text", "String");
      ("tinytext", "String"); ("mediumtext", "String"); ("longtext", "String");
      ("date", "Date"); ("datetime", "DateTime"); ("timestamp", "DateTime");
      ("time", "String"); ("year", "Int16"); ("blob", "String");
      ("tinyblob", "String"); ("mediumblob", "String"); ("longblob", "String");
      ("json", "String"); ("enum", "String"); ("set", "String") ].

(** [mysql_type.split('(')[0].lower()] *)
Definition base_type_of (mysql_type : string) : result string :=
  match PyStr.index (PyStr.split "(" mysql_type) 0 with
  | Ok b => Ok (PyStr.lower b)
  | Raise e => Raise e
  end.

(** [mysql_type.split('(')[1].split(')')[0]] *)
Definition precision_of (mysql_type : string) : result string :=
  match PyStr.index (PyStr.split "(" mysql_type) 1 with
  | Ok inner => PyStr.index (PyStr.split ")" inner) 0
  | Raise e => Raise e
  end.

Definition convert_mysql_type_to_clickhouse
    (mysql_type is_nullable : string) : result string :=
  match base_type_of mysql_type with
  | Raise e => Raise e
  | Ok base_type =>
      let is_unsigned := PyStr.contains "unsigned" (PyStr.lower mysql_type) in
      let ch_type := default "String" (TYPE_MAPPING !! base_type) in
      let ch_type :=
        if is_unsigned && PyStr.startswith ch_type "Int"
        then "U" +:+ ch_type else ch_type in
      let after_decimal :=
        if String.eqb base_type "decimal" && PyStr.contains "(" mysql_type
        then match precision_of mysql_type with
             | Ok precision => Ok ("Decimal(" +:+ precision +:+ ")")
             | Raise e => Raise e
             end
        else Ok ch_type in
      match after_decimal with
      | Raise e => Raise e
      | Ok ch_type =>
          Ok (if String.eqb is_nullable "YES"
              then "Nullable(" +:+ ch_type +:+ ")" else ch_type)
      end
  end.

(** ** Data model *)

(** Values found in a row fetched through pymysql. [DATE] columns arrive
    as [datetime.date], [TIME] columns as [datetime.timedelta],
    [DATETIME] and [TIMESTAMP] columns as [datetime.datetime]. *)
Record py_datetime : Type := {
  dt_year : nat; dt_month : nat; dt_day : nat;
  dt_hour : nat; dt_minute : nat; dt_second : nat; dt_microsecond : nat }.

Inductive value : Type :=
| VNone
| VInt (z : Z)
| VFloat (q : Q)
| VStr (s : string)
| VBytes (b : string)
| VDate (year month day : nat)
| VTimedelta (days seconds microseconds : Z)
| VDatetime (d : py_datetime).

(** [isinstance(value, datetime)]: [datetime] is a subclass of [date],
    not the other way round, so a [datetime.date] is not an instance. *)
Definition isinstance_datetime (v : value) : bool :=
  match v with
  | VDatetime _ => true
  | _ => false
  end.

(** The temporal kinds of value: date, time and datetime. *)
Definition is_temporal (v : value) : bool :=
  match v with
  | VDate _ _ _ | VTimedelta _ _ _ | VDatetime _ => true
  | _ => false
  end.

Definition is_str (v : value) : bool :=
  match v with
  | VStr _ => true
  | _ => false
  end.

Definition digit (n : nat) : ascii := ascii_of_nat (48 + n mod 10).

Definition pad2 (n : nat) : string :=
  String (digit (n / 10)) (String (digit n) EmptyString).

Definition pad4 (n : nat) : string :=
  String (digit (n / 1000)) (String (digit (n / 100)) (pad2 n)).

(** [d.strftime('%Y-%m-%d %H:%M:%S')]; the year is printed on four
    digits, which is what every platform prints for the years 1000-9999
    of a MySQL [DATETIME]. *)
Definition strftime (d : py_datetime) : string :=
  pad4 (dt_year d) +:+ "-" +:+ pad2 (dt_month d) +:+ "-" +:+ pad2 (dt_day d)
  +:+ " " +:+ pad2 (dt_hour d) +:+ ":" +:+ pad2 (dt_minute d)
  +:+ ":" +:+ pad2 (dt_second d).

(** A row as the streaming cursor yields it: a tuple of values. *)
Abbreviation row := (list value).

(** One line of [DESCRIBE t]. *)
Record Column : Type := { Field : string; Type_ : string; Null : string }.

Record MySQLTable : Type := {
  table_columns : list Column;
  table_primary_key : list string;
  table_rows : list row }.

(** One entry of [migration.tables]; every key is read with [.get]. *)
Record TableMapping : Type := {
  tc_mysql_table : option string;
  tc_ch_table : option string;
  tc_batch_size : option Z;
  tc_verify : option bool }.

Record Config : Type := {
  mysql_database : string;
  clickhouse_database : string;
  tables : option (list TableMapping);
  default_batch_size : option Z;
  default_verify : option bool;
  drop_table_before_create : option bool;
  skip_empty_tables : option bool;
  continue_on_error : option bool }.

Inductive Status : Type := success | failed.

Record TableResult : Type := {
  r_mysql_table : string;
  r_ch_table : string;
  r_rows : Z;
  r_time_used : Q;
  r_speed : Q;
  r_status : Status;
  r_verified : bool;
  r_error : option string }.

(** [self.migration_stats]; the key [avg_speed] exists only once the
    run has reached its end. *)
Record Stats : Type := {
  total_tables : Z;
  success_tables : Z;
  failed_tables : Z;
  total_rows : Z;
  total_time : Q;
  avg_speed : option Q;
  table_details : list TableResult }.

(** The value [__init__] gives to [self.migration_stats]. *)
Definition initial_stats : Stats :=
  {| total_tables := 0; success_tables := 0; failed_tables := 0;
     total_rows := 0; total_time := 0%Q; avg_speed := None;
     table_details := [] |}.

(** Calls made to the notification collaborator
    ([self.notifier.notify_start], [notify_failure], [notify_success]).
    The [traceback] text passed with a failure is not modelled. *)
Inductive Notification : Type :=
| NotifyStart (tbls : list TableMapping) (mysql_db_name clickhouse_db_name : string)
| NotifyFailure (failed_table error_message : string) (total completed : Z)
| NotifySuccess (summary : Stats).

(** The log lines the properties below talk about; the purely
    informational lines (banners, progress bars) are not modelled. *)
Inductive LogEvent : Type :=
| LogEmptyTable
| LogVerify (mysql_count ch_count : Z)
| LogVerifyPassed
| LogVerifyFailed (diff : Z)
| LogDropFailed (msg : string)
| LogCreateFailed (msg : string)
| LogTableFailed (msg : string)
| LogNoTables
| LogInvalidConfig (table_config : TableMapping)
| LogFailedTable (mysql_table msg : string)
| LogCompletedWithFailures (n : Z).

(** ** The environment of a run

    [Env] is what a run reads and never changes: the source database,
    the schedule of transient failures (the [n]-th round trip to a
    database raises when [faults n] is a message) and the clock (the
    [n]-th reading of [time.time()]). [World], further down, is what a
    run changes: the target database, the two counters into the
    schedules, the bulk writes issued so far and the log. *)
Record Env : Type := {
  mysql_db : gmap string MySQLTable;
  faults : nat -> option string;
  now : nat -> Q }.

(** ** State-and-exception monad *)

Definition ST (S A : Type) : Type := S -> result A * S.

Definition ret {S A} (a : A) : ST S A := fun s => (Ok a, s).

Definition raise {S A} (e : exn) : ST S A := fun s => (Raise e, s).

Definition bind {S A B} (m : ST S A) (k : A -> ST S B) : ST S B :=
  fun s => match m s with
           | (Ok a, s') => k a s'
           | (Raise e, s') => (Raise e, s')
           end.

(** [try: m except Exception as e: h e] *)
Definition try_catch {S A} (m : ST S A) (h : exn -> ST S A) : ST S A :=
  fun s => match m s with
           | (Ok a, s') => (Ok a, s')
           | (Raise e, s') => h e s'
           end.

Definition get_state {S} : ST S S := fun s => (Ok s, s).

Definition modify {S} (f : S -> S) : ST S unit := fun s => (Ok tt, f s).

(** A pure computation that may raise, run inside [ST]. *)
Definition of_result {S A} (r : result A) : ST S A := fun s => (r, s).

(** Run a computation on a component [T] of the state [S]. *)
Definition zoom {S T A} (proj : S -> T) (upd : T -> S -> S) (m : ST T A) : ST S A :=
  fun s => match m (proj s) with
           | (r, t') => (r, upd t' s)
           end.

Declare Scope st_scope.
Delimit Scope st_scope with st.
Notation "x <- m ;; k" := (bind m (fun x => k))
  (at level 100, m at next level, right associativity) : st_scope.
Notation "m ;; k" := (bind m (fun _ => k))
  (at level 100, right associativity) : st_scope.
Open Scope st_scope.


(** Run [m] with a fresh local variable whose initial value is [l0]; the
    local is a mutable object and keeps its updates when [m] raises
    inside a [try_catch]. *)
Definition with_local {L S A} (l0 : L) (m : ST (L * S) A) : ST S A :=
  fun s => match m (l0, s) with
           | (r, (_, s')) => (r, s')
           end.

Definition outer {L S A} (m : ST S A) : ST (L * S) A :=
  zoom snd (fun s' p => (fst p, s')) m.

Definition local_get {L S} : ST (L * S) L := fun p => (Ok (fst p), p).

Definition local_modify {L S} (f : L -> L) : ST (L * S) unit :=
  modify (fun p => (f (fst p), snd p)).

(** ** The collaborators: clock, logger, source and target connections *)

Record BulkWrite : Type := {
  bw_table : string;
  bw_column_names : list string;
  bw_rows : list row }.

Record World : Type := {
  ch_db : gmap string (list row);
  calls : nat;
  ticks : nat;
  writes : list BulkWrite;
  logs : list LogEvent }.

Abbreviation M := (ST World).

Definition tick_call (w : World) : World :=
  {| ch_db := ch_db w; calls := S (calls w); ticks := ticks w;
     writes := writes w; logs := logs w |}.

Definition tick_clock (w : World) : World :=
  {| ch_db := ch_db w; calls := calls w; ticks := S (ticks w);
     writes := writes w; logs := logs w |}.

Definition set_ch_db (d : gmap string (list row)) (w : World) : World :=
  {| ch_db := d; calls := calls w; ticks := ticks w;
     writes := writes w; logs := logs w |}.

Definition add_write (b : BulkWrite) (w : World) : World :=
  {| ch_db := ch_db w; calls := calls w; ticks := ticks w;
     writes := writes w ++ [b]; logs := logs w |}.

Definition add_log (ev : LogEvent) (w : World) : World :=
  {| ch_db := ch_db w; calls := calls w; ticks := ticks w;
     writes := writes w; logs := logs w ++ [ev] |}.

(** One round trip to a database server; it raises when the schedule of
    the environment says so. *)
Definition round_trip (env : Env) : M unit :=
  fun w => match faults env (calls w) with
           | Some msg => (Raise (OperationalError msg), tick_call w)
           | None => (Ok tt, tick_call w)
           end.

(** [time.time()] *)
Definition time_time (env : Env) : M Q :=
  fun w => (Ok (now env (ticks w)), tick_clock w).

Definition log (ev : LogEvent) : M unit := modify (add_log ev).

Definition no_such_table {A} (t : string) : M A :=
  raise (ProgrammingError ("Table '" +:+ t +:+ "' doesn't exist")).

Definition source_table (env : Env) (t : string) : M MySQLTable :=
  match mysql_db env !! t with
  | Some tb => ret tb
  | None => no_such_table t
  end.

(** [cursor.execute("DESCRIBE `t`"); cursor.fetchall()] *)
Definition mysql_describe (env : Env) (t : string) : M (list Column) :=
  round_trip env ;;
  tb <- source_table env t ;;
  ret (table_columns tb).

(** The [INFORMATION_SCHEMA.KEY_COLUMN_USAGE] query: no line, and no
    error, for a table that does not exist. *)
Definition mysql_key_columns (env : Env) (t : string) : M (list string) :=
  round_trip env ;;
  ret (match mysql_db env !! t with
       | Some tb => table_primary_key tb
       | None => []
       end).

(** [SELECT COUNT( * ) as cnt FROM `t`] on the source. *)
Definition mysql_count (env : Env) (t : string) : M Z :=
  round_trip env ;;
  tb <- source_table env t ;;
  ret (Z.of_nat (length (table_rows tb))).

(** [SELECT * FROM `t` LIMIT 1] through the dictionary cursor:
    [fetchone()] is [None] on an empty result and otherwise the
    dictionary [dict(zip(fields, row))]. *)
Definition mysql_first_row (env : Env) (t : string)
  : M (option (list (string * value))) :=
  round_trip env ;;
  tb <- source_table env t ;;
  ret (match table_rows tb with
       | [] => None
       | r :: _ => Some (zip (Field <$> table_columns tb) r)
       end).

(** [cursor.execute("SELECT * FROM `t`")] on the streaming cursor: the
    rows that [fetchone] will hand out one by one. *)
Definition sscursor_execute (env : Env) (t : string) : M (list row) :=
  round_trip env ;;
  tb <- source_table env t ;;
  ret (table_rows tb).

(** [cursor.fetchone()] on the streaming cursor. *)
Definition sscursor_fetchone (env : Env) (pending : list row) : M (option row) :=
  round_trip env ;;
  ret (head pending).

(** [ch_client.command("DROP TABLE IF EXISTS `t`")] *)
Definition ch_drop (env : Env) (t : string) : M unit :=
  round_trip env ;;
  modify (fun w => set_ch_db (delete t (ch_db w)) w).

(** [ch_client.command(ddl)] for a [CREATE TABLE IF NOT EXISTS `t`]
    statement. The model of the server does not parse the statement, so
    the table name comes with it. *)
Definition ch_create (env : Env) (t ddl : string) : M unit :=
  round_trip env ;;
  modify (fun w => match ch_db w !! t with
                   | Some _ => w
                   | None => set_ch_db (<[t := []]> (ch_db w)) w
                   end).

(** [ch_client.insert(t, data, column_names=column_names)]: the write is
    issued, then it appends to the table or raises. *)
Definition ch_insert (env : Env) (t : string) (data : list row)
    (column_names : list string) : M unit :=
  modify (add_write {| bw_table := t; bw_column_names := column_names;
                       bw_rows := data |}) ;;
  round_trip env ;;
  w <- get_state ;;
  match ch_db w !! t with
  | Some old => modify (set_ch_db (<[t := old ++ data]> (ch_db w)))
  | None => no_such_table t
  end.

(** [ch_client.query("SELECT COUNT( * ) as cnt FROM `t`").first_row[0]] *)
Definition ch_count (env : Env) (t : string) : M Z :=
  round_trip env ;;
  w <- get_state ;;
  match ch_db w !! t with
  | Some rows => ret (Z.of_nat (length rows))
  | None => no_such_table t
  end.

(** ** SchemaIntrospector and DDLSynthesizer *)

Definition get_mysql_table_structure (env : Env) (table_name : string)
  : M (list Column) :=
  mysql_describe env table_name.

Definition get_primary_key (env : Env) (table_name : string) : M (list string) :=
  mysql_key_columns env table_name.

Definition nl : string := String (ascii_of_nat 10) EmptyString.

(** The loop that fills [column_defs]. *)
Fixpoint column_defs (columns : list Column) : result (list string) :=
  match columns with
  | [] => Ok []
  | col :: rest =>
      match convert_mysql_type_to_clickhouse (Type_ col) (Null col) with
      | Raise e => Raise e
      | Ok ch_type =>
          match column_defs rest with
          | Raise e => Raise e
          | Ok defs => Ok (("    `" +:+ Field col +:+ "` " +:+ ch_type) :: defs)
          end
      end
  end.

Definition generate_clickhouse_ddl (mysql_table ch_table : string)
    (columns : list Column) (primary_keys : list string) : result string :=
  match column_defs columns with
  | Raise e => Raise e
  | Ok defs =>
      let columns_ddl := PyStr.join ("," +:+ nl) defs in
      let order_by :=
        match primary_keys with
        | [] => "tuple()"
        | _ => PyStr.join ", " ((fun pk => "`" +:+ pk +:+ "`") <$> primary_keys)
        end in
      Ok (nl +:+ "CREATE TABLE IF NOT EXISTS `" +:+ ch_table +:+ "`" +:+ nl
          +:+ "(" +:+ nl +:+ columns_ddl +:+ nl +:+ ")" +:+ nl
          +:+ "ENGINE = MergeTree()" +:+ nl
          +:+ "ORDER BY (" +:+ order_by +:+ ")" +:+ nl
          +:+ "SETTINGS index_granularity = 8192" +:+ nl)
  end.

Definition drop_table_if_exists (cfg : Config) (env : Env) (table_name : string)
  : M unit :=
  if negb (default true (drop_table_before_create cfg)) then ret tt
  else try_catch (ch_drop env table_name)
                 (fun e => log (LogDropFailed (str_of_exn e)) ;; raise e).

(** The source takes the statement alone; see [ch_create] for the name. *)
Definition create_clickhouse_table (env : Env) (ch_table ddl : string) : M unit :=
  try_catch (ch_create env ch_table ddl)
            (fun e => log (LogCreateFailed (str_of_exn e)) ;; raise e).

(** ** StreamingTransferEngine: [migrate_data] *)

(** The two lines [if isinstance(value, datetime): value = value.strftime(..)]. *)
Definition normalize_value (v : value) : value :=
  match v with
  | VDatetime d => VStr (strftime d)
  | _ => v
  end.

(** [for i, col_name in enumerate(column_names): ... row[i] ...], from
    index [i] on; [row[i]] raises past the end of the tuple. *)
Fixpoint convert_row_from (i : nat) (column_names : list string) (r : row)
  : result row :=
  match column_names with
  | [] => Ok []
  | _ :: names =>
      match r !! i with
      | None => Raise (IndexError "tuple index out of range")
      | Some v =>
          match convert_row_from (S i) names r with
          | Raise e => Raise e
          | Ok row_data => Ok (normalize_value v :: row_data)
          end
      end
  end.

Definition convert_row (column_names : list string) (r : row) : result row :=
  convert_row_from 0 column_names r.

(** The variables the [while True] loop updates. *)
Record LoopState : Type := {
  migrated_rows : Z;
  batch_data : list row;
  batch_count : Z }.

Definition len {A} (l : list A) : Z := Z.of_nat (length l).

(** The branch [if not row:] of the loop, which ends it: the leftover
    batch is written when it is not empty. The result is [migrated_rows]. *)
Definition flush_last (env : Env) (ch_table : string) (column_names : list string)
    (ls : LoopState) : M Z :=
  match batch_data ls with
  | [] => ret (migrated_rows ls)
  | _ =>
      ch_insert env ch_table (batch_data ls) column_names ;;
      current_time <- time_time env ;;
      ret (migrated_rows ls + len (batch_data ls))
  end.

(** The [while True] loop over the rows the streaming cursor still holds.
    [not row] holds for [None] and for the empty tuple. *)
Fixpoint stream_loop (env : Env) (ch_table : string) (column_names : list string)
    (batch_size : Z) (pending : list row) (ls : LoopState) : M Z :=
  match pending with
  | [] =>
      fetched <- sscursor_fetchone env pending ;;
      flush_last env ch_table column_names ls
  | r :: rest =>
      fetched <- sscursor_fetchone env pending ;;
      match r with
      | [] => flush_last env ch_table column_names ls
      | _ =>
          row_data <- of_result (convert_row column_names r) ;;
          let batch := batch_data ls ++ [row_data] in
          if len batch >=? batch_size then
            ch_insert env ch_table batch column_names ;;
            current_time <- time_time env ;;
            stream_loop env ch_table column_names batch_size rest
              {| migrated_rows := migrated_rows ls + len batch;
                 batch_data := [];
                 batch_count := batch_count ls + 1 |}
          else
            stream_loop env ch_table column_names batch_size rest
              {| migrated_rows := migrated_rows ls;
                 batch_data := batch;
                 batch_count := batch_count ls |}
      end
  end.

(** [a // b] *)
Definition floordiv {S} (a b : Z) : ST S Z :=
  if b =? 0 then raise (ZeroDivisionError "integer division or modulo by zero")
  else ret (a / b).

(** [list(first_row.keys())] *)
Definition dict_keys {S} (d : option (list (string * value))) : ST S (list string) :=
  match d with
  | None => raise (AttributeError "'NoneType' object has no attribute 'keys'")
  | Some kvs => ret (fst <$> kvs)
  end.

(** [x / t if t > 0 else 0] *)
Definition speed_of (n : Z) (t : Q) : Q :=
  if Qlt_le_dec 0 t then (inject_Z n / t)%Q else 0%Q.

(** [migrate_data]. Left out, as they change neither the result nor the
    target: the progress lines (they divide by [total_rows], which is
    the number of rows of the table being streamed and so is not 0 once
    a batch has been written) and the [cursor.close()] of the [finally]
    block. *)
Definition migrate_data (cfg : Config) (env : Env) (mysql_table ch_table : string)
    (batch_size : Z) : M (Z * Q) :=
  total_rows <- mysql_count env mysql_table ;;
  if (total_rows =? 0) && default true (skip_empty_tables cfg) then
    log LogEmptyTable ;;
    ret (0, 0%Q)
  else
    total_batches <- floordiv (total_rows + batch_size - 1) batch_size ;;
    first_row <- mysql_first_row env mysql_table ;;
    column_names <- dict_keys first_row ;;
    pending <- sscursor_execute env mysql_table ;;
    start_time <- time_time env ;;
    migrated <- stream_loop env ch_table column_names batch_size pending
                  {| migrated_rows := 0; batch_data := []; batch_count := 0 |} ;;
    end_time <- time_time env ;;
    let total_time := (end_time - start_time)%Q in
    ret (migrated, speed_of migrated total_time).

(** ** VerificationChecker: [verify_migration] *)

Definition verify_migration (env : Env) (mysql_table ch_table : string) : M bool :=
  mysql_cnt <- mysql_count env mysql_table ;;
  ch_cnt <- ch_count env ch_table ;;
  log (LogVerify mysql_cnt ch_cnt) ;;
  if mysql_cnt =? ch_cnt then
    log LogVerifyPassed ;;
    ret true
  else
    log (LogVerifyFailed (Z.abs (mysql_cnt - ch_cnt))) ;;
    ret false.

(** ** MigrationOrchestrator: [migrate_table] *)

(** The dictionary [table_result] as [migrate_table] first builds it. *)
Definition new_table_result (mysql_table ch_table : string) : TableResult :=
  {| r_mysql_table := mysql_table; r_ch_table := ch_table; r_rows := 0;
     r_time_used := 0%Q; r_speed := 0%Q; r_status := failed;
     r_verified := false; r_error := None |}.

(** [table_result['rows'] = migrated_rows; table_result['speed'] = avg_speed] *)
Definition set_rows_speed (n : Z) (v : Q) (r : TableResult) : TableResult :=
  {| r_mysql_table := r_mysql_table r; r_ch_table := r_ch_table r; r_rows := n;
     r_time_used := r_time_used r; r_speed := v; r_status := r_status r;
     r_verified := r_verified r; r_error := r_error r |}.

(** [table_result['verified'] = verified_success] *)
Definition set_verified (b : bool) (r : TableResult) : TableResult :=
  {| r_mysql_table := r_mysql_table r; r_ch_table := r_ch_table r;
     r_rows := r_rows r; r_time_used := r_time_used r; r_speed := r_speed r;
     r_status := r_status r; r_verified := b; r_error := r_error r |}.

(** [table_result['time_used'] = elapsed_time; table_result['status'] = 'success'] *)
Definition set_success (elapsed : Q) (r : TableResult) : TableResult :=
  {| r_mysql_table := r_mysql_table r; r_ch_table := r_ch_table r;
     r_rows := r_rows r; r_time_used := elapsed; r_speed := r_speed r;
     r_status := success; r_verified := r_verified r; r_error := r_error r |}.

(** [table_result['time_used'] = elapsed_time; table_result['error'] = str(e)] *)
Definition set_error (elapsed : Q) (msg : string) (r : TableResult) : TableResult :=
  {| r_mysql_table := r_mysql_table r; r_ch_table := r_ch_table r;
     r_rows := r_rows r; r_time_used := elapsed; r_speed := r_speed r;
     r_status := r_status r; r_verified := r_verified r; r_error := Some msg |}.

(** Steps 1 to 4 of the [try] block: structure, drop, create, transfer. *)
Definition transfer_steps (cfg : Config) (env : Env) (mysql_table ch_table : string)
    (batch_size : Z) : M (Z * Q) :=
  columns <- get_mysql_table_structure env mysql_table ;;
  primary_keys <- get_primary_key env mysql_table ;;
  drop_table_if_exists cfg env ch_table ;;
  ddl <- of_result (generate_clickhouse_ddl mysql_table ch_table columns primary_keys) ;;
  create_clickhouse_table env ch_table ddl ;;
  migrate_data cfg env mysql_table ch_table batch_size.

(** The [try] block of [migrate_table]; [table_result] is the local of
    [with_local], updated in place. *)
Definition migrate_table_try (cfg : Config) (env : Env) (mysql_table ch_table : string)
    (batch_size : Z) (verify : bool) (start_time : Q)
  : ST (TableResult * World) TableResult :=
  transferred <- outer (transfer_steps cfg env mysql_table ch_table batch_size) ;;
  local_modify (set_rows_speed (fst transferred) (snd transferred)) ;;
  (if verify then
     verified_success <- outer (verify_migration env mysql_table ch_table) ;;
     local_modify (set_verified verified_success)
   else ret tt) ;;
  end_time <- outer (time_time env) ;;
  local_modify (set_success (end_time - start_time)%Q) ;;
  local_get.

(** The [except Exception as e] block of [migrate_table]. *)
Definition migrate_table_except (cfg : Config) (env : Env) (start_time : Q) (e : exn)
  : ST (TableResult * World) TableResult :=
  end_time <- outer (time_time env) ;;
  local_modify (set_error (end_time - start_time)%Q (str_of_exn e)) ;;
  outer (log (LogTableFailed (str_of_exn e))) ;;
  if negb (default false (continue_on_error cfg)) then raise e
  else local_get.

Definition migrate_table (cfg : Config) (env : Env) (mysql_table ch_table : string)
    (batch_size : option Z) (verify : option bool) : M TableResult :=
  let batch_size :=
    match batch_size with
    | None => default 10000 (default_batch_size cfg)
    | Some b => b
    end in
  let verify :=
    match verify with
    | None => default true (default_verify cfg)
    | Some v => v
    end in
  start_time <- time_time env ;;
  with_local (new_table_result mysql_table ch_table)
    (try_catch
       (migrate_table_try cfg env mysql_table ch_table batch_size verify start_time)
       (migrate_table_except cfg env start_time)).

(** ** MigrationOrchestrator: [migrate_all_tables] *)

(** The state of the orchestrator object: the connections' world, the
    statistics, every value the statistics held before (a ghost field
    that no code reads), and the calls made to the notifier. *)
Record Orch : Type := {
  world : World;
  migration_stats : Stats;
  stats_history : list Stats;
  notifications : list Notification }.

Abbreviation O := (ST Orch).

Definition in_world {A} (m : M A) : O A :=
  zoom world
       (fun w o => {| world := w; migration_stats := migration_stats o;
                      stats_history := stats_history o;
                      notifications := notifications o |})
       m.

(** Any assignment into [self.migration_stats]. *)
Definition update_stats (f : Stats -> Stats) : O unit :=
  modify (fun o => {| world := world o;
                      migration_stats := f (migration_stats o);
                      stats_history := stats_history o ++ [migration_stats o];
                      notifications := notifications o |}).

Definition get_stats : O Stats := fun o => (Ok (migration_stats o), o).

Definition notify (n : Notification) : O unit :=
  modify (fun o => {| world := world o; migration_stats := migration_stats o;
                      stats_history := stats_history o;
                      notifications := notifications o ++ [n] |}).

Definition set_total_tables (n : Z) (s : Stats) : Stats :=
  {| total_tables := n; success_tables := success_tables s;
     failed_tables := failed_tables s; total_rows := total_rows s;
     total_time := total_time s; avg_speed := avg_speed s;
     table_details := table_details s |}.

Definition incr_success_tables (s : Stats) : Stats :=
  {| total_tables := total_tables s; success_tables := success_tables s + 1;
     failed_tables := failed_tables s; total_rows := total_rows s;
     total_time := total_time s; avg_speed := avg_speed s;
     table_details := table_details s |}.

Definition incr_failed_tables (s : Stats) : Stats :=
  {| total_tables := total_tables s; success_tables := success_tables s;
     failed_tables := failed_tables s + 1; total_rows := total_rows s;
     total_time := total_time s; avg_speed := avg_speed s;
     table_details := table_details s |}.

Definition add_total_rows (n : Z) (s : Stats) : Stats :=
  {| total_tables := total_tables s; success_tables := success_tables s;
     failed_tables := failed_tables s; total_rows := total_rows s + n;
     total_time := total_time s; avg_speed := avg_speed s;
     table_details := table_details s |}.

Definition append_table_details (r : TableResult) (s : Stats) : Stats :=
  {| total_tables := total_tables s; success_tables := success_tables s;
     failed_tables := failed_tables s; total_rows := total_rows s;
     total_time := total_time s; avg_speed := avg_speed s;
     table_details := table_details s ++ [r] |}.

Definition set_total_time (t : Q) (s : Stats) : Stats :=
  {| total_tables := total_tables s; success_tables := success_tables s;
     failed_tables := failed_tables s; total_rows := total_rows s;
     total_time := t; avg_speed := avg_speed s;
     table_details := table_details s |}.

Definition set_avg_speed (v : Q) (s : Stats) : Stats :=
  {| total_tables := total_tables s; success_tables := success_tables s;
     failed_tables := failed_tables s; total_rows := total_rows s;
     total_time := total_time s; avg_speed := Some v;
     table_details := table_details s |}.

(** [not s] for a value read with [.get]: [None] or the empty string. *)
Definition falsy (s : option string) : bool :=
  match s with
  | None => true
  | Some EmptyString => true
  | Some _ => false
  end.

(** [not mysql_table or not ch_table] *)
Definition invalid_entry (table_config : TableMapping) : bool :=
  falsy (tc_mysql_table table_config) || falsy (tc_ch_table table_config).

(** The [try] block of one iteration of the loop over the tables. *)
Definition table_try (cfg : Config) (env : Env) (mysql_table ch_table : string)
    (batch_size : option Z) (verify : option bool) : O unit :=
  table_result <- in_world (migrate_table cfg env mysql_table ch_table batch_size verify) ;;
  (match r_status table_result with
   | success => update_stats incr_success_tables
   | failed => update_stats incr_failed_tables
   end) ;;
  update_stats (add_total_rows (r_rows table_result)) ;;
  update_stats (append_table_details table_result).

(** The [except Exception as e] block of one iteration. *)
Definition table_except (cfg : Config) (mysql_table : string)
    (total idx : Z) (e : exn) : O unit :=
  update_stats incr_failed_tables ;;
  in_world (log (LogFailedTable mysql_table (str_of_exn e))) ;;
  notify (NotifyFailure mysql_table (str_of_exn e) total (idx - 1)) ;;
  if negb (default false (continue_on_error cfg)) then raise e
  else ret tt.

(** [for idx, table_config in enumerate(tables, 1): ...], from [idx] on. *)
Fixpoint tables_loop (cfg : Config) (env : Env) (total idx : Z)
    (tbls : list TableMapping) : O unit :=
  match tbls with
  | [] => ret tt
  | table_config :: rest =>
      if invalid_entry table_config then
        in_world (log (LogInvalidConfig table_config)) ;;
        tables_loop cfg env total (idx + 1) rest
      else
        let mysql_table := default "" (tc_mysql_table table_config) in
        let ch_table := default "" (tc_ch_table table_config) in
        try_catch
          (table_try cfg env mysql_table ch_table
             (tc_batch_size table_config) (tc_verify table_config))
          (table_except cfg mysql_table total idx) ;;
        tables_loop cfg env total (idx + 1) rest
  end.

(** [total_rows / overall_time if overall_time > 0 and total_rows > 0 else 0] *)
Definition run_speed (overall_time : Q) (rows : Z) : Q :=
  if Qlt_le_dec 0 overall_time then
    if 0 <? rows then (inject_Z rows / overall_time)%Q else 0%Q
  else 0%Q.

Definition migrate_all_tables (cfg : Config) (env : Env) : O unit :=
  let tbls := default [] (tables cfg) in
  match tbls with
  | [] => in_world (log LogNoTables)
  | _ =>
      let total := len tbls in
      update_stats (set_total_tables total) ;;
      notify (NotifyStart tbls (mysql_database cfg) (clickhouse_database cfg)) ;;
      overall_start_time <- in_world (time_time env) ;;
      tables_loop cfg env total 1 tbls ;;
      end_time <- in_world (time_time env) ;;
      let overall_time := (end_time - overall_start_time)%Q in
      update_stats (set_total_time overall_time) ;;
      stats <- get_stats ;;
      update_stats (set_avg_speed (run_speed overall_time (total_rows stats))) ;;
      stats <- get_stats ;;
      if failed_tables stats =? 0 then notify (NotifySuccess stats)
      else in_world (log (LogCompletedWithFailures (failed_tables stats)))
  end.

(** The orchestrator as [__init__] leaves it, on the world [w]. *)
Definition new_orch (w : World) : Orch :=
  {| world := w; migration_stats := initial_stats; stats_history := [];
     notifications := [] |}.

(** ** The notifier: [feishu_notifier.py]

    [FeishuNotifier] posts message cards to a webhook. The webhook is
    the environment: [answers n] is what the [n]-th post of a run gets,
    an exception (of [requests.post] or of [response.json()]) or the
    value under ['code'] in the JSON answer, [None] when the answer has
    none. The state is the list of cards posted and the log. The text of
    the current time, [datetime.now().strftime(..)], is an argument.
    [notify_success], whose card prints floating-point durations, is
    not modelled. *)

#[global] Instance exn_eq_dec : EqDecision exn.
Proof. solve_decision. Defined.

#[global] Instance result_eq_dec {A} `{EqDecision A} : EqDecision (result A).
Proof. solve_decision. Defined.

Module Feishu.

(** The dictionary [config.feishu_config], every key read with [.get]. *)
Record Settings : Type := {
  cfg_enabled : option bool;
  cfg_webhook_url : option string;
  cfg_notify_on_start : option bool;
  cfg_notify_on_success : option bool;
  cfg_notify_on_failure : option bool;
  cfg_env_name : option string;
  cfg_project_name : option string;
  cfg_mention_users : option (list string);
  cfg_mention_all : option bool }.

(** The attributes of a [FeishuNotifier]. *)
Record Notifier : Type := {
  enabled : bool;
  webhook_url : string;
  notify_on_start : bool;
  notify_on_success : bool;
  notify_on_failure : bool;
  env_name : string;
  project_name : string;
  mention_users : list string;
  mention_all : bool }.

Inductive Element : Type :=
| Div (content : string)
| Hr.

Record Card : Type := {
  card_title : string;
  card_template : string;
  card_elements : list Element }.

Inductive FeishuLog : Type :=
| WarnNoWebhook
| InfoEnabled
| InfoSent
| ErrorRefused
| ErrorRaised (msg : string).

Record Web : Type := {
  posts : list (string * Card);
  feishu_logs : list FeishuLog }.

Definition add_post (url : string) (c : Card) (s : Web) : Web :=
  {| posts := posts s ++ [(url, c)]; feishu_logs := feishu_logs s |}.

Definition add_feishu_log (ev : FeishuLog) (s : Web) : Web :=
  {| posts := posts s; feishu_logs := feishu_logs s ++ [ev] |}.

Definition feishu_log (ev : FeishuLog) : ST Web unit := modify (add_feishu_log ev).

(** [__init__]: the notifier, and what it logs. *)
Definition init (config : Settings) : Notifier * list FeishuLog :=
  let enabled0 := default false (cfg_enabled config) in
  let url := default "" (cfg_webhook_url config) in
  let no_url := enabled0 && bool_decide (url = "") in
  ({| enabled := if no_url then false else enabled0;
      webhook_url := url;
      notify_on_start := default true (cfg_notify_on_start config);
      notify_on_success := default true (cfg_notify_on_success config);
      notify_on_failure := default true (cfg_notify_on_failure config);
      env_name := default "Production" (cfg_env_name config);
      project_name := default "Data Migration" (cfg_project_name config);
      mention_users := default [] (cfg_mention_users config);
      mention_all := default false (cfg_mention_all config) |},
   if no_url then [WarnNoWebhook]
   else if enabled0 then [InfoEnabled] else []).

(** [requests.post(..)] followed by [response.json()] and
    [result.get('code')]. *)
Definition post_card (answers : nat -> result (option Z)) (url : string) (c : Card)
  : ST Web (option Z) :=
  fun s => (answers (length (posts s)), add_post url c s).

Definition send_card (answers : nat -> result (option Z)) (self : Notifier)
    (title : string) (elements : list Element) (color : string) : ST Web bool :=
  if negb (enabled self) then ret false
  else
    try_catch
      (code <- post_card answers (webhook_url self)
                 {| card_title := title; card_template := color;
                    card_elements := elements |} ;;
       if bool_decide (code = Some 0) then
         feishu_log InfoSent ;; ret true
       else
         feishu_log ErrorRefused ;; ret false)
      (fun e => feishu_log (ErrorRaised (str_of_exn e)) ;; ret false).

Definition _build_mention_element (self : Notifier) : option Element :=
  match mention_users self, mention_all self with
  | [], false => None
  | _, true => Some (Div "<at id=all></at>")
  | users, false =>
      Some (Div (PyStr.join " " ((fun uid => "<at id=" +:+ uid +:+ "></at>") <$> users)))
  end.

(** [elements.append({"tag": "hr"}); elements.append(mention)] when
    there is a mention. *)
Definition with_mention (self : Notifier) (elements : list Element) : list Element :=
  match _build_mention_element self with
  | Some mention => elements ++ [Hr; mention]
  | None => elements
  end.

Definition nlnl : string := nl +:+ nl.

(** The lines of [table_list], from index [idx] on; a key that is
    missing prints as ['N/A'], a missing batch size as ['default']. *)
Fixpoint table_lines (idx : Z) (tbls : list TableMapping) : list string :=
  match tbls with
  | [] => []
  | table :: rest =>
      (pretty idx +:+ ". **" +:+ default "N/A" (tc_mysql_table table)
       +:+ "** -> **" +:+ default "N/A" (tc_ch_table table)
       +:+ "** (batch: "
       +:+ match tc_batch_size table with
           | Some bs => pretty bs
           | None => "default"
           end
       +:+ ")")
      :: table_lines (idx + 1) rest
  end.

Definition notify_start (answers : nat -> result (option Z)) (self : Notifier)
    (now_text : string) (tbls : list TableMapping) (mysql_db_name clickhouse_db_name : string)
  : ST Web unit :=
  if negb (notify_on_start self) then ret tt
  else
    let title := "[START] " +:+ project_name self in
    let elements :=
      [ Div ("**Environment**: " +:+ env_name self +:+ nlnl
             +:+ "**Time**: " +:+ now_text +:+ nlnl
             +:+ "**Source DB**: " +:+ mysql_db_name +:+ nlnl
             +:+ "**Target DB**: " +:+ clickhouse_db_name +:+ nlnl
             +:+ "**Tables Count**: " +:+ pretty (len tbls));
        Hr;
        Div ("**Table List**:" +:+ nlnl +:+ PyStr.join nlnl (table_lines 1 tbls)) ] in
    send_card answers self title (with_mention self elements) "blue" ;;
    ret tt.

(** The dictionary [error_info] that [migrate_all_tables] builds. *)
Record ErrorInfo : Type := {
  failed_table : string;
  error_message : string;
  info_total_tables : Z;
  completed_tables : Z;
  traceback : string }.

(** [tb[:1000] + "\n... (truncated)"] when [len(tb) > 1000]. *)
Definition shown_traceback (tb : string) : string :=
  if (1000 <? String.length tb)%nat
  then String.substring 0 1000 tb +:+ nl +:+ "... (truncated)"
  else tb.

Definition failure_elements (self : Notifier) (now_text : string)
    (error_info : ErrorInfo) : list Element :=
  let elements :=
    [ Div ("**Environment**: " +:+ env_name self +:+ nlnl
           +:+ "**Failed Time**: " +:+ now_text +:+ nlnl
           +:+ "**Failed Table**: " +:+ failed_table error_info +:+ nlnl
           +:+ "**Progress**: " +:+ pretty (completed_tables error_info) +:+ "/"
           +:+ pretty (info_total_tables error_info) +:+ " tables");
      Hr;
      Div ("**Error Message**:" +:+ nlnl +:+ "```" +:+ nl
           +:+ error_message error_info +:+ nl +:+ "```") ] in
  let elements :=
    match traceback error_info with
    | EmptyString => elements
    | tb =>
        elements
        ++ [ Hr;
             Div ("**Traceback**:" +:+ nlnl +:+ "```" +:+ nl
                  +:+ shown_traceback tb +:+ nl +:+ "```") ]
    end in
  with_mention self elements.

Definition notify_failure (answers : nat -> result (option Z)) (self : Notifier)
    (now_text : string) (error_info : ErrorInfo) : ST Web unit :=
  if negb (notify_on_failure self) then ret tt
  else
    send_card answers self ("[FAILURE] " +:+ project_name self)
      (failure_elements self now_text error_info) "red" ;;
    ret tt.

End Feishu.

(** ** The task ledger: [database.py]

    [TaskDatabase] keeps the tasks and the per-table records in SQLite.
    The model holds the two tables [tasks] and [table_migrations] as
    lists in insertion order, with the counters of their
    [AUTOINCREMENT] keys; statements are taken to succeed. The table
    [task_logs], written by [add_log] and read back in an order that
    SQLite leaves open among equal timestamps, is not modelled, nor is
    [get_all_tasks] for the same reason. The text of the current time
    is an argument, as is [db_now_text] for [CURRENT_TIMESTAMP]. *)

Module Ledger.

(** A line of [tasks]; [config_snapshot] is the JSON text. *)
Record Task : Type := {
  id : Z;
  task_name : string;
  config_snapshot : string;
  status : string;
  start_time : option string;
  end_time : option string;
  total_tables : Z;
  success_tables : Z;
  failed_tables : Z;
  total_rows : Z;
  total_time : Q;
  error_message : option string;
  created_at : string }.

(** A line of [table_migrations]; [verified] is stored as 1 or 0. *)
Record TableMigration : Type := {
  tm_id : Z;
  tm_task_id : Z;
  tm_mysql_table : string;
  tm_ch_table : string;
  tm_status : string;
  tm_rows : Z;
  tm_time_used : Q;
  tm_speed : Q;
  tm_verified : Z;
  tm_error_message : option string }.

Record DB : Type := {
  tasks : list Task;
  next_task_id : Z;
  table_migrations : list TableMigration;
  next_migration_id : Z }.

(** The database after [_init_database] on a new file. *)
Definition empty : DB :=
  {| tasks := []; next_task_id := 1; table_migrations := []; next_migration_id := 1 |}.

(** The dictionary [stats] of [update_task_status]: a key is there or not. *)
Record StatsUpdate : Type := {
  su_total_tables : option Z;
  su_success_tables : option Z;
  su_failed_tables : option Z;
  su_total_rows : option Z;
  su_total_time : option Q }.

Section Snapshot.
Context {Json : Type}.
Variable dumps : Json -> string.
Variable loads : string -> result Json.

Definition create_task (now_text db_now_text : string) (name : string)
    (snapshot : Json) (db : DB) : Z * DB :=
  let task_id := next_task_id db in
  (task_id,
   {| tasks :=
        tasks db
        ++ [{| id := task_id; task_name := name;
               config_snapshot := dumps snapshot;
               status := "running"; start_time := Some now_text;
               end_time := None;
               total_tables := 0; success_tables := 0; failed_tables := 0;
               total_rows := 0; total_time := 0%Q; error_message := None;
               created_at := db_now_text |}];
      next_task_id := task_id + 1;
      table_migrations := table_migrations db;
      next_migration_id := next_migration_id db |}).

(** A task as [get_task] returns it: the line, with the snapshot decoded. *)
Definition get_task (task_id : Z) (db : DB) : result (option (Task * Json)) :=
  match filter (fun t => id t = task_id) (tasks db) with
  | [] => Ok None
  | t :: _ =>
      match loads (config_snapshot t) with
      | Ok snapshot => Ok (Some (t, snapshot))
      | Raise e => Raise e
      end
  end.

End Snapshot.

(** The [SET] clause of [update_task_status], applied to one line. *)
Definition updated (now_text : string) (new_status : string)
    (stats : option StatsUpdate) (message : option string) (t : Task) : Task :=
  let terminal :=
    bool_decide (new_status = "completed") || bool_decide (new_status = "failed") in
  let pick {A} (key : StatsUpdate -> option A) (old : A) : A :=
    match stats with
    | Some su => default old (key su)
    | None => old
    end in
  {| id := id t; task_name := task_name t; config_snapshot := config_snapshot t;
     status := new_status;
     start_time := start_time t;
     end_time := if terminal then Some now_text else end_time t;
     total_tables := pick su_total_tables (total_tables t);
     success_tables := pick su_success_tables (success_tables t);
     failed_tables := pick su_failed_tables (failed_tables t);
     total_rows := pick su_total_rows (total_rows t);
     total_time := pick su_total_time (total_time t);
     error_message :=
       match message with
       | None | Some EmptyString => error_message t
       | Some msg => Some msg
       end;
     created_at := created_at t |}.

Definition update_task_status (now_text : string) (task_id : Z) (new_status : string)
    (stats : option StatsUpdate) (message : option string) (db : DB) : DB :=
  {| tasks :=
       (fun t => if bool_decide (id t = task_id)
                 then updated now_text new_status stats message t else t)
         <$> tasks db;
     next_task_id := next_task_id db;
     table_migrations := table_migrations db;
     next_migration_id := next_migration_id db |}.

Definition add_table_migration (task_id : Z) (mysql_table ch_table status : string)
    (rows : Z) (time_used speed : Q) (verified : bool) (message : option string)
    (db : DB) : DB :=
  {| tasks := tasks db;
     next_task_id := next_task_id db;
     table_migrations :=
       table_migrations db
       ++ [{| tm_id := next_migration_id db; tm_task_id := task_id;
              tm_mysql_table := mysql_table; tm_ch_table := ch_table;
              tm_status := status; tm_rows := rows; tm_time_used := time_used;
              tm_speed := speed; tm_verified := if verified then 1 else 0;
              tm_error_message := message |}];
     next_migration_id := next_migration_id db + 1 |}.

(** A record as [get_table_migrations] returns it: [verified] is a
    boolean again. *)
Definition get_table_migrations (task_id : Z) (db : DB)
  : list (TableMigration * bool) :=
  (fun r => (r, negb (tm_verified r =? 0)))
    <$> filter (fun r => tm_task_id r = task_id) (table_migrations db).

End Ledger.

(** ** The background task: [run_migration_task] of [app.py]

    What the host does around the migration is given by [Host]: each
    field is the exception that step raises, if any. The configuration
    read back from the temporary file is the configuration written to
    it, and the connections opened are those of the migration model;
    closing them at the end of the [with] block is taken to succeed.
    The lines sent to the task log are not modelled. *)

Record Host : Type := {
  setup_error : option exn;
  config_error : option exn;
  connect_error : option exn;
  cleanup_error : option exn }.

Definition status_text (st : Status) : string :=
  match st with
  | success => "success"
  | failed => "failed"
  end.

(** [for table_detail in stats.get('table_details', []): db.add_table_migration(..)] *)
Definition record_details (task_id : Z) (details : list TableResult)
    (db : Ledger.DB) : Ledger.DB :=
  foldl (fun db r =>
           Ledger.add_table_migration task_id (r_mysql_table r) (r_ch_table r)
             (status_text (r_status r)) (r_rows r) (r_time_used r) (r_speed r)
             (r_verified r) (r_error r) db)
        db details.

(** The arguments of the [update_task_status] that marks a completion. *)
Definition completed_stats (s : Stats) : Ledger.StatsUpdate :=
  {| Ledger.su_total_tables := Some (total_tables s);
     Ledger.su_success_tables := Some (success_tables s);
     Ledger.su_failed_tables := Some (failed_tables s);
     Ledger.su_total_rows := Some (total_rows s);
     Ledger.su_total_time := Some (total_time s) |}.

(** The inner [try]: configuration, connection, migration, report. *)
Definition task_body (host : Host) (cfg : Config) (env : Env) (w : World)
    (now_text : string) (task_id : Z) : ST Ledger.DB unit :=
  match config_error host with
  | Some e => raise e
  | None =>
      match connect_error host with
      | Some e => raise e
      | None =>
          match migrate_all_tables cfg env (new_orch w) with
          | (Raise e, _) => raise e
          | (Ok _, o) =>
              let stats := migration_stats o in
              modify (Ledger.update_task_status now_text task_id "completed"
                        (Some (completed_stats stats)) None) ;;
              modify (record_details task_id (table_details stats))
          end
      end
  end.

Definition startup_failure (e : exn) : string :=
  "任务启动失败: " +:+ str_of_exn e.

(** [now_text] is the time read by the update of the inner [try] or of
    its handler, [later_text] the time read by the outermost handler. *)
Definition run_migration_task (host : Host) (cfg : Config) (env : Env) (w : World)
    (now_text later_text : string) (task_id : Z) : ST Ledger.DB unit :=
  try_catch
    (match setup_error host with
     | Some e => raise e
     | None =>
         try_catch
           (task_body host cfg env w now_text task_id)
           (fun e =>
              modify (Ledger.update_task_status now_text task_id "failed"
                        None (Some (str_of_exn e)))) ;;
         match cleanup_error host with
         | Some e => raise e
         | None => ret tt
         end
     end)
    (fun e =>
       modify (Ledger.update_task_status later_text task_id "failed"
                 None (Some (startup_failure e)))).

(** The line of the task [task_id], as [SELECT .. WHERE id = ?] finds it. *)
Definition find_task (task_id : Z) (db : Ledger.DB) : option Ledger.Task :=
  head (filter (fun t => Ledger.id t = task_id) (Ledger.tasks db)).

(** The keys of the tasks are below the counter of the key. *)
Definition ledger_ok (db : Ledger.DB) : Prop :=
  Forall (fun t => Ledger.id t < Ledger.next_task_id db) (Ledger.tasks db).

(** Nothing the host does fails, and the migration ends without an
    exception. *)
Definition run_completes (host : Host) (cfg : Config) (env : Env) (w : World) : bool :=
  match setup_error host, config_error host, connect_error host,
        cleanup_error host, fst (migrate_all_tables cfg env (new_orch w)) with
  | None, None, None, None, Ok _ => true
  | _, _, _, _, _ => false
  end.

(** The records that the loop over [table_details] stores for the
    results [details], the first of them under the key [first_id]. *)
Fixpoint detail_records (task_id first_id : Z) (details : list TableResult)
  : list Ledger.TableMigration :=
  match details with
  | [] => []
  | r :: rest =>
      {| Ledger.tm_id := first_id; Ledger.tm_task_id := task_id;
         Ledger.tm_mysql_table := r_mysql_table r;
         Ledger.tm_ch_table := r_ch_table r;
         Ledger.tm_status := status_text (r_status r);
         Ledger.tm_rows := r_rows r;
         Ledger.tm_time_used := r_time_used r;
         Ledger.tm_speed := r_speed r;
         Ledger.tm_verified := if r_verified r then 1 else 0;
         Ledger.tm_error_message := r_error r |}
      :: detail_records task_id (first_id + 1) rest
  end.

(** ** Specification-level notions used by the theorems *)

(** The batches a stream of converted rows is cut into, given the rows
    [acc] already waiting in [batch_data]. *)
Fixpoint batches (batch_size : Z) (acc : list row) (converted : list row)
  : list (list row) :=
  match converted with
  | [] => match acc with
          | [] => []
          | _ => [acc]
          end
  | r :: rest =>
      if len (acc ++ [r]) >=? batch_size
      then (acc ++ [r]) :: batches batch_size [] rest
      else batches batch_size (acc ++ [r]) rest
  end.

(** A table as a database holds it: at least one column, and every row
    with one value per column. *)
Definition well_formed_table (tb : MySQLTable) : bool :=
  negb (bool_decide (table_columns tb = [])) &&
  forallb (fun r => (length r =? length (table_columns tb))%nat) (table_rows tb).

Definition no_faults (env : Env) : Prop := forall n, faults env n = None.

(** [batch_size] and [verify] as [migrate_table] resolves them. *)
Definition resolved_batch_size (cfg : Config) (batch_size : option Z) : Z :=
  match batch_size with
  | None => default 10000 (default_batch_size cfg)
  | Some b => b
  end.

Definition resolved_verify (cfg : Config) (verify : option bool) : bool :=
  match verify with
  | None => default true (default_verify cfg)
  | Some v => v
  end.

(** The entries of the mapping list that the loop does not skip. *)
Definition valid_entries (tbls : list TableMapping) : list TableMapping :=
  filter (fun tc => invalid_entry tc = false) tbls.

Definition attempted (s : Stats) : Z := success_tables s + failed_tables s.

Definition is_failure_notification (n : Notification) : bool :=
  match n with
  | NotifyFailure _ _ _ _ => true
  | _ => false
  end.

Ltac unfold_st :=
  unfold bind, ret, raise, try_catch, modify, get_state, of_result, zoom,
    with_local, outer, local_get, local_modify, log, no_such_table.

(** What a bulk write does when the round trip succeeds and the target
    table exists. *)
Definition after_insert (t : string) (data : list row) (column_names : list string)
    (old : list row) (w : World) : World :=
  set_ch_db (<[t := old ++ data]> (ch_db w))
    (tick_call (add_write {| bw_table := t; bw_column_names := column_names;
                             bw_rows := data |} w)).

Definition bulk_write (t : string) (column_names : list string) (b : list row)
  : BulkWrite :=
  {| bw_table := t; bw_column_names := column_names; bw_rows := b |}.

Definition converted_row (column_names : list string) (r : row) : row :=
  normalize_value <$> take (length column_names) r.

(** The rows of a table as the batches hold them. *)
Definition converted_rows (rows : list row) : list row :=
  (fun r : row => normalize_value <$> r) <$> rows.

(** The three assignments that record a returned [table_result]. *)
Definition count_result (r : TableResult) (s : Stats) : Stats :=
  match r_status r with
  | success => incr_success_tables s
  | failed => incr_failed_tables s
  end.

Definition record_result (r : TableResult) (s : Stats) : Stats :=
  append_table_details r (add_total_rows (r_rows r) (count_result r s)).

(** [s] belongs to a run over [T] entries and counts between [lo] and
    [hi] attempted tables. *)
Definition within (T lo hi : Z) (s : Stats) : Prop :=
  total_tables s = T /\ lo <= attempted s <= hi.

(** [f'Nullable({ch_type})'] when the flag is ['YES'], [ch_type] otherwise. *)
Definition nullable_wrap (is_nullable ch_type : string) : string :=
  if String.eqb is_nullable "YES" then "Nullable(" +:+ ch_type +:+ ")" else ch_type.

(** The target changed between [w] and [w'] at the table [t] at most:
    every other table is as it was, and every write issued in between
    names [t]. *)
Definition touches_only (t : string) (w w' : World) : Prop :=
  (forall t', t' <> t -> ch_db w' !! t' = ch_db w !! t') /\
  exists issued,
    writes w' = writes w ++ issued /\
    Forall (fun b => bw_table b = t) issued.

(** Every run of [m], returning or raising, relates the state before to
    the state after by [R]. *)
Definition preserves {S A} (R : S -> S -> Prop) (m : ST S A) : Prop :=
  forall s, R s (snd (m s)).

(** Batches as the loop cuts them: all full, but for a last one that
    holds between one row and a full batch. *)
Fixpoint full_but_last (k : Z) (bl : list (list row)) : Prop :=
  match bl with
  | [] => True
  | b :: rest =>
      match rest with
      | [] => 1 <= len b <= k
      | _ => len b = k /\ full_but_last k rest
      end
  end.

(** The target and the round trips after steps 1 to 3 of
    [migrate_table], when none of them fails: two round trips to the
    source, a drop when the policy asks for it, and the creation of the
    table when it is not there. *)
Definition dropped (cfg : Config) (t : string) (w : World) : World :=
  if default true (drop_table_before_create cfg)
  then set_ch_db (delete t (ch_db w)) (tick_call w)
  else w.

Definition created (t : string) (w : World) : World :=
  match ch_db w !! t with
  | Some _ => tick_call w
  | None => set_ch_db (<[t := []]> (ch_db w)) (tick_call w)
  end.

Definition prepared (cfg : Config) (t : string) (w : World) : World :=
  created t (dropped cfg t (tick_call (tick_call w))).

(** [R] on the outer state of a computation that has a local. *)
Definition on_outer {L S} (R : S -> S -> Prop) (p p' : L * S) : Prop :=
  R (snd p) (snd p').

(** The aggregates of the statistics, read off the recorded results. *)
Definition sum_rows (details : list TableResult) : Z :=
  foldr (fun r acc => r_rows r + acc) 0 details.

Definition is_success (r : TableResult) : bool :=
  match r_status r with
  | success => true
  | failed => false
  end.

Definition count_status (want_success : bool) (details : list TableResult) : Z :=
  len (filter (fun r => is_success r = want_success) details).

(** The statistics agree with the recorded results, but for [unrecorded]
    failures that were counted and left no result. *)
Definition consistent (unrecorded : Z) (s : Stats) : Prop :=
  total_rows s = sum_rows (table_details s) /\
  success_tables s = count_status true (table_details s) /\
  failed_tables s = count_status false (table_details s) + unrecorded.

(** ** Sample data *)

Module Sample.

Definition id_column : Column :=
  {| Field := "id"; Type_ := "int(11)"; Null := "NO" |}.

Definition orders (n : nat) : MySQLTable :=
  {| table_columns := [id_column]; table_primary_key := ["id"];
     table_rows := replicate n [VInt 7] |}.

Definition quiet_clock (n : nat) : Q := inject_Z (Z.of_nat n).

(** A source with the one table [orders] of [n] rows, and no failure. *)
Definition env (n : nat) : Env :=
  {| mysql_db := {[ "orders" := orders n ]};
     faults := fun _ => None;
     now := quiet_clock |}.

(** The same source, where round trip number [k] fails. *)
Definition env_failing (n k : nat) : Env :=
  {| mysql_db := {[ "orders" := orders n ]};
     faults := fun i => if (i =? k)%nat then Some "Lost connection" else None;
     now := quiet_clock |}.

Definition world (target : gmap string (list row)) : World :=
  {| ch_db := target; calls := 0; ticks := 0; writes := []; logs := [] |}.

Definition entry (src tgt : option string) : TableMapping :=
  {| tc_mysql_table := src; tc_ch_table := tgt;
     tc_batch_size := None; tc_verify := None |}.

Definition cfg (tbls : list TableMapping)
    (drop_first skip_empty keep_going : option bool) : Config :=
  {| mysql_database := "shop"; clickhouse_database := "analytics";
     tables := Some tbls; default_batch_size := None; default_verify := None;
     drop_table_before_create := drop_first;
     skip_empty_tables := skip_empty;
     continue_on_error := keep_going |}.

End Sample.

(** * Theorems *)

(** ** TypeMapper *)

Example convert_int_unsigned :
  convert_mysql_type_to_clickhouse "int(10) unsigned" "NO" = Ok "UInt32".
Proof. vm_compute. reflexivity. Qed.

Example convert_decimal_nullable :
  convert_mysql_type_to_clickhouse "decimal(10,2)" "YES"
  = Ok "Nullable(Decimal(10,2))".
Proof. vm_compute. reflexivity. Qed.

Example convert_geometry :
  convert_mysql_type_to_clickhouse "GEOMETRY" "NO" = Ok "String".
Proof. vm_compute. reflexivity. Qed.

Lemma split_cons (sep : ascii) (s : string) :
  exists hd tl, PyStr.split sep s = hd :: tl.
Proof.
  destruct s as [|c r]; simpl; [eauto|].
  destruct (Ascii.eqb c sep); [eauto|].
  destruct (PyStr.split sep r); eauto.
Qed.

Lemma split_second (sep : ascii) (s : string) :
  PyStr.contains (String sep EmptyString) s = true ->
  exists a b tl, PyStr.split sep s = a :: b :: tl.
Proof.
  induction s as [|c r IH]; simpl; [discriminate|].
  intros H. destruct (Ascii.eqb_spec c sep) as [->|Hne].
  - destruct (split_cons sep r) as (hd & tl & ->). eauto.
  - destruct (ascii_dec sep c) as [->|_]; [congruence|].
    simpl in H. destruct (IH H) as (a & b & tl & ->). eauto.
Qed.

Lemma base_type_of_total (t : string) : exists b, base_type_of t = Ok b.
Proof.
  unfold base_type_of, PyStr.index.
  destruct (split_cons "(" t) as (hd & tl & ->). simpl. eauto.
Qed.

Lemma precision_of_total (t : string) :
  PyStr.contains "(" t = true -> exists p, precision_of t = Ok p.
Proof.
  intros H. unfold precision_of, PyStr.index.
  destruct (split_second "(" t H) as (a & b & tl & ->). simpl.
  destruct (split_cons ")" b) as (hd & tl' & ->). simpl. eauto.
Qed.

Lemma unmapped_not_decimal (b : string) :
  TYPE_MAPPING !! b = None -> String.eqb b "decimal" = false.
Proof.
  intros H. destruct (String.eqb_spec b "decimal") as [->|]; [|reflexivity].
  vm_compute in H. discriminate.
Qed.

(** C8: [convert_mysql_type_to_clickhouse] returns a target type for
    every source type string and nullable flag (it never raises); when
    the base keyword is not a key of [TYPE_MAPPING] the type is the text
    fallback [String], inside [Nullable(..)] when the flag is ['YES'];
    and equal inputs give equal outputs. *)
Theorem convert_mysql_type_total_fallback_deterministic :
  (forall mysql_type is_nullable,
      exists ch_type,
        convert_mysql_type_to_clickhouse mysql_type is_nullable = Ok ch_type) /\
  (forall mysql_type is_nullable base_type,
      base_type_of mysql_type = Ok base_type ->
      TYPE_MAPPING !! base_type = None ->
      convert_mysql_type_to_clickhouse mysql_type is_nullable
      = Ok (if String.eqb is_nullable "YES" then "Nullable(String)" else "String")) /\
  (forall t1 n1 t2 n2,
      t1 = t2 -> n1 = n2 ->
      convert_mysql_type_to_clickhouse t1 n1 = convert_mysql_type_to_clickhouse t2 n2).
Proof.
  split; [|split].
  - intros t n. unfold convert_mysql_type_to_clickhouse.
    destruct (base_type_of_total t) as (b & ->).
    destruct (String.eqb b "decimal" && PyStr.contains "(" t) eqn:Hd; [|eauto].
    apply andb_true_iff in Hd as [_ Hp].
    destruct (precision_of_total t Hp) as (p & ->). eauto.
  - intros t n b Hb Hnone. unfold convert_mysql_type_to_clickhouse.
    rewrite Hb, Hnone, (unmapped_not_decimal b Hnone). simpl.
    rewrite andb_false_r. destruct (String.eqb n "YES"); reflexivity.
  - intros; subst; reflexivity.
Qed.

Lemma convert_mysql_type_witness :
  convert_mysql_type_to_clickhouse "geometry" "YES" = Ok "Nullable(String)".
Proof.
  apply (proj1 (proj2 convert_mysql_type_total_fallback_deterministic)
           "geometry" "YES" "geometry"); vm_compute; reflexivity.
Defined.

(** ** Row conversion *)

Lemma convert_row_from_spec (names : list string) (r : row) :
  forall i, (i + length names <= length r)%nat ->
    convert_row_from i names r
    = Ok (normalize_value <$> take (length names) (drop i r)).
Proof.
  induction names as [|c names IH]; intros i Hlen; simpl in *.
  - reflexivity.
  - destruct (lookup_lt_is_Some_2 r i) as [v Hv]; [lia|].
    rewrite Hv, IH by lia.
    rewrite (drop_S r v i Hv). reflexivity.
Qed.

Lemma convert_row_spec (column_names : list string) (r : row) :
  (length column_names <= length r)%nat ->
  convert_row column_names r
  = Ok (normalize_value <$> take (length column_names) r).
Proof.
  intros H. unfold convert_row. rewrite convert_row_from_spec by lia.
  rewrite drop_0. reflexivity.
Qed.

Lemma normalize_value_other (v : value) :
  isinstance_datetime v = false -> normalize_value v = v.
Proof. destruct v; simpl; congruence. Qed.

(** C9, as the code has it: the values of a row go into the batch
    position by position; a value that is an instance of [datetime] (a
    [DATETIME] or [TIMESTAMP] column) is held as its [strftime] string;
    every other value, a date-only or time-only value included, is held
    as it was read. *)
Theorem convert_row_positional (column_names : list string) (r : row) :
  (length column_names <= length r)%nat ->
  exists row_data,
    convert_row column_names r = Ok row_data /\
    length row_data = length column_names /\
    forall i v,
      (i < length column_names)%nat -> r !! i = Some v ->
      row_data !! i = Some (normalize_value v) /\
      (forall d, v = VDatetime d -> row_data !! i = Some (VStr (strftime d))) /\
      (isinstance_datetime v = false -> row_data !! i = Some v).
Proof.
  intros Hlen. eexists. split; [apply convert_row_spec, Hlen|].
  split; [rewrite length_fmap, length_take; lia|].
  intros i v Hi Hv.
  assert (Hget : (normalize_value <$> take (length column_names) r) !! i
                 = Some (normalize_value v)).
  { rewrite list_lookup_fmap, lookup_take_lt by lia. rewrite Hv. reflexivity. }
  split; [exact Hget|]. split.
  - intros d ->. exact Hget.
  - intros Hother. rewrite Hget, normalize_value_other by exact Hother. reflexivity.
Qed.

Lemma convert_row_positional_witness :
  exists row_data,
    convert_row ["id"; "created"]
      [VInt 1; VDatetime {| dt_year := 2024; dt_month := 3; dt_day := 9;
                            dt_hour := 7; dt_minute := 5; dt_second := 0;
                            dt_microsecond := 0 |}] = Ok row_data /\
    row_data !! 1%nat = Some (VStr "2024-03-09 07:05:00").
Proof.
  destruct (convert_row_positional ["id"; "created"]
              [VInt 1; VDatetime {| dt_year := 2024; dt_month := 3; dt_day := 9;
                                    dt_hour := 7; dt_minute := 5; dt_second := 0;
                                    dt_microsecond := 0 |}])
    as (row_data & Hrun & _ & Hat); [simpl; lia|].
  exists row_data. split; [exact Hrun|].
  destruct (Hat 1%nat _ ltac:(simpl; lia) eq_refl) as (_ & Hdt & _).
  exact (Hdt _ eq_refl).
Defined.

(** C9, as stated, fails: a date-only value is a temporal value and is
    held in the batch as a date, not as a string. *)
Lemma date_value_not_normalized :
  ~ (forall (column_names : list string) (r row_data : row) (i : nat) (v : value),
        convert_row column_names r = Ok row_data ->
        (i < length column_names)%nat ->
        r !! i = Some v ->
        is_temporal v = true ->
        exists s, row_data !! i = Some (VStr s)).
Proof.
  intros H.
  destruct (H ["day"] [VDate 2024 3 9] [VDate 2024 3 9] 0%nat (VDate 2024 3 9))
    as [s Hs]; try reflexivity; [simpl; lia|].
  discriminate Hs.
Qed.

(** ** The collaborators, one round trip at a time *)

Lemma round_trip_ok (env : Env) (w : World) :
  faults env (calls w) = None -> round_trip env w = (Ok tt, tick_call w).
Proof. intros H. unfold round_trip. rewrite H. reflexivity. Qed.

Lemma round_trip_world (env : Env) (w : World) :
  snd (round_trip env w) = tick_call w.
Proof. unfold round_trip. destruct (faults env (calls w)); reflexivity. Qed.

Lemma mysql_count_ok (env : Env) (t : string) (tb : MySQLTable) (w : World) :
  mysql_db env !! t = Some tb -> faults env (calls w) = None ->
  mysql_count env t w = (Ok (len (table_rows tb)), tick_call w).
Proof.
  intros Ht Hf. unfold mysql_count, source_table. unfold_st.
  rewrite (round_trip_ok env w Hf), Ht. reflexivity.
Qed.

Lemma ch_count_ok (env : Env) (t : string) (target : list row) (w : World) :
  ch_db w !! t = Some target -> faults env (calls w) = None ->
  ch_count env t w = (Ok (len target), tick_call w).
Proof.
  intros Ht Hf. unfold ch_count. unfold_st.
  rewrite (round_trip_ok env w Hf). simpl. rewrite Ht. reflexivity.
Qed.

Lemma ch_insert_ok (env : Env) (t : string) (data : list row)
    (column_names : list string) (old : list row) (w : World) :
  ch_db w !! t = Some old -> faults env (calls w) = None ->
  ch_insert env t data column_names w
  = (Ok tt, after_insert t data column_names old w).
Proof.
  intros Ht Hf. unfold ch_insert. unfold_st.
  rewrite round_trip_ok by exact Hf. simpl. rewrite Ht. reflexivity.
Qed.

(** ** VerificationChecker *)

(** C6: with the two count queries answered, [verify_migration] returns
    whether the source count equals the target count, which is [true]
    exactly when the counts are equal; it does not raise; it logs the
    two counts and then either the success line or the absolute
    difference; it leaves the target as it was and issues no write. *)
Theorem verify_migration_counts (env : Env) (mysql_table ch_table : string)
    (w : World) (tb : MySQLTable) (target : list row) :
  mysql_db env !! mysql_table = Some tb ->
  ch_db w !! ch_table = Some target ->
  faults env (calls w) = None ->
  faults env (S (calls w)) = None ->
  let mysql_cnt := len (table_rows tb) in
  let ch_cnt := len target in
  exists w',
    verify_migration env mysql_table ch_table w = (Ok (mysql_cnt =? ch_cnt), w') /\
    ((mysql_cnt =? ch_cnt) = true <-> mysql_cnt = ch_cnt) /\
    ch_db w' = ch_db w /\
    writes w' = writes w /\
    logs w' = logs w ++ [LogVerify mysql_cnt ch_cnt;
                         if mysql_cnt =? ch_cnt then LogVerifyPassed
                         else LogVerifyFailed (Z.abs (mysql_cnt - ch_cnt))].
Proof.
  intros Hsrc Htgt Hf0 Hf1 mysql_cnt ch_cnt.
  unfold verify_migration, bind at 1.
  rewrite (mysql_count_ok env mysql_table tb w Hsrc Hf0).
  unfold bind at 1.
  rewrite (ch_count_ok env ch_table target (tick_call w) Htgt Hf1).
  fold mysql_cnt ch_cnt. unfold_st.
  assert (Hiff : (mysql_cnt =? ch_cnt) = true <-> mysql_cnt = ch_cnt)
    by apply Z.eqb_eq.
  destruct (mysql_cnt =? ch_cnt); simpl;
    (eexists; split; [reflexivity|]; split; [exact Hiff|]);
    simpl; rewrite <- app_assoc; auto.
Qed.

(** ** StreamingTransferEngine: the empty table *)

Lemma mysql_first_row_ok (env : Env) (t : string) (tb : MySQLTable) (w : World) :
  mysql_db env !! t = Some tb -> faults env (calls w) = None ->
  mysql_first_row env t w
  = (Ok (match table_rows tb with
         | [] => None
         | r :: _ => Some (zip (Field <$> table_columns tb) r)
         end), tick_call w).
Proof.
  intros Ht Hf. unfold mysql_first_row, source_table. unfold_st.
  rewrite (round_trip_ok env w Hf), Ht. reflexivity.
Qed.

Lemma sscursor_execute_ok (env : Env) (t : string) (tb : MySQLTable) (w : World) :
  mysql_db env !! t = Some tb -> faults env (calls w) = None ->
  sscursor_execute env t w = (Ok (table_rows tb), tick_call w).
Proof.
  intros Ht Hf. unfold sscursor_execute, source_table. unfold_st.
  rewrite (round_trip_ok env w Hf), Ht. reflexivity.
Qed.

(** With [skip_empty_tables] left on, an empty table is skipped: the
    result is [(0, 0)] and nothing is written. *)
Lemma migrate_data_empty_table_skipped (cfg : Config) (env : Env)
    (mysql_table ch_table : string) (batch_size : Z) (w : World) (tb : MySQLTable) :
  mysql_db env !! mysql_table = Some tb ->
  table_rows tb = [] ->
  default true (skip_empty_tables cfg) = true ->
  faults env (calls w) = None ->
  exists w',
    migrate_data cfg env mysql_table ch_table batch_size w = (Ok (0, 0%Q), w') /\
    writes w' = writes w /\ ch_db w' = ch_db w.
Proof.
  intros Ht Hrows Hskip Hf. unfold migrate_data, bind at 1.
  rewrite (mysql_count_ok env mysql_table tb w Ht Hf), Hrows, Hskip. simpl.
  unfold_st. eexists. split; [reflexivity|]. split; reflexivity.
Qed.

(** C2 on the code: with [skip_empty_tables] off, [migrate_data] on an
    empty table raises instead of returning [(0, 0)]; with the round
    trips answered and a batch size other than 0 the exception is the
    [AttributeError] of [first_row.keys()] on [None]. No write is issued. *)
Theorem migrate_data_empty_table_not_skipped (cfg : Config) (env : Env)
    (mysql_table ch_table : string) (batch_size : Z) (w : World) (tb : MySQLTable) :
  mysql_db env !! mysql_table = Some tb ->
  table_rows tb = [] ->
  skip_empty_tables cfg = Some false ->
  exists e w',
    migrate_data cfg env mysql_table ch_table batch_size w = (Raise e, w') /\
    writes w' = writes w /\
    ch_db w' = ch_db w /\
    (faults env (calls w) = None -> faults env (S (calls w)) = None ->
     batch_size <> 0 ->
     e = AttributeError "'NoneType' object has no attribute 'keys'").
Proof.
  intros Ht Hrows Hskip. unfold migrate_data, bind at 1.
  destruct (faults env (calls w)) as [msg|] eqn:Hf0.
  { unfold mysql_count, bind at 1, round_trip. rewrite Hf0.
    do 2 eexists. split; [reflexivity|]. repeat split; congruence. }
  rewrite (mysql_count_ok env mysql_table tb w Ht Hf0), Hrows, Hskip. simpl.
  unfold floordiv, bind at 1.
  destruct (Z.eqb_spec batch_size 0) as [->|Hbs].
  { unfold raise. do 2 eexists. split; [reflexivity|]. repeat split; congruence. }
  unfold ret at 1, bind at 1.
  destruct (faults env (calls (tick_call w))) as [msg|] eqn:Hf1.
  { unfold mysql_first_row, bind at 1, round_trip. rewrite Hf1.
    do 2 eexists. split; [reflexivity|]. repeat split; simpl in *; congruence. }
  rewrite (mysql_first_row_ok env mysql_table tb _ Ht Hf1), Hrows.
  unfold dict_keys, bind, raise.
  do 2 eexists. split; [reflexivity|]. repeat split.
Qed.

Lemma migrate_data_empty_table_witness :
  exists w',
    migrate_data (Sample.cfg [] None (Some false) None) (Sample.env 0)
      "orders" "orders_ch" 10000 (Sample.world ∅)
    = (Raise (AttributeError "'NoneType' object has no attribute 'keys'"), w') /\
    writes w' = [].
Proof.
  destruct (migrate_data_empty_table_not_skipped
              (Sample.cfg [] None (Some false) None) (Sample.env 0)
              "orders" "orders_ch" 10000 (Sample.world ∅) (Sample.orders 0))
    as (e & w' & Hrun & Hw & _ & He); [reflexivity..|].
  exists w'. rewrite Hrun, (He eq_refl eq_refl ltac:(lia)). split; [reflexivity|exact Hw].
Defined.

(** ** StreamingTransferEngine: batching *)

Lemma len_app {A} (l k : list A) : len (l ++ k) = len l + len k.
Proof. unfold len. rewrite length_app. lia. Qed.

Lemma len_cons {A} (x : A) (l : list A) : len (x :: l) = 1 + len l.
Proof. unfold len. simpl. lia. Qed.

Lemma len_nonneg {A} (l : list A) : 0 <= len l.
Proof. unfold len. lia. Qed.

Lemma len_snoc {A} (l : list A) (x : A) : len (l ++ [x]) = len l + 1.
Proof. unfold len. rewrite length_app. simpl. lia. Qed.

Lemma geb_true (a b : Z) : b <= a -> (a >=? b) = true.
Proof. intros H. rewrite Z.geb_leb. apply Z.leb_le, H. Qed.

Lemma geb_false (a b : Z) : a < b -> (a >=? b) = false.
Proof. intros H. rewrite Z.geb_leb. apply Z.leb_gt, H. Qed.

Lemma concat_batches (n : Z) (converted : list row) :
  forall acc, concat (batches n acc converted) = acc ++ converted.
Proof.
  induction converted as [|r rest IH]; intros acc; simpl.
  - destruct acc; simpl; rewrite ?app_nil_r; reflexivity.
  - destruct (len (acc ++ [r]) >=? n); simpl; rewrite IH, <- ?app_assoc; reflexivity.
Qed.

(** Fewer rows than a batch: one write, or none when there is no row. *)
Lemma batches_short (n : Z) (converted : list row) :
  forall acc,
    len acc + len converted < n ->
    batches n acc converted = match acc ++ converted with
                              | [] => []
                              | _ => [acc ++ converted]
                              end.
Proof.
  induction converted as [|r rest IH]; intros acc Hlt; simpl.
  - rewrite app_nil_r. destruct acc; reflexivity.
  - rewrite len_cons in Hlt.
    pose proof (len_nonneg rest).
    rewrite geb_false, IH by (rewrite len_snoc; lia).
    rewrite <- app_assoc. simpl. destruct acc; reflexivity.
Qed.

(** At least a batch of rows: the first write holds what was waiting and
    the [k] rows that fill the batch. *)
Lemma batches_full (n : Z) (k : nat) :
  forall acc converted,
    (1 <= k)%nat ->
    len acc + Z.of_nat k = n ->
    (k <= length converted)%nat ->
    batches n acc converted
    = (acc ++ take k converted) :: batches n [] (drop k converted).
Proof.
  induction k as [|k IH]; intros acc converted Hk Hn Hlen; [lia|].
  destruct converted as [|r rest]; simpl in Hlen; [lia|]. simpl.
  destruct k as [|k].
  - rewrite geb_true by (rewrite len_snoc; lia).
    simpl. rewrite take_0, drop_0. reflexivity.
  - rewrite geb_false by (rewrite len_snoc; lia).
    rewrite (IH (acc ++ [r]) rest) by (rewrite ?len_snoc; lia).
    rewrite <- app_assoc. reflexivity.
Qed.

(** Two full batches and a partial one. *)
Lemma batches_two_and_a_rest (n : Z) (k : nat) (converted : list row) :
  Z.of_nat k = n -> 0 < n ->
  2 * n < len converted < 3 * n ->
  batches n [] converted
  = [take k converted; take k (drop k converted); drop (k + k) converted].
Proof.
  intros Hk Hpos Hlen. unfold len in Hlen.
  rewrite (batches_full n k [] converted) by (unfold len; simpl; lia).
  rewrite (batches_full n k [] (drop k converted))
    by (unfold len; rewrite ?length_drop; simpl; lia).
  rewrite drop_drop.
  rewrite batches_short by (unfold len; rewrite length_drop; simpl; lia).
  simpl. destruct (drop (k + k) converted) eqn:Hd; [|reflexivity].
  apply (f_equal length) in Hd. rewrite length_drop in Hd. simpl in Hd. lia.
Qed.

Lemma flush_last_spec (env : Env) (ch_table : string) (column_names : list string)
    (ls : LoopState) (w : World) (old : list row) :
  no_faults env ->
  ch_db w !! ch_table = Some old ->
  exists w',
    flush_last env ch_table column_names ls w
    = (Ok (migrated_rows ls + len (batch_data ls)), w') /\
    writes w' = writes w
                ++ (bulk_write ch_table column_names <$> batches 0 (batch_data ls) []) /\
    ch_db w' !! ch_table = Some (old ++ batch_data ls).
Proof.
  intros Hnf Hold. unfold flush_last.
  destruct (batch_data ls) as [|r b] eqn:Hb.
  - unfold ret. eexists. split; [f_equal; f_equal; unfold len; simpl; lia|].
    simpl. rewrite !app_nil_r. auto.
  - unfold bind at 1.
    rewrite (ch_insert_ok env ch_table (r :: b) column_names old w Hold (Hnf _)).
    unfold_st. unfold time_time. eexists. split; [reflexivity|].
    simpl. split; [reflexivity|]. apply lookup_insert_eq.
Qed.

(** The loop, when no round trip fails, every row has a value for every
    column and the target table exists: all the rows are counted, the
    writes are the batches of the converted rows, and the target
    receives them in order. *)
Lemma stream_loop_spec (env : Env) (ch_table : string) (column_names : list string)
    (batch_size : Z) :
  no_faults env ->
  forall pending ls w old,
    Forall (fun r => r <> [] /\ (length column_names <= length r)%nat) pending ->
    ch_db w !! ch_table = Some old ->
    exists w',
      stream_loop env ch_table column_names batch_size pending ls w
      = (Ok (migrated_rows ls + len (batch_data ls) + len pending), w') /\
      writes w' = writes w
                  ++ (bulk_write ch_table column_names
                        <$> batches batch_size (batch_data ls)
                              (converted_row column_names <$> pending)) /\
      ch_db w' !! ch_table
      = Some (old ++ batch_data ls ++ (converted_row column_names <$> pending)).
Proof.
  intros Hnf. induction pending as [|r rest IH]; intros ls w old Hrows Hold.
  - simpl. unfold sscursor_fetchone, bind at 1, bind at 1.
    rewrite (round_trip_ok env w (Hnf _)). unfold ret at 1.
    destruct (flush_last_spec env ch_table column_names ls (tick_call w) old Hnf Hold)
      as (w' & Hrun & Hw & Hdb).
    exists w'. rewrite Hrun. split; [f_equal; f_equal; unfold len; simpl; lia|].
    rewrite app_nil_r. split; [|exact Hdb].
    rewrite Hw. simpl. destruct (batch_data ls); reflexivity.
  - apply Forall_cons in Hrows as [[Hne Hwide] Hrest].
    cbn [stream_loop]. unfold sscursor_fetchone, bind at 1, bind at 1.
    rewrite (round_trip_ok env w (Hnf _)). unfold ret at 1.
    destruct r as [|v r']; [congruence|].
    unfold bind at 1, of_result.
    rewrite (convert_row_spec column_names (v :: r') Hwide).
    fold (converted_row column_names (v :: r')).
    set (row_data := converted_row column_names (v :: r')).
    cbn [fmap list_fmap batches]. fold row_data.
    change (list_fmap row row (converted_row column_names) rest)
      with (converted_row column_names <$> rest).
    destruct (len (batch_data ls ++ [row_data]) >=? batch_size).
    + unfold bind at 1.
      rewrite (ch_insert_ok env ch_table _ column_names old (tick_call w) Hold (Hnf _)).
      unfold bind at 1, time_time.
      edestruct (IH {| migrated_rows := migrated_rows ls + len (batch_data ls ++ [row_data]);
                       batch_data := [];
                       batch_count := batch_count ls + 1 |}
                    (tick_clock (after_insert ch_table (batch_data ls ++ [row_data])
                                   column_names old (tick_call w)))
                    (old ++ batch_data ls ++ [row_data]) Hrest)
        as (w' & Hrun & Hw & Hdb); [apply lookup_insert_eq|].
      exists w'. rewrite Hrun. cbn [migrated_rows batch_data] in *.
      split; [f_equal; f_equal; rewrite len_snoc, len_cons; unfold len; simpl; lia|].
      split.
      * rewrite Hw. simpl. rewrite <- app_assoc. reflexivity.
      * rewrite Hdb. simpl. rewrite <- !app_assoc. reflexivity.
    + edestruct (IH {| migrated_rows := migrated_rows ls;
                       batch_data := batch_data ls ++ [row_data];
                       batch_count := batch_count ls |}
                    (tick_call w) old Hrest Hold)
        as (w' & Hrun & Hw & Hdb).
      exists w'. rewrite Hrun. cbn [migrated_rows batch_data] in *.
      split; [f_equal; f_equal; rewrite len_snoc, len_cons; unfold len; simpl; lia|].
      split; [exact Hw|]. rewrite Hdb, <- !app_assoc. reflexivity.
Qed.

Lemma well_formed_table_rows (tb : MySQLTable) :
  well_formed_table tb = true ->
  table_columns tb <> [] /\
  Forall (fun r => length r = length (table_columns tb)) (table_rows tb).
Proof.
  unfold well_formed_table. intros H. apply andb_true_iff in H as [Hc Hr].
  split.
  - apply negb_true_iff, bool_decide_eq_false in Hc. exact Hc.
  - apply Forall_forall. intros r Hin.
    rewrite forallb_forall in Hr. apply Nat.eqb_eq, Hr.
    apply list_elem_of_In, Hin.
Qed.

Lemma converted_row_full (column_names : list string) (r : row) :
  length r = length column_names ->
  converted_row column_names r = normalize_value <$> r.
Proof. intros H. unfold converted_row. rewrite take_ge by lia. reflexivity. Qed.

(** A transfer of a table that holds rows, when no round trip fails and
    the target table exists: every row is counted, and the writes are
    the batches of the rows, converted, in the order of the stream. *)
Lemma migrate_data_spec (cfg : Config) (env : Env) (mysql_table ch_table : string)
    (batch_size : Z) (w : World) (tb : MySQLTable) (old : list row) :
  no_faults env ->
  mysql_db env !! mysql_table = Some tb ->
  well_formed_table tb = true ->
  table_rows tb <> [] ->
  batch_size <> 0 ->
  ch_db w !! ch_table = Some old ->
  let converted := converted_rows (table_rows tb) in
  exists speed w',
    migrate_data cfg env mysql_table ch_table batch_size w
    = (Ok (len (table_rows tb), speed), w') /\
    writes w' = writes w
                ++ (bulk_write ch_table (Field <$> table_columns tb)
                      <$> batches batch_size [] converted) /\
    ch_db w' !! ch_table = Some (old ++ converted).
Proof.
  intros Hnf Ht Hwf Hne Hbs Hold converted.
  destruct (well_formed_table_rows tb Hwf) as [Hcols Hrows].
  unfold migrate_data, bind at 1.
  rewrite (mysql_count_ok env mysql_table tb w Ht (Hnf _)).
  assert (Hcount : (len (table_rows tb) =? 0) = false).
  { apply Z.eqb_neq. unfold len. destruct (table_rows tb); simpl; [congruence|lia]. }
  rewrite Hcount. cbn [andb].
  unfold floordiv. apply Z.eqb_neq in Hbs. rewrite Hbs.
  unfold ret at 1, bind at 1, bind at 1.
  rewrite (mysql_first_row_ok env mysql_table tb _ Ht (Hnf _)).
  destruct (table_rows tb) as [|r0 rest] eqn:Hrs; [congruence|].
  pose proof (Forall_inv Hrows) as Hr0. cbn beta in Hr0.
  unfold dict_keys, ret at 1, bind at 1.
  rewrite fst_zip by (rewrite length_fmap; lia).
  unfold bind at 1.
  rewrite (sscursor_execute_ok env mysql_table tb _ Ht (Hnf _)), Hrs.
  unfold bind at 1, time_time at 1. unfold bind at 1.
  set (column_names := Field <$> table_columns tb).
  assert (Hnames : length column_names = length (table_columns tb))
    by (unfold column_names; apply length_fmap).
  destruct (stream_loop_spec env ch_table column_names batch_size Hnf (r0 :: rest)
              {| migrated_rows := 0; batch_data := []; batch_count := 0 |}
              (tick_clock (tick_call (tick_call (tick_call w)))) old)
    as (w1 & Hrun & Hw & Hdb).
  { eapply Forall_impl; [exact Hrows|]. intros r Hr. cbn beta in *.
    rewrite Hnames. split; [|lia].
    intros ->. simpl in Hr. destruct (table_columns tb); [congruence|discriminate]. }
  { exact Hold. }
  rewrite Hrun. unfold bind at 1, time_time, ret.
  assert (Hconv : converted_row column_names <$> r0 :: rest = converted).
  { unfold converted, converted_rows. apply Forall_fmap_ext_1.
    eapply Forall_impl; [exact Hrows|]. intros r Hr. cbn beta in *.
    apply converted_row_full. lia. }
  rewrite Hconv in Hw, Hdb. cbn [migrated_rows batch_data] in *.
  do 2 eexists. split; [|split].
  - replace (0 + len [] + len (r0 :: rest)) with (len (r0 :: rest))
      by (unfold len; simpl; lia).
    reflexivity.
  - simpl. exact Hw.
  - simpl. exact Hdb.
Qed.

(** C4: a table of exactly 25000 rows, transferred with a batch size of
    10000 (no round trip failing, the target table in place), is written
    in exactly three bulk writes, of 10000, 10000 and 5000 rows, which
    together are the rows of the table in order, and the transfer
    returns 25000 as the number of rows. *)
Theorem migrate_data_25000_rows (cfg : Config) (env : Env)
    (mysql_table ch_table : string) (w : World) (tb : MySQLTable) (old : list row) :
  no_faults env ->
  mysql_db env !! mysql_table = Some tb ->
  well_formed_table tb = true ->
  len (table_rows tb) = 25000 ->
  ch_db w !! ch_table = Some old ->
  exists speed w' b1 b2 b3,
    migrate_data cfg env mysql_table ch_table 10000 w = (Ok (25000, speed), w') /\
    writes w' = writes w
                ++ (bulk_write ch_table (Field <$> table_columns tb) <$> [b1; b2; b3]) /\
    len b1 = 10000 /\ len b2 = 10000 /\ len b3 = 5000 /\
    b1 ++ b2 ++ b3 = converted_rows (table_rows tb).
Proof.
  intros Hnf Ht Hwf Hlen Hold.
  assert (Hne : table_rows tb <> []).
  { intros Hnil. rewrite Hnil in Hlen. discriminate Hlen. }
  destruct (migrate_data_spec cfg env mysql_table ch_table 10000 w tb old
              Hnf Ht Hwf Hne ltac:(lia) Hold)
    as (speed & w' & Hrun & Hw & _).
  set (converted := converted_rows (table_rows tb)) in *.
  assert (Hconv : len converted = 25000)
    by (unfold len, converted, converted_rows in *; rewrite length_fmap; exact Hlen).
  remember (Z.to_nat 10000) as k eqn:Hk.
  assert (Hkz : Z.of_nat k = 10000) by (subst k; apply Z2Nat.id; lia).
  rewrite (batches_two_and_a_rest 10000 k converted Hkz) in Hw by lia.
  exists speed, w', (take k converted), (take k (drop k converted)),
    (drop (k + k) converted).
  rewrite Hrun, Hlen. split; [reflexivity|]. split; [exact Hw|].
  unfold len in *. rewrite !length_take, !length_drop.
  repeat split; try lia.
  rewrite <- drop_drop, take_drop. apply take_drop.
Qed.

Lemma migrate_data_25000_rows_witness :
  exists speed w' b1 b2 b3,
    migrate_data (Sample.cfg [] None None None) (Sample.env (Z.to_nat 25000))
      "orders" "orders_ch" 10000 (Sample.world {[ "orders_ch" := [] ]})
    = (Ok (25000, speed), w') /\
    writes w' = bulk_write "orders_ch" ["id"] <$> [b1; b2; b3] /\
    len b1 = 10000 /\ len b2 = 10000 /\ len b3 = 5000.
Proof.
  destruct (migrate_data_25000_rows (Sample.cfg [] None None None)
              (Sample.env (Z.to_nat 25000)) "orders" "orders_ch"
              (Sample.world {[ "orders_ch" := [] ]})
              (Sample.orders (Z.to_nat 25000)) [])
    as (speed & w' & b1 & b2 & b3 & Hrun & Hw & H1 & H2 & H3 & _).
  - intros n. reflexivity.
  - reflexivity.
  - vm_compute. reflexivity.
  - vm_compute. reflexivity.
  - reflexivity.
  - exists speed, w', b1, b2, b3. auto.
Defined.

Lemma verify_migration_counts_witness :
  exists w',
    verify_migration (Sample.env 100) "orders" "orders_ch"
      (Sample.world {[ "orders_ch" := replicate 97 [VInt 7] ]})
    = (Ok false, w') /\
    logs w' = [LogVerify 100 97; LogVerifyFailed 3] /\
    writes w' = [].
Proof.
  destruct (verify_migration_counts (Sample.env 100) "orders" "orders_ch"
              (Sample.world {[ "orders_ch" := replicate 97 [VInt 7] ]})
              (Sample.orders 100) (replicate 97 [VInt 7]))
    as (w' & Hrun & _ & _ & Hw & Hlog); [reflexivity..|].
  exists w'. split; [exact Hrun|]. split; [exact Hlog|exact Hw].
Defined.

(** ** MigrationOrchestrator: one table *)

Lemma time_time_eq (env : Env) (w : World) :
  time_time env w = (Ok (now env (ticks w)), tick_clock w).
Proof. reflexivity. Qed.

(** [migrate_table] once steps 1 to 4 have returned. *)
Lemma migrate_table_transferred (cfg : Config) (env : Env)
    (mysql_table ch_table : string) (batch_size : option Z) (verify : option bool)
    (w : World) (rows : Z) (speed : Q) (w1 : World) :
  transfer_steps cfg env mysql_table ch_table (resolved_batch_size cfg batch_size)
    (tick_clock w) = (Ok (rows, speed), w1) ->
  migrate_table cfg env mysql_table ch_table batch_size verify w
  = with_local (set_rows_speed rows speed (new_table_result mysql_table ch_table))
      (try_catch
         ((if resolved_verify cfg verify then
             verified_success <- outer (verify_migration env mysql_table ch_table) ;;
             local_modify (set_verified verified_success)
           else ret tt) ;;
          end_time <- outer (time_time env) ;;
          local_modify (set_success (end_time - now env (ticks w))%Q) ;;
          local_get)
         (migrate_table_except cfg env (now env (ticks w))))
      w1.
Proof.
  intros Hsteps. unfold migrate_table.
  fold (resolved_batch_size cfg batch_size). fold (resolved_verify cfg verify).
  unfold bind at 1. rewrite time_time_eq.
  unfold with_local, try_catch, migrate_table_try.
  unfold bind at 1, outer at 1, zoom at 1. cbn [fst snd].
  rewrite Hsteps. unfold bind at 1, local_modify at 1, modify at 1.
  cbn [fst snd]. reflexivity.
Qed.

(** C7: when the transfer of a table has completed and the verification
    that follows returns false, [migrate_table] returns a result whose
    status is success and whose [verified] is false, with no error and
    with the rows and speed of the transfer. *)
Theorem verification_mismatch_is_success (cfg : Config) (env : Env)
    (mysql_table ch_table : string) (batch_size : option Z) (verify : option bool)
    (w : World) (rows : Z) (speed : Q) (w1 w2 : World) :
  resolved_verify cfg verify = true ->
  transfer_steps cfg env mysql_table ch_table (resolved_batch_size cfg batch_size)
    (tick_clock w) = (Ok (rows, speed), w1) ->
  verify_migration env mysql_table ch_table w1 = (Ok false, w2) ->
  exists r,
    migrate_table cfg env mysql_table ch_table batch_size verify w
    = (Ok r, tick_clock w2) /\
    r_status r = success /\ r_verified r = false /\ r_error r = None /\
    r_rows r = rows /\ r_speed r = speed.
Proof.
  intros Hv Hsteps Hverify.
  rewrite (migrate_table_transferred _ _ _ _ _ _ _ _ _ _ Hsteps), Hv.
  unfold with_local, try_catch, bind, outer, zoom, local_modify, modify, local_get.
  cbn [fst snd]. rewrite Hverify. cbn [fst snd]. rewrite time_time_eq.
  eexists. split; [reflexivity|]. simpl. auto.
Qed.

Lemma verification_mismatch_witness :
  exists r w',
    migrate_table (Sample.cfg [] (Some false) None None) (Sample.env 3)
      "orders" "orders_ch" None None
      (Sample.world {[ "orders_ch" := [[VInt 1]] ]}) = (Ok r, w') /\
    r_status r = success /\ r_verified r = false /\ r_rows r = 3.
Proof.
  edestruct (verification_mismatch_is_success
               (Sample.cfg [] (Some false) None None) (Sample.env 3)
               "orders" "orders_ch" None None
               (Sample.world {[ "orders_ch" := [[VInt 1]] ]}))
    as (r & Hrun & Hs & Hv & _ & Hrows & _).
  - reflexivity.
  - vm_compute. reflexivity.
  - vm_compute. reflexivity.
  - exists r. eexists. split; [exact Hrun|]. auto.
Defined.

(** C10: when the transfer of a table has completed and the verification
    that follows raises, then, whatever the continue-on-error policy, the
    dictionary [table_result] of [migrate_table] leaves the [except]
    block with status failed, the text of the exception as its error,
    the time since the start as its elapsed time, and the rows and speed
    of the completed transfer, not reset to zero. Under
    continue-on-error this dictionary is what [migrate_table] returns;
    otherwise the exception is raised again in place of a result. *)
Theorem verification_raises_keeps_rows (cfg : Config) (env : Env)
    (mysql_table ch_table : string) (batch_size : option Z) (verify : option bool)
    (w : World) (rows : Z) (speed : Q) (w1 w2 : World) (e : exn) :
  resolved_verify cfg verify = true ->
  transfer_steps cfg env mysql_table ch_table (resolved_batch_size cfg batch_size)
    (tick_clock w) = (Ok (rows, speed), w1) ->
  verify_migration env mysql_table ch_table w1 = (Raise e, w2) ->
  exists table_result w',
    try_catch
      (migrate_table_try cfg env mysql_table ch_table
         (resolved_batch_size cfg batch_size) (resolved_verify cfg verify)
         (now env (ticks w)))
      (migrate_table_except cfg env (now env (ticks w)))
      (new_table_result mysql_table ch_table, tick_clock w)
    = (if default false (continue_on_error cfg) then Ok table_result else Raise e,
       (table_result, w')) /\
    migrate_table cfg env mysql_table ch_table batch_size verify w
    = (if default false (continue_on_error cfg) then Ok table_result else Raise e,
       w') /\
    r_status table_result = failed /\
    r_error table_result = Some (str_of_exn e) /\
    r_time_used table_result = (now env (ticks w2) - now env (ticks w))%Q /\
    r_rows table_result = rows /\
    r_speed table_result = speed /\
    r_verified table_result = false.
Proof.
  intros Hv Hsteps Hverify.
  rewrite (migrate_table_transferred _ _ _ _ _ _ _ _ _ _ Hsteps), Hv.
  unfold with_local, try_catch, migrate_table_try, migrate_table_except, bind,
    outer, zoom, local_modify, modify, local_get, log, raise.
  cbn [fst snd]. rewrite Hsteps. cbn [fst snd]. rewrite Hverify. cbn [fst snd].
  rewrite time_time_eq.
  destruct (default false (continue_on_error cfg)); cbn [negb fst snd];
    do 2 eexists; (split; [reflexivity|]); (split; [reflexivity|]);
    simpl; auto 10.
Qed.

Lemma verification_raises_witness :
  exists r w',
    migrate_table (Sample.cfg [] None None (Some true)) (Sample.env_failing 1 10)
      "orders" "orders_ch" None None (Sample.world ∅) = (Ok r, w') /\
    r_status r = failed /\ r_error r = Some "Lost connection" /\ r_rows r = 1.
Proof.
  edestruct (verification_raises_keeps_rows
               (Sample.cfg [] None None (Some true)) (Sample.env_failing 1 10)
               "orders" "orders_ch" None None (Sample.world ∅))
    as (r & w' & _ & Hrun & Hs & He & _ & Hrows & _).
  - reflexivity.
  - vm_compute. reflexivity.
  - vm_compute. reflexivity.
  - exists r, w'. split; [exact Hrun|]. split; [exact Hs|].
    split; [exact He|exact Hrows].
Defined.

(** ** MigrationOrchestrator: the run *)

(** One iteration of the loop on a valid entry, whatever [migrate_table]
    does: a returned result is counted and recorded without any
    notification; an exception counts a failure, notifies it and, unless
    continue-on-error is set, propagates. *)
Lemma table_iteration (cfg : Config) (env : Env) (mysql_table ch_table : string)
    (batch_size : option Z) (verify : option bool) (total idx : Z) (o : Orch) :
  try_catch (table_try cfg env mysql_table ch_table batch_size verify)
            (table_except cfg mysql_table total idx) o
  = match migrate_table cfg env mysql_table ch_table batch_size verify (world o) with
    | (Ok r, w1) =>
        (Ok tt,
         {| world := w1;
            migration_stats := record_result r (migration_stats o);
            stats_history :=
              stats_history o
              ++ [migration_stats o;
                  count_result r (migration_stats o);
                  add_total_rows (r_rows r) (count_result r (migration_stats o))];
            notifications := notifications o |})
    | (Raise e, w1) =>
        (if negb (default false (continue_on_error cfg)) then Raise e else Ok tt,
         {| world := add_log (LogFailedTable mysql_table (str_of_exn e)) w1;
            migration_stats := incr_failed_tables (migration_stats o);
            stats_history := stats_history o ++ [migration_stats o];
            notifications :=
              notifications o
              ++ [NotifyFailure mysql_table (str_of_exn e) total (idx - 1)] |})
    end.
Proof.
  unfold try_catch, table_try, table_except, bind at 1, in_world at 1, zoom.
  destruct (migrate_table cfg env mysql_table ch_table batch_size verify (world o))
    as [[r|e] w1].
  - unfold record_result, count_result, bind, update_stats, modify.
    destruct (r_status r); simpl; rewrite <- !app_assoc; reflexivity.
  - unfold bind, update_stats, notify, in_world, zoom, log, modify, raise, ret.
    simpl. destruct (negb (default false (continue_on_error cfg))); reflexivity.
Qed.

Lemma within_weaken (T lo hi lo' hi' : Z) (s : Stats) :
  within T lo hi s -> lo' <= lo -> hi <= hi' -> within T lo' hi' s.
Proof. unfold within. intros [Ht Hb] Hlo Hhi. split; [exact Ht|lia]. Qed.

Lemma table_iteration_stats (cfg : Config) (env : Env) (mysql_table ch_table : string)
    (batch_size : option Z) (verify : option bool) (total idx : Z)
    (o : Orch) (res : result unit) (o' : Orch) :
  try_catch (table_try cfg env mysql_table ch_table batch_size verify)
            (table_except cfg mysql_table total idx) o = (res, o') ->
  let T := total_tables (migration_stats o) in
  let A := attempted (migration_stats o) in
  exists hist,
    stats_history o' = stats_history o ++ hist /\
    Forall (within T A (A + 1)) (hist ++ [migration_stats o']) /\
    total_tables (migration_stats o') = T /\
    attempted (migration_stats o') = A + 1.
Proof.
  rewrite table_iteration.
  destruct (migrate_table cfg env mysql_table ch_table batch_size verify (world o))
    as [[r|e] w1]; intros [= <- <-] T A; eexists; (split; [reflexivity|]);
    cbn [migration_stats]; subst T A;
    unfold record_result, count_result, within, attempted;
    try destruct (r_status r); simpl;
    repeat (split || apply Forall_cons || apply Forall_nil);
    unfold append_table_details, add_total_rows, incr_success_tables,
      incr_failed_tables; simpl; lia.
Qed.

Lemma valid_entries_cons (tc : TableMapping) (tbls : list TableMapping) :
  valid_entries (tc :: tbls)
  = if invalid_entry tc then valid_entries tbls else tc :: valid_entries tbls.
Proof.
  unfold valid_entries. rewrite filter_cons.
  destruct (invalid_entry tc); case_decide; congruence.
Qed.

(** The loop over the tables: the counters move only upwards, by one per
    valid entry, and reach the number of valid entries when the loop is
    not left by an exception. *)
Lemma tables_loop_stats (cfg : Config) (env : Env) (total : Z)
    (tbls : list TableMapping) :
  forall (idx : Z) (o : Orch) (res : result unit) (o' : Orch),
    tables_loop cfg env total idx tbls o = (res, o') ->
    let T := total_tables (migration_stats o) in
    let A := attempted (migration_stats o) in
    let V := len (valid_entries tbls) in
    exists hist,
      stats_history o' = stats_history o ++ hist /\
      Forall (within T A (A + V)) (hist ++ [migration_stats o']) /\
      total_tables (migration_stats o') = T /\
      (res = Ok tt -> attempted (migration_stats o') = A + V).
Proof.
  induction tbls as [|tc rest IH]; intros idx o res o' Hrun T A V.
  - injection Hrun as <- <-. exists []. rewrite app_nil_r. subst T A V.
    unfold len. simpl. split; [reflexivity|]. split; [|split].
    + apply Forall_cons. split; [|constructor]. unfold within. lia.
    + reflexivity.
    + intros _. lia.
  - cbn [tables_loop] in Hrun. subst V. rewrite valid_entries_cons.
    destruct (invalid_entry tc).
    + unfold bind at 1, in_world, zoom, log, modify in Hrun. cbn in Hrun.
      apply IH in Hrun. exact Hrun.
    + unfold bind at 1 in Hrun.
      destruct (try_catch _ _ o) as [[[]|e] o1] eqn:Hstep;
        apply table_iteration_stats in Hstep as (h1 & Hh1 & Hall1 & HT1 & HA1);
        fold T A in Hall1, HT1, HA1.
      * apply IH in Hrun as (h2 & Hh2 & Hall2 & HT2 & HA2).
        rewrite HT1, HA1 in Hall2. rewrite HT1 in HT2. rewrite HA1 in HA2.
        pose proof (len_nonneg (valid_entries rest)) as Hv.
        exists (h1 ++ h2). rewrite Hh2, Hh1, <- !app_assoc.
        split; [reflexivity|]. split; [|split].
        -- apply Forall_app. split.
           ++ apply Forall_app in Hall1 as [Hall1 _].
              eapply Forall_impl; [exact Hall1|]. intros s Hs.
              apply (within_weaken _ _ _ _ _ _ Hs); rewrite ?len_cons; lia.
           ++ eapply Forall_impl; [exact Hall2|]. intros s Hs.
              apply (within_weaken _ _ _ _ _ _ Hs); rewrite ?len_cons; lia.
        -- exact HT2.
        -- intros Hok. rewrite (HA2 Hok), len_cons. lia.
      * injection Hrun as <- <-.
        pose proof (len_nonneg (valid_entries rest)) as Hv.
        exists h1. split; [exact Hh1|]. split; [|split].
        -- eapply Forall_impl; [exact Hall1|]. intros s Hs.
           apply (within_weaken _ _ _ _ _ _ Hs); rewrite ?len_cons; lia.
        -- exact HT1.
        -- discriminate.
Qed.

Lemma valid_entries_le (tbls : list TableMapping) :
  len (valid_entries tbls) <= len tbls.
Proof.
  unfold len, valid_entries. pose proof (length_filter
    (fun tc => invalid_entry tc = false) tbls). lia.
Qed.

Lemma valid_entries_all (tbls : list TableMapping) :
  Forall (fun tc => invalid_entry tc = false) tbls -> valid_entries tbls = tbls.
Proof.
  induction 1 as [|tc rest Hv _ IH]; [reflexivity|].
  rewrite valid_entries_cons, Hv, IH. reflexivity.
Qed.

Lemma within_bounded (T V : Z) (s : Stats) :
  V <= T -> within T 0 (0 + V) s -> attempted s <= total_tables s.
Proof. unfold within. intros HV [-> Hb]. lia. Qed.

(** C3, as the code has it: from a fresh orchestrator, every value the
    statistics take during a run satisfies
    [success_tables + failed_tables <= total_tables]; when the run ends
    without an exception, [total_tables] is the number of entries of the
    mapping list, and [success_tables + failed_tables] is the number of
    its valid entries, hence equal to [total_tables] when no entry is
    invalid. *)
Theorem run_statistics_invariant (cfg : Config) (env : Env) (w : World)
    (res : result unit) (o' : Orch) :
  migrate_all_tables cfg env (new_orch w) = (res, o') ->
  let tbls := default [] (tables cfg) in
  Forall (fun s => attempted s <= total_tables s)
         (stats_history o' ++ [migration_stats o']) /\
  (res = Ok tt ->
   total_tables (migration_stats o') = len tbls /\
   attempted (migration_stats o') = len (valid_entries tbls) /\
   (Forall (fun tc => invalid_entry tc = false) tbls ->
    attempted (migration_stats o') = total_tables (migration_stats o'))).
Proof.
  intros Hrun tbls. unfold migrate_all_tables in Hrun. subst tbls.
  destruct (default [] (tables cfg)) as [|tc rest].
  - unfold in_world, zoom, log, modify in Hrun. injection Hrun as <- <-.
    simpl. split.
    + apply Forall_cons. split; [|constructor]. unfold attempted. simpl. lia.
    + intros _. unfold attempted, len. simpl. auto.
  - cbv iota in Hrun. remember (tc :: rest) as tbls eqn:Htbls. clear Htbls tc rest.
    unfold bind at 1, update_stats at 1, modify at 1 in Hrun.
    unfold bind at 1, notify at 1, modify at 1 in Hrun.
    unfold bind at 1, in_world at 1, zoom at 1 in Hrun.
    cbn [world migration_stats stats_history notifications new_orch] in Hrun.
    rewrite time_time_eq in Hrun. unfold bind at 1 in Hrun.
    destruct (tables_loop cfg env (len tbls) 1 tbls _) as [res1 o1] eqn:Hloop.
    apply tables_loop_stats in Hloop as (hist & Hh & Hall & HT & HA).
    cbn [world migration_stats stats_history notifications] in Hh, Hall, HT, HA.
    change (total_tables (set_total_tables (len tbls) initial_stats))
      with (len tbls) in *.
    change (attempted (set_total_tables (len tbls) initial_stats)) with 0 in *.
    pose proof (valid_entries_le tbls) as Hle.
    assert (Hbound : Forall (fun s => attempted s <= total_tables s)
                       (stats_history o1 ++ [migration_stats o1])).
    { rewrite Hh, <- app_assoc. apply Forall_cons. split.
      - unfold attempted. simpl. lia.
      - eapply Forall_impl; [exact Hall|]. intros s Hs.
        apply (within_bounded _ _ _ Hle Hs). }
    destruct res1 as [[]|e].
    + specialize (HA eq_refl).
      unfold bind at 1, in_world at 1, zoom at 1 in Hrun.
      rewrite time_time_eq in Hrun.
      unfold bind at 1, update_stats at 1, modify at 1 in Hrun.
      unfold bind at 1, get_stats at 1 in Hrun.
      unfold bind at 1, update_stats at 1, modify at 1 in Hrun.
      unfold bind at 1, get_stats at 1 in Hrun.
      cbn [world migration_stats stats_history notifications] in Hrun.
      assert (Hend : migration_stats o'
                     = set_avg_speed
                         (run_speed (now env (ticks (world o1)) - now env (ticks w))
                            (total_rows (set_total_time
                               (now env (ticks (world o1)) - now env (ticks w))
                               (migration_stats o1))))
                         (set_total_time
                            (now env (ticks (world o1)) - now env (ticks w))
                            (migration_stats o1)) /\
                     stats_history o'
                     = (stats_history o1 ++ [migration_stats o1])
                       ++ [set_total_time
                             (now env (ticks (world o1)) - now env (ticks w))
                             (migration_stats o1)] /\
                     res = Ok tt).
      { destruct (failed_tables _ =? 0) in Hrun;
          unfold notify, in_world, zoom, log, modify in Hrun;
          injection Hrun as <- <-; simpl; auto. }
      destruct Hend as (Hs & Hhist & _). rewrite Hs, Hhist. split.
      * assert (Hlast : attempted (migration_stats o1)
                        <= total_tables (migration_stats o1)).
        { apply Forall_app in Hbound as [_ Hb].
          apply Forall_cons in Hb as [Hb _]. exact Hb. }
        apply Forall_app. split; [apply Forall_app; split; [exact Hbound|]|];
          (apply Forall_cons; split; [|constructor]);
          unfold attempted in *; simpl; exact Hlast.
      * intros _. unfold attempted in *. simpl. rewrite HT, HA.
        split; [reflexivity|]. split; [lia|].
        intros Hvalid. rewrite (valid_entries_all tbls Hvalid). lia.
    + injection Hrun as <- <-. split; [exact Hbound|discriminate].
Qed.

Lemma run_statistics_invariant_witness :
  let o' := snd (migrate_all_tables
                   (Sample.cfg [Sample.entry (Some "orders") (Some "orders_ch");
                                Sample.entry None (Some "lost")]
                               None None None)
                   (Sample.env 3) (new_orch (Sample.world ∅))) in
  Forall (fun s => attempted s <= total_tables s)
         (stats_history o' ++ [migration_stats o']) /\
  total_tables (migration_stats o') = 2 /\
  attempted (migration_stats o') = 1.
Proof.
  intros o'.
  destruct (run_statistics_invariant
              (Sample.cfg [Sample.entry (Some "orders") (Some "orders_ch");
                           Sample.entry None (Some "lost")]
                          None None None)
              (Sample.env 3) (Sample.world ∅) (Ok tt) o')
    as (Hinv & Hend).
  - vm_compute. reflexivity.
  - destruct (Hend eq_refl) as (Ht & Ha & _). split; [exact Hinv|]. split.
    + exact Ht.
    + exact Ha.
Defined.

(** C3, as stated, fails: a run over one invalid entry ends without an
    exception with [success_tables + failed_tables = 0] and
    [total_tables = 1]. *)
Lemma invalid_entry_breaks_equality :
  ~ (forall (cfg : Config) (env : Env) (w : World) (o' : Orch),
        migrate_all_tables cfg env (new_orch w) = (Ok tt, o') ->
        success_tables (migration_stats o') + failed_tables (migration_stats o')
        = total_tables (migration_stats o')).
Proof.
  intros H.
  specialize (H (Sample.cfg [Sample.entry None (Some "lost")] None None None)
                (Sample.env 3) (Sample.world ∅) _ eq_refl).
  vm_compute in H. discriminate H.
Qed.

(** [migrate_table] when the introspection of the table raises. *)
Lemma migrate_table_structure_raises (cfg : Config) (env : Env)
    (mysql_table ch_table : string) (batch_size : option Z) (verify : option bool)
    (w : World) (e : exn) (w1 : World) :
  get_mysql_table_structure env mysql_table (tick_clock w) = (Raise e, w1) ->
  migrate_table cfg env mysql_table ch_table batch_size verify w
  = (if negb (default false (continue_on_error cfg)) then Raise e
     else Ok (set_error (now env (ticks w1) - now env (ticks w))%Q (str_of_exn e)
                (new_table_result mysql_table ch_table)),
     add_log (LogTableFailed (str_of_exn e)) (tick_clock w1)).
Proof.
  intros Hraise. unfold migrate_table, bind at 1. rewrite time_time_eq.
  unfold with_local, try_catch, migrate_table_try, transfer_steps.
  unfold bind at 1, outer at 1, zoom at 1, bind at 1. cbn [fst snd].
  rewrite Hraise. unfold migrate_table_except, bind, outer, zoom, local_modify,
    modify, local_get, log, raise.
  cbn [fst snd]. rewrite time_time_eq.
  destruct (negb (default false (continue_on_error cfg))); reflexivity.
Qed.

(** Under continue-on-error, [migrate_table] never raises. *)
Lemma migrate_table_continue_returns (cfg : Config) (env : Env)
    (mysql_table ch_table : string) (batch_size : option Z) (verify : option bool)
    (w : World) :
  default false (continue_on_error cfg) = true ->
  exists r w', migrate_table cfg env mysql_table ch_table batch_size verify w
               = (Ok r, w').
Proof.
  intros Hc. unfold migrate_table, bind at 1. rewrite time_time_eq.
  unfold with_local, try_catch.
  destruct (migrate_table_try _ _ _ _ _ _ _ _) as [[r|e] [l w1]]; [eauto|].
  unfold migrate_table_except, bind, outer, zoom, local_modify, modify, local_get,
    log, raise.
  cbn [fst snd]. rewrite time_time_eq, Hc. cbn [negb]. eauto.
Qed.

(** Under continue-on-error, the loop over the tables runs to its end
    and calls the notifier for no table. *)
Lemma tables_loop_continue (cfg : Config) (env : Env) (total : Z)
    (tbls : list TableMapping) :
  default false (continue_on_error cfg) = true ->
  forall (idx : Z) (o : Orch),
  exists o',
    tables_loop cfg env total idx tbls o = (Ok tt, o') /\
    notifications o' = notifications o.
Proof.
  intros Hc. induction tbls as [|tc rest IH]; intros idx o.
  - eexists. split; reflexivity.
  - cbn [tables_loop]. destruct (invalid_entry tc).
    + unfold bind at 1, in_world, zoom, log, modify. cbn [fst snd world].
      edestruct IH as (o' & Hrun & Hn). exists o'. rewrite Hrun.
      split; [reflexivity|]. rewrite Hn. reflexivity.
    + unfold bind at 1. rewrite table_iteration.
      destruct (migrate_table_continue_returns cfg env
                  (default "" (tc_mysql_table tc)) (default "" (tc_ch_table tc))
                  (tc_batch_size tc) (tc_verify tc) (world o) Hc)
        as (r & w1 & ->).
      edestruct IH as (o' & Hrun & Hn). exists o'. rewrite Hrun.
      split; [reflexivity|]. rewrite Hn. reflexivity.
Qed.

(** C1 on the code: under continue-on-error a run calls the notifier at
    its start and at most once more, for the success of the whole run;
    it never sends a failure notification, whatever tables fail. *)
Theorem failure_not_notified_when_continuing (cfg : Config) (env : Env) (w : World) :
  default false (continue_on_error cfg) = true ->
  exists o',
    migrate_all_tables cfg env (new_orch w) = (Ok tt, o') /\
    Forall (fun n => is_failure_notification n = false) (notifications o').
Proof.
  intros Hc. unfold migrate_all_tables.
  destruct (default [] (tables cfg)) as [|tc rest].
  - eexists. split; [reflexivity|]. constructor.
  - remember (tc :: rest) as tbls eqn:Htbls. clear Htbls tc rest.
    unfold bind at 1, update_stats at 1, modify at 1.
    unfold bind at 1, notify at 1, modify at 1.
    unfold bind at 1, in_world at 1, zoom at 1.
    cbn [world migration_stats stats_history notifications new_orch].
    rewrite time_time_eq. unfold bind at 1.
    edestruct (tables_loop_continue cfg env (len tbls) tbls Hc 1) as (o1 & -> & Hn).
    cbn [notifications app] in Hn.
    unfold bind at 1, in_world at 1, zoom at 1. rewrite time_time_eq.
    unfold bind at 1, update_stats at 1, modify at 1.
    unfold bind at 1, get_stats at 1.
    unfold bind at 1, update_stats at 1, modify at 1.
    unfold bind at 1, get_stats at 1.
    cbn [world migration_stats stats_history notifications].
    destruct (failed_tables _ =? 0);
      unfold notify, in_world, zoom, log, modify;
      cbn [world migration_stats stats_history notifications];
      (eexists; split; [reflexivity|]);
      cbn [notifications]; rewrite Hn;
      repeat (apply Forall_cons; split; [reflexivity|]); constructor.
Qed.

Lemma failure_not_notified_witness :
  exists o',
    migrate_all_tables
      (Sample.cfg [Sample.entry (Some "missing") (Some "missing_ch")]
                  None None (Some true))
      (Sample.env 3) (new_orch (Sample.world ∅)) = (Ok tt, o') /\
    failed_tables (migration_stats o') = 1 /\
    Forall (fun n => is_failure_notification n = false) (notifications o').
Proof.
  destruct (failure_not_notified_when_continuing
              (Sample.cfg [Sample.entry (Some "missing") (Some "missing_ch")]
                          None None (Some true))
              (Sample.env 3) (Sample.world ∅) eq_refl)
    as (o' & Hrun & Hn).
  exists o'. split; [exact Hrun|]. split; [|exact Hn].
  vm_compute in Hrun. injection Hrun as <-. reflexivity.
Defined.

(** C5: a run over two valid mappings under continue-on-error, where
    [migrate_table] succeeds on the first table and the introspection of
    the second raises, ends without an exception with
    [total_tables = 2], [success_tables = 1], [failed_tables = 1]; the
    results recorded are the first table's and then the second's, whose
    status is failed, whose error is the text of the exception and whose
    rows are 0. *)
Theorem two_tables_second_introspection_fails (cfg : Config) (env : Env) (w : World)
    (m1 m2 : TableMapping) (r1 : TableResult) (w1 : World) (e : exn) (w2 : World) :
  tables cfg = Some [m1; m2] ->
  invalid_entry m1 = false ->
  invalid_entry m2 = false ->
  continue_on_error cfg = Some true ->
  migrate_table cfg env (default "" (tc_mysql_table m1)) (default "" (tc_ch_table m1))
    (tc_batch_size m1) (tc_verify m1) (tick_clock w) = (Ok r1, w1) ->
  r_status r1 = success ->
  get_mysql_table_structure env (default "" (tc_mysql_table m2)) (tick_clock w1)
  = (Raise e, w2) ->
  exists o' r2,
    migrate_all_tables cfg env (new_orch w) = (Ok tt, o') /\
    total_tables (migration_stats o') = 2 /\
    success_tables (migration_stats o') = 1 /\
    failed_tables (migration_stats o') = 1 /\
    table_details (migration_stats o') = [r1; r2] /\
    r_mysql_table r2 = default "" (tc_mysql_table m2) /\
    r_status r2 = failed /\
    r_error r2 = Some (str_of_exn e) /\
    r_rows r2 = 0.
Proof.
  intros Htables Hv1 Hv2 Hc Hfirst Hs1 Hsecond.
  assert (Hd : default [] (tables cfg) = [m1; m2]) by (rewrite Htables; reflexivity).
  unfold migrate_all_tables. rewrite Hd. cbv iota.
  unfold bind at 1, update_stats at 1, modify at 1.
  unfold bind at 1, notify at 1, modify at 1.
  unfold bind at 1, in_world at 1, zoom at 1.
  cbn [world migration_stats stats_history notifications new_orch].
  rewrite time_time_eq. unfold bind at 1.
  cbn [tables_loop]. rewrite Hv1, Hv2.
  unfold bind at 1. rewrite table_iteration. cbn [world]. rewrite Hfirst.
  unfold bind at 1. rewrite table_iteration. cbn [world].
  rewrite (migrate_table_structure_raises _ _ _ _ _ _ _ _ _ Hsecond), Hc.
  cbn [from_option id negb]. unfold ret at 1.
  unfold bind at 1, in_world at 1, zoom at 1. rewrite time_time_eq.
  unfold bind at 1, update_stats at 1, modify at 1.
  unfold bind at 1, get_stats at 1.
  unfold bind at 1, update_stats at 1, modify at 1.
  unfold bind at 1, get_stats at 1.
  cbn [world migration_stats stats_history notifications].
  unfold record_result, count_result. rewrite Hs1. cbn.
  unfold in_world, zoom, log, modify. cbn.
  do 2 eexists. split; [reflexivity|]. cbn. auto 10.
Qed.

Lemma two_tables_witness :
  exists o' r1 r2,
    migrate_all_tables
      (Sample.cfg [Sample.entry (Some "orders") (Some "orders_ch");
                   Sample.entry (Some "missing") (Some "missing_ch")]
                  None None (Some true))
      (Sample.env 3) (new_orch (Sample.world ∅)) = (Ok tt, o') /\
    total_tables (migration_stats o') = 2 /\
    success_tables (migration_stats o') = 1 /\
    failed_tables (migration_stats o') = 1 /\
    table_details (migration_stats o') = [r1; r2] /\
    r_status r2 = failed /\ r_rows r2 = 0.
Proof.
  edestruct (two_tables_second_introspection_fails
               (Sample.cfg [Sample.entry (Some "orders") (Some "orders_ch");
                            Sample.entry (Some "missing") (Some "missing_ch")]
                           None None (Some true))
               (Sample.env 3) (Sample.world ∅)
               (Sample.entry (Some "orders") (Some "orders_ch"))
               (Sample.entry (Some "missing") (Some "missing_ch")))
    as (o' & r2 & Hrun & Ht & Hs & Hf & Hd & _ & Hst & _ & Hrows).
  - reflexivity.
  - reflexivity.
  - reflexivity.
  - reflexivity.
  - vm_compute. reflexivity.
  - reflexivity.
  - vm_compute. reflexivity.
  - exists o'. eexists. exists r2.
    split; [exact Hrun|]. split; [exact Ht|]. split; [exact Hs|].
    split; [exact Hf|]. split; [exact Hd|]. split; [exact Hst|exact Hrows].
Defined.

(** * Further properties of the code *)

(** ** TypeMapper: qualifiers, wrapping and precision *)

Lemma append_nil_r (s : string) : s +:+ EmptyString = s.
Proof.
  induction s as [|c r IH]; [reflexivity|].
  change (String c r +:+ EmptyString) with (String c (r +:+ EmptyString)).
  rewrite IH. reflexivity.
Qed.

Lemma contains_char_cons (c a : ascii) (r : string) :
  PyStr.contains (String c EmptyString) (String a r)
  = Ascii.eqb a c || PyStr.contains (String c EmptyString) r.
Proof.
  simpl. destruct (ascii_dec c a) as [->|Hne].
  - rewrite Ascii.eqb_refl. destruct r; reflexivity.
  - destruct (Ascii.eqb_spec a c) as [->|_]; [congruence|reflexivity].
Qed.

Lemma contains_char_nil (c : ascii) :
  PyStr.contains (String c EmptyString) EmptyString = false.
Proof. reflexivity. Qed.

Lemma split_no_sep (sep : ascii) (s : string) :
  PyStr.contains (String sep EmptyString) s = false -> PyStr.split sep s = [s].
Proof.
  induction s as [|a r IH]; [reflexivity|].
  rewrite contains_char_cons. intros H. apply orb_false_iff in H as [Ha Hr].
  cbn [PyStr.split]. rewrite Ha, (IH Hr). reflexivity.
Qed.

Lemma split_app_no_sep (sep : ascii) (a b : string) :
  PyStr.contains (String sep EmptyString) a = false ->
  PyStr.split sep (a +:+ b)
  = (a +:+ hd EmptyString (PyStr.split sep b)) :: tl (PyStr.split sep b).
Proof.
  induction a as [|c r IH]; intros H.
  - destruct (split_cons sep b) as (h & t & Hs).
    change (EmptyString +:+ b) with b. rewrite Hs. reflexivity.
  - rewrite contains_char_cons in H. apply orb_false_iff in H as [Hc Hr].
    change (String c r +:+ b) with (String c (r +:+ b)).
    cbn [PyStr.split]. rewrite Hc, (IH Hr). reflexivity.
Qed.

Lemma split_sep_cons (sep : ascii) (s : string) :
  PyStr.split sep (String sep s) = EmptyString :: PyStr.split sep s.
Proof. cbn [PyStr.split]. rewrite Ascii.eqb_refl. reflexivity. Qed.

Lemma contains_char_app (c : ascii) (a b : string) :
  PyStr.contains (String c EmptyString) (a +:+ b)
  = PyStr.contains (String c EmptyString) a || PyStr.contains (String c EmptyString) b.
Proof.
  induction a as [|x r IH].
  - reflexivity.
  - change (String x r +:+ b) with (String x (r +:+ b)).
    rewrite !contains_char_cons, IH, orb_assoc. reflexivity.
Qed.

(** [lower] moves no character onto or away from a character that is
    not a letter. *)
Lemma contains_char_lower (c : ascii) (s : string) :
  (forall a, Ascii.eqb (PyStr.lower_ascii a) c = Ascii.eqb a c) ->
  PyStr.contains (String c EmptyString) (PyStr.lower s)
  = PyStr.contains (String c EmptyString) s.
Proof.
  intros Hc. induction s as [|a r IH]; [reflexivity|].
  cbn [PyStr.lower]. rewrite !contains_char_cons, Hc, IH. reflexivity.
Qed.

Lemma lower_ascii_paren (a : ascii) :
  Ascii.eqb (PyStr.lower_ascii a) "(" = Ascii.eqb a "(".
Proof. destruct a as [[] [] [] [] [] [] [] []]; reflexivity. Qed.

Lemma lower_ascii_space (a : ascii) :
  Ascii.eqb (PyStr.lower_ascii a) " " = Ascii.eqb a " ".
Proof. destruct a as [[] [] [] [] [] [] [] []]; reflexivity. Qed.

(** No key of [TYPE_MAPPING] holds a space. *)
Lemma mapped_has_no_space (b ty : string) :
  TYPE_MAPPING !! b = Some ty -> PyStr.contains " " b = false.
Proof.
  intros H. unfold TYPE_MAPPING in H.
  apply elem_of_list_to_map_2 in H.
  repeat (apply elem_of_cons in H as [[= -> ->]|H]; [reflexivity|]).
  apply elem_of_nil in H. destruct H.
Qed.

Lemma convert_total (mysql_type is_nullable : string) :
  exists ch_type, convert_mysql_type_to_clickhouse mysql_type is_nullable = Ok ch_type.
Proof.
  unfold convert_mysql_type_to_clickhouse.
  destruct (base_type_of_total mysql_type) as (b & ->).
  destruct (String.eqb b "decimal" && PyStr.contains "(" mysql_type) eqn:Hd; [|eauto].
  apply andb_true_iff in Hd as [_ Hp].
  destruct (precision_of_total mysql_type Hp) as (p & ->). eauto.
Qed.

(** X1: for a base keyword that [TYPE_MAPPING] sends to an [Int..] type,
    the result is that type, with a [U] in front exactly when the type
    string holds the word [unsigned] (in any case), and wrapped when the
    flag is ['YES']: the width is kept. *)
Theorem integer_type_unsigned_promotion
    (mysql_type is_nullable base_type ch_type : string) :
  base_type_of mysql_type = Ok base_type ->
  TYPE_MAPPING !! base_type = Some ch_type ->
  PyStr.startswith ch_type "Int" = true ->
  convert_mysql_type_to_clickhouse mysql_type is_nullable
  = Ok (nullable_wrap is_nullable
          (if PyStr.contains "unsigned" (PyStr.lower mysql_type)
           then "U" +:+ ch_type else ch_type)).
Proof.
  intros Hb Hm Hint. unfold convert_mysql_type_to_clickhouse, nullable_wrap.
  rewrite Hb, Hm. cbn [default from_option id]. rewrite Hint, andb_true_r.
  assert (Hdec : String.eqb base_type "decimal" = false).
  { destruct (String.eqb_spec base_type "decimal") as [->|]; [|reflexivity].
    vm_compute in Hm. injection Hm as <-. discriminate Hint. }
  rewrite Hdec. cbn [andb]. reflexivity.
Qed.

Lemma integer_type_unsigned_promotion_witness :
  convert_mysql_type_to_clickhouse "BIGINT(20) UNSIGNED" "YES"
  = Ok "Nullable(UInt64)".
Proof.
  apply (integer_type_unsigned_promotion "BIGINT(20) UNSIGNED" "YES" "bigint" "Int64");
    vm_compute; reflexivity.
Defined.

(** X2: the nullable flag decides the wrapping and nothing else: every
    type string has one target type, returned as it is for every flag
    other than the exact string ['YES'] and inside [Nullable(..)] for
    ['YES']. *)
Theorem nullable_flag_only_wraps (mysql_type : string) :
  exists ch_type,
    forall is_nullable,
      convert_mysql_type_to_clickhouse mysql_type is_nullable
      = Ok (nullable_wrap is_nullable ch_type).
Proof.
  destruct (convert_total mysql_type "NO") as (ty & Hty). exists ty.
  intros n. revert Hty. unfold convert_mysql_type_to_clickhouse, nullable_wrap.
  destruct (base_type_of mysql_type) as [b|e]; [|discriminate].
  match goal with
  | |- context [match ?x with Ok _ => _ | Raise _ => _ end] => destruct x as [t|e]
  end; [|discriminate].
  cbn. intros [= ->]. reflexivity.
Qed.

(** X3: a type string with no parenthesis is looked up whole, so one
    that holds a space (a keyword followed by a qualifier, as in
    [int unsigned]) is no key of the table and maps to the text type. *)
Theorem unparenthesized_qualified_type_is_text (mysql_type is_nullable : string) :
  PyStr.contains "(" mysql_type = false ->
  PyStr.contains " " mysql_type = true ->
  convert_mysql_type_to_clickhouse mysql_type is_nullable
  = Ok (nullable_wrap is_nullable "String").
Proof.
  intros Hparen Hspace.
  assert (Hbase : base_type_of mysql_type = Ok (PyStr.lower mysql_type)).
  { unfold base_type_of. rewrite (split_no_sep "(" mysql_type Hparen). reflexivity. }
  assert (Hnone : TYPE_MAPPING !! PyStr.lower mysql_type = None).
  { destruct (TYPE_MAPPING !! PyStr.lower mysql_type) as [ty|] eqn:Hm; [|reflexivity].
    apply mapped_has_no_space in Hm.
    rewrite (contains_char_lower " " mysql_type lower_ascii_space) in Hm. congruence. }
  unfold convert_mysql_type_to_clickhouse, nullable_wrap.
  rewrite Hbase, Hnone, Hparen. cbn [default from_option id].
  rewrite andb_false_r. cbn. rewrite andb_false_r. reflexivity.
Qed.

Lemma unparenthesized_qualified_type_witness :
  convert_mysql_type_to_clickhouse "int unsigned" "NO" = Ok "String".
Proof.
  apply (unparenthesized_qualified_type_is_text "int unsigned" "NO"); reflexivity.
Defined.

(** X4: a decimal type (the keyword in any case) followed by a
    parenthesized precision maps to [Decimal(precision)] with the text
    between the parentheses copied as it is, whatever follows the
    closing parenthesis. *)
Theorem decimal_precision_verbatim (keyword precision rest is_nullable : string) :
  PyStr.lower keyword = "decimal" ->
  PyStr.contains "(" precision = false ->
  PyStr.contains ")" precision = false ->
  convert_mysql_type_to_clickhouse
    (keyword +:+ "(" +:+ precision +:+ ")" +:+ rest) is_nullable
  = Ok (nullable_wrap is_nullable ("Decimal(" +:+ precision +:+ ")")).
Proof.
  intros Hkw Hp1 Hp2.
  assert (Hk : PyStr.contains "(" keyword = false).
  { rewrite <- (contains_char_lower "(" keyword lower_ascii_paren), Hkw. reflexivity. }
  set (t := keyword +:+ "(" +:+ precision +:+ ")" +:+ rest).
  assert (Hsplit : PyStr.split "(" t
                   = keyword
                     :: (precision +:+ ")" +:+ hd EmptyString (PyStr.split "(" rest))
                     :: tl (PyStr.split "(" rest)).
  { unfold t. rewrite (split_app_no_sep "(" keyword _ Hk).
    change ("(" +:+ precision +:+ ")" +:+ rest)
      with (String "(" (precision +:+ ")" +:+ rest)).
    rewrite split_sep_cons. cbn [hd tl]. rewrite append_nil_r.
    rewrite (split_app_no_sep "(" precision _ Hp1).
    change (")" +:+ rest) with (String ")" rest).
    cbn [PyStr.split]. change (Ascii.eqb ")" "(") with false. cbv iota.
    destruct (split_cons "(" rest) as (h & tl' & ->). reflexivity. }
  assert (Hcontains : PyStr.contains "(" t = true).
  { unfold t. rewrite contains_char_app, Hk.
    change ("(" +:+ precision +:+ ")" +:+ rest)
      with (String "(" (precision +:+ ")" +:+ rest)).
    rewrite contains_char_cons. reflexivity. }
  unfold convert_mysql_type_to_clickhouse, base_type_of, precision_of, PyStr.index.
  rewrite Hsplit. cbn [lookup list_lookup]. rewrite Hkw, Hcontains.
  rewrite (split_app_no_sep ")" precision _ Hp2).
  change (")" +:+ hd EmptyString (PyStr.split "(" rest))
    with (String ")" (hd EmptyString (PyStr.split "(" rest))).
  rewrite split_sep_cons. cbn [hd tl lookup list_lookup].
  rewrite append_nil_r. reflexivity.
Qed.

Lemma decimal_precision_verbatim_witness :
  convert_mysql_type_to_clickhouse "DECIMAL(12,4) unsigned zerofill" "YES"
  = Ok "Nullable(Decimal(12,4))".
Proof.
  apply (decimal_precision_verbatim "DECIMAL" "12,4" " unsigned zerofill" "YES");
    reflexivity.
Defined.

(** ** What a transfer can touch *)

Section Preserves.
Context {S : Type} (R : S -> S -> Prop).
Hypothesis R_refl : forall s, R s s.
Hypothesis R_trans : forall s1 s2 s3, R s1 s2 -> R s2 s3 -> R s1 s3.

Lemma preserves_ret {A} (a : A) : preserves R (ret a).
Proof. intros s. apply R_refl. Qed.

Lemma preserves_raise {A} (e : exn) : preserves R (@raise S A e).
Proof. intros s. apply R_refl. Qed.

Lemma preserves_of_result {A} (r : result A) : preserves R (of_result r).
Proof. intros s. apply R_refl. Qed.

Lemma preserves_bind {A B} (m : ST S A) (k : A -> ST S B) :
  preserves R m -> (forall a, preserves R (k a)) -> preserves R (bind m k).
Proof.
  intros Hm Hk s. unfold bind. specialize (Hm s).
  destruct (m s) as [[a|e] s1]; simpl in *; [|exact Hm].
  eapply R_trans; [exact Hm|apply Hk].
Qed.

Lemma preserves_try_catch {A} (m : ST S A) (h : exn -> ST S A) :
  preserves R m -> (forall e, preserves R (h e)) -> preserves R (try_catch m h).
Proof.
  intros Hm Hh s. unfold try_catch. specialize (Hm s).
  destruct (m s) as [[a|e] s1]; simpl in *; [exact Hm|].
  eapply R_trans; [exact Hm|apply Hh].
Qed.
End Preserves.

Lemma touches_only_refl (t : string) (w : World) : touches_only t w w.
Proof.
  split; [reflexivity|]. exists []. rewrite app_nil_r. split; [reflexivity|constructor].
Qed.

Lemma touches_only_trans (t : string) (w1 w2 w3 : World) :
  touches_only t w1 w2 -> touches_only t w2 w3 -> touches_only t w1 w3.
Proof.
  intros [H12 (i12 & Hw12 & Hf12)] [H23 (i23 & Hw23 & Hf23)]. split.
  - intros t' Hne. rewrite (H23 t' Hne). apply H12, Hne.
  - exists (i12 ++ i23). rewrite Hw23, Hw12, app_assoc. split; [reflexivity|].
    apply Forall_app. split; assumption.
Qed.

(** A step that leaves the target and the writes alone. *)
Lemma touches_only_same (t : string) (w w' : World) :
  ch_db w' = ch_db w -> writes w' = writes w -> touches_only t w w'.
Proof.
  intros Hdb Hw. split; [intros; rewrite Hdb; reflexivity|].
  exists []. rewrite app_nil_r. split; [exact Hw|constructor].
Qed.

Create HintDb touches.

Lemma round_trip_touches (env : Env) (t : string) :
  preserves (touches_only t) (round_trip env).
Proof.
  intros w. rewrite round_trip_world. apply touches_only_same; reflexivity.
Qed.

Lemma time_time_touches (env : Env) (t : string) :
  preserves (touches_only t) (time_time env).
Proof. intros w. apply touches_only_same; reflexivity. Qed.

Lemma log_touches (ev : LogEvent) (t : string) :
  preserves (touches_only t) (log ev).
Proof. intros w. apply touches_only_same; reflexivity. Qed.

Lemma ret_touches {A} (a : A) (t : string) :
  preserves (touches_only t) (ret a).
Proof. apply preserves_ret, touches_only_refl. Qed.

Lemma raise_touches {A} (e : exn) (t : string) :
  preserves (touches_only t) (@raise World A e).
Proof. apply preserves_raise, touches_only_refl. Qed.

Lemma of_result_touches {A} (r : result A) (t : string) :
  preserves (touches_only t) (of_result r).
Proof. apply preserves_of_result, touches_only_refl. Qed.

#[local] Hint Resolve round_trip_touches time_time_touches log_touches
  ret_touches raise_touches of_result_touches : touches.

Ltac touches_step :=
  first
    [ solve [auto 1 with touches]
    | apply preserves_bind; [apply touches_only_trans | | intros ?]
    | apply preserves_try_catch; [apply touches_only_trans | | intros ?] ].

Lemma source_table_touches (env : Env) (s t : string) :
  preserves (touches_only t) (source_table env s).
Proof.
  unfold source_table, no_such_table. destruct (mysql_db env !! s); touches_step.
Qed.
#[local] Hint Resolve source_table_touches : touches.

Lemma mysql_count_touches (env : Env) (s t : string) :
  preserves (touches_only t) (mysql_count env s).
Proof. unfold mysql_count. repeat touches_step. Qed.
#[local] Hint Resolve mysql_count_touches : touches.

Lemma ch_insert_touches (env : Env) (t : string) (data : list row)
    (column_names : list string) :
  preserves (touches_only t) (ch_insert env t data column_names).
Proof.
  intros w. unfold ch_insert. unfold_st. rewrite (surjective_pairing (round_trip env _)).
  rewrite round_trip_world.
  destruct (round_trip env _).1 as [[]|e]; cbn [snd fst].
  - destruct (ch_db _ !! t) as [old|] eqn:Hold; cbn [snd]; split.
    + intros t' Hne. cbn. rewrite lookup_insert_ne by congruence. reflexivity.
    + eexists [_]. split; [reflexivity|]. repeat constructor.
    + reflexivity.
    + eexists [_]. split; [reflexivity|]. repeat constructor.
  - split; [reflexivity|]. eexists [_]. split; [reflexivity|]. repeat constructor.
Qed.
#[local] Hint Resolve ch_insert_touches : touches.

Lemma ch_drop_touches (env : Env) (t : string) :
  preserves (touches_only t) (ch_drop env t).
Proof.
  intros w. unfold ch_drop. unfold_st.
  rewrite (surjective_pairing (round_trip env _)), round_trip_world.
  destruct (round_trip env _).1 as [[]|e]; cbn [snd fst].
  - split.
    + intros t' Hne. cbn. rewrite lookup_delete_ne by congruence. reflexivity.
    + exists []. rewrite app_nil_r. split; [reflexivity|constructor].
  - apply touches_only_same; reflexivity.
Qed.
#[local] Hint Resolve ch_drop_touches : touches.

Lemma ch_create_touches (env : Env) (t ddl : string) :
  preserves (touches_only t) (ch_create env t ddl).
Proof.
  intros w. unfold ch_create. unfold_st.
  rewrite (surjective_pairing (round_trip env _)), round_trip_world.
  destruct (round_trip env _).1 as [[]|e]; cbn [snd fst].
  - destruct (ch_db (tick_call w) !! t) eqn:Hold.
    + apply touches_only_same; reflexivity.
    + split.
      * intros t' Hne. cbn. rewrite lookup_insert_ne by congruence. reflexivity.
      * exists []. rewrite app_nil_r. split; [reflexivity|constructor].
  - apply touches_only_same; reflexivity.
Qed.
#[local] Hint Resolve ch_create_touches : touches.

Lemma ch_count_touches (env : Env) (s t : string) :
  preserves (touches_only t) (ch_count env s).
Proof.
  unfold ch_count. touches_step; [touches_step|].
  intros w. unfold bind, get_state, no_such_table, ret, raise.
  destruct (ch_db w !! s); apply touches_only_refl.
Qed.
#[local] Hint Resolve ch_count_touches : touches.

Lemma flush_last_touches (env : Env) (t : string) (column_names : list string)
    (ls : LoopState) :
  preserves (touches_only t) (flush_last env t column_names ls).
Proof. unfold flush_last. destruct (batch_data ls); repeat touches_step. Qed.
#[local] Hint Resolve flush_last_touches : touches.

Lemma stream_loop_touches (env : Env) (t : string) (column_names : list string)
    (batch_size : Z) (pending : list row) :
  forall ls, preserves (touches_only t)
               (stream_loop env t column_names batch_size pending ls).
Proof.
  induction pending as [|r rest IH]; intros ls; cbn [stream_loop];
    unfold sscursor_fetchone.
  - repeat touches_step.
  - touches_step; [repeat touches_step|].
    destruct r; [touches_step|].
    touches_step; [touches_step|].
    destruct (len _ >=? batch_size); [|apply IH].
    touches_step; [touches_step|].
    touches_step; [touches_step|]. apply IH.
Qed.
#[local] Hint Resolve stream_loop_touches : touches.

Lemma migrate_data_touches (cfg : Config) (env : Env) (mysql_table ch_table : string)
    (batch_size : Z) :
  preserves (touches_only ch_table)
            (migrate_data cfg env mysql_table ch_table batch_size).
Proof.
  unfold migrate_data. touches_step; [touches_step|].
  destruct (_ && _); [repeat touches_step|].
  unfold floordiv, dict_keys, mysql_first_row, sscursor_execute.
  touches_step; [destruct (batch_size =? 0); touches_step|].
  touches_step; [repeat touches_step|].
  touches_step; [destruct a1; touches_step|].
  repeat touches_step.
Qed.
#[local] Hint Resolve migrate_data_touches : touches.

Lemma outer_preserves {L S A} (R : S -> S -> Prop) (m : ST S A) :
  preserves R m -> preserves (on_outer (L:=L) R) (outer m).
Proof.
  intros Hm [l s]. unfold outer, zoom, on_outer. cbn [snd fst].
  specialize (Hm s). destruct (m s). exact Hm.
Qed.

Lemma local_modify_preserves {L S} (R : S -> S -> Prop) (f : L -> L) :
  (forall s, R s s) -> preserves (on_outer R) (local_modify (S:=S) f).
Proof. intros Hr [l s]. apply Hr. Qed.

Lemma local_get_preserves {L S} (R : S -> S -> Prop) :
  (forall s, R s s) -> preserves (on_outer R) (local_get (L:=L) (S:=S)).
Proof. intros Hr [l s]. apply Hr. Qed.

Lemma with_local_preserves {L S A} (R : S -> S -> Prop) (l0 : L)
    (m : ST (L * S) A) :
  preserves (on_outer R) m -> preserves R (with_local l0 m).
Proof.
  intros Hm s. unfold with_local. specialize (Hm (l0, s)).
  destruct (m (l0, s)) as [r [l s']]. exact Hm.
Qed.

Lemma on_outer_refl {L S} (R : S -> S -> Prop) :
  (forall s, R s s) -> forall p : L * S, on_outer R p p.
Proof. intros Hr p. apply Hr. Qed.

Lemma on_outer_trans {L S} (R : S -> S -> Prop) :
  (forall s1 s2 s3, R s1 s2 -> R s2 s3 -> R s1 s3) ->
  forall p1 p2 p3 : L * S, on_outer R p1 p2 -> on_outer R p2 p3 -> on_outer R p1 p3.
Proof. intros Ht p1 p2 p3. apply Ht. Qed.

Lemma verify_migration_touches (env : Env) (mysql_table ch_table t : string) :
  preserves (touches_only t) (verify_migration env mysql_table ch_table).
Proof.
  unfold verify_migration. touches_step; [touches_step|].
  touches_step; [touches_step|]. touches_step; [touches_step|].
  destruct (a =? a0); repeat touches_step.
Qed.

Lemma drop_table_if_exists_touches (cfg : Config) (env : Env) (t : string) :
  preserves (touches_only t) (drop_table_if_exists cfg env t).
Proof.
  unfold drop_table_if_exists. destruct (negb _); repeat touches_step.
Qed.

Lemma create_clickhouse_table_touches (env : Env) (t ddl : string) :
  preserves (touches_only t) (create_clickhouse_table env t ddl).
Proof. unfold create_clickhouse_table. repeat touches_step. Qed.

#[local] Hint Resolve verify_migration_touches drop_table_if_exists_touches
  create_clickhouse_table_touches : touches.

Lemma transfer_steps_touches (cfg : Config) (env : Env) (mysql_table ch_table : string)
    (batch_size : Z) :
  preserves (touches_only ch_table)
            (transfer_steps cfg env mysql_table ch_table batch_size).
Proof.
  unfold transfer_steps, get_mysql_table_structure, get_primary_key,
    mysql_describe, mysql_key_columns.
  repeat touches_step.
Qed.

Ltac local_step t :=
  first
    [ apply outer_preserves; solve [auto 1 with touches]
    | apply local_modify_preserves; apply touches_only_refl
    | apply local_get_preserves; apply touches_only_refl
    | apply preserves_ret; apply on_outer_refl; apply touches_only_refl
    | apply preserves_raise; apply on_outer_refl; apply touches_only_refl
    | apply preserves_bind;
      [apply on_outer_trans; apply touches_only_trans | | intros ?]
    | apply preserves_try_catch;
      [apply on_outer_trans; apply touches_only_trans | | intros ?] ].

Lemma migrate_table_touches (cfg : Config) (env : Env) (mysql_table ch_table : string)
    (batch_size : option Z) (verify : option bool) :
  preserves (touches_only ch_table)
            (migrate_table cfg env mysql_table ch_table batch_size verify).
Proof.
  unfold migrate_table. touches_step; [touches_step|].
  apply with_local_preserves.
  apply preserves_try_catch;
    [apply on_outer_trans; apply touches_only_trans | | intros e].
  - unfold migrate_table_try.
    local_step ch_table.
    { apply outer_preserves, transfer_steps_touches. }
    local_step ch_table; [local_step ch_table|].
    local_step ch_table.
    { destruct (match verify with Some v => v | None => _ end);
        repeat local_step ch_table. }
    repeat local_step ch_table.
  - unfold migrate_table_except.
    do 3 (local_step ch_table; [local_step ch_table|]).
    destruct (negb _); local_step ch_table.
Qed.

(** X5: whatever happens during [migrate_table] (any failure of any
    round trip, any configuration), every target table other than
    [ch_table] is left as it was, and every bulk write issued names
    [ch_table]. *)
Theorem migrate_table_touches_only_its_target (cfg : Config) (env : Env)
    (mysql_table ch_table : string) (batch_size : option Z) (verify : option bool)
    (w : World) :
  let w' := snd (migrate_table cfg env mysql_table ch_table batch_size verify w) in
  (forall other, other <> ch_table -> ch_db w' !! other = ch_db w !! other) /\
  exists issued,
    writes w' = writes w ++ issued /\
    Forall (fun b => bw_table b = ch_table) issued.
Proof. apply migrate_table_touches. Qed.

(** ** StreamingTransferEngine: batches of any size *)

Lemma batches_full_but_last (k : Z) (converted : list row) :
  1 <= k ->
  forall acc, len acc < k -> full_but_last k (batches k acc converted).
Proof.
  intros Hk. induction converted as [|r rest IH]; intros acc Hacc.
  - cbn [batches]. destruct acc as [|x acc]; [exact I|].
    cbn [full_but_last]. rewrite len_cons in *. pose proof (len_nonneg acc). lia.
  - cbn [batches]. destruct (Z.geb_spec (len (acc ++ [r])) k) as [Hge|Hlt].
    + rewrite len_snoc in Hge.
      specialize (IH [] ltac:(unfold len; simpl; lia)).
      cbn [full_but_last]. destruct (batches k [] rest) eqn:Hb.
      * rewrite len_snoc. pose proof (len_nonneg acc). lia.
      * split; [rewrite len_snoc; lia|exact IH].
    + apply IH. lia.
Qed.

Lemma full_but_last_count (k : Z) (bl : list (list row)) :
  1 <= k -> full_but_last k bl -> len bl = (len (concat bl) + k - 1) / k.
Proof.
  intros Hk. induction bl as [|b rest IH]; intros Hfull.
  - unfold len. simpl. symmetry. apply Z.div_small. lia.
  - cbn [full_but_last] in Hfull. cbn [concat]. rewrite len_cons, len_app.
    destruct rest as [|b' rest'].
    + unfold len at 1 3. simpl. rewrite Z.add_0_r.
      apply (Z.div_unique_pos _ _ 1 (len b - 1)); lia.
    + destruct Hfull as [Hb Hrest]. rewrite (IH Hrest), Hb.
      replace (k + len (concat (b' :: rest')) + k - 1)
        with (1 * k + (len (concat (b' :: rest')) + k - 1)) by lia.
      rewrite Z.div_add_l by lia. reflexivity.
Qed.

Lemma batches_singletons (k : Z) (converted : list row) :
  k <= 1 -> batches k [] converted = (fun r => [r]) <$> converted.
Proof.
  intros Hk. induction converted as [|r rest IH]; [reflexivity|].
  cbn [batches app fmap list_fmap]. rewrite geb_true by (unfold len; simpl; lia).
  rewrite IH. reflexivity.
Qed.

(** X6: a transfer of a table that holds rows, with a batch size of at
    least 1 (no round trip failing, the target table in place), returns
    the number of rows of the table; its writes, put end to end, are
    the rows of the table in order; every write but the last holds
    exactly [batch_size] rows and the last between 1 and [batch_size];
    and their number is the [total_batches] the code announces,
    [(total_rows + batch_size - 1) // batch_size]. *)
Theorem migrate_data_writes_full_batches (cfg : Config) (env : Env)
    (mysql_table ch_table : string) (batch_size : Z) (w : World)
    (tb : MySQLTable) (old : list row) :
  no_faults env ->
  mysql_db env !! mysql_table = Some tb ->
  well_formed_table tb = true ->
  table_rows tb <> [] ->
  1 <= batch_size ->
  ch_db w !! ch_table = Some old ->
  exists speed w' bl,
    migrate_data cfg env mysql_table ch_table batch_size w
    = (Ok (len (table_rows tb), speed), w') /\
    writes w' = writes w
                ++ (bulk_write ch_table (Field <$> table_columns tb) <$> bl) /\
    concat bl = converted_rows (table_rows tb) /\
    full_but_last batch_size bl /\
    len bl = (len (table_rows tb) + batch_size - 1) / batch_size.
Proof.
  intros Hnf Ht Hwf Hne Hbs Hold.
  destruct (migrate_data_spec cfg env mysql_table ch_table batch_size w tb old
              Hnf Ht Hwf Hne ltac:(lia) Hold) as (speed & w' & Hrun & Hw & _).
  exists speed, w', (batches batch_size [] (converted_rows (table_rows tb))).
  split; [exact Hrun|]. split; [exact Hw|].
  split; [apply concat_batches|].
  assert (Hfull : full_but_last batch_size
                    (batches batch_size [] (converted_rows (table_rows tb))))
    by (apply batches_full_but_last; [exact Hbs|unfold len; simpl; lia]).
  split; [exact Hfull|].
  rewrite (full_but_last_count batch_size _ Hbs Hfull), concat_batches.
  unfold len, converted_rows. rewrite app_nil_l, length_fmap. reflexivity.
Qed.

Lemma migrate_data_writes_full_batches_witness :
  exists speed w' bl,
    migrate_data (Sample.cfg [] None None None) (Sample.env 7)
      "orders" "orders_ch" 3 (Sample.world {[ "orders_ch" := [] ]})
    = (Ok (7, speed), w') /\
    writes w' = bulk_write "orders_ch" ["id"] <$> bl /\
    len bl = 3.
Proof.
  destruct (migrate_data_writes_full_batches (Sample.cfg [] None None None)
              (Sample.env 7) "orders" "orders_ch" 3
              (Sample.world {[ "orders_ch" := [] ]}) (Sample.orders 7) [])
    as (speed & w' & bl & Hrun & Hw & _ & _ & Hn).
  - intros n. reflexivity.
  - reflexivity.
  - reflexivity.
  - discriminate.
  - lia.
  - reflexivity.
  - exists speed, w', bl. split; [exact Hrun|]. split; [exact Hw|exact Hn].
Defined.

(** X7: a transfer of a table that holds rows, with any batch size
    other than 0, appends the rows of the table, converted and in
    order, to what the target table held, and changes no other table
    of the target: nothing is removed, nothing is deduplicated. *)
Theorem migrate_data_appends_to_target (cfg : Config) (env : Env)
    (mysql_table ch_table : string) (batch_size : Z) (w : World)
    (tb : MySQLTable) (old : list row) :
  no_faults env ->
  mysql_db env !! mysql_table = Some tb ->
  well_formed_table tb = true ->
  table_rows tb <> [] ->
  batch_size <> 0 ->
  ch_db w !! ch_table = Some old ->
  exists speed w',
    migrate_data cfg env mysql_table ch_table batch_size w
    = (Ok (len (table_rows tb), speed), w') /\
    ch_db w' = <[ch_table := old ++ converted_rows (table_rows tb)]> (ch_db w).
Proof.
  intros Hnf Ht Hwf Hne Hbs Hold.
  destruct (migrate_data_spec cfg env mysql_table ch_table batch_size w tb old
              Hnf Ht Hwf Hne Hbs Hold) as (speed & w' & Hrun & _ & Hdb).
  exists speed, w'. split; [exact Hrun|].
  pose proof (migrate_data_touches cfg env mysql_table ch_table batch_size w)
    as [Hframe _].
  rewrite Hrun in Hframe. cbn [snd] in Hframe.
  apply map_eq. intros t. destruct (decide (t = ch_table)) as [->|Hne'].
  - rewrite lookup_insert_eq. exact Hdb.
  - rewrite lookup_insert_ne by congruence. apply Hframe, Hne'.
Qed.

Lemma migrate_data_appends_to_target_witness :
  exists speed w',
    migrate_data (Sample.cfg [] None None None) (Sample.env 2)
      "orders" "orders_ch" (-5)
      (Sample.world {[ "orders_ch" := [[VInt 1]]; "other" := [[VInt 0]] ]})
    = (Ok (2, speed), w') /\
    ch_db w' = {[ "orders_ch" := [[VInt 1]; [VInt 7]; [VInt 7]];
                  "other" := [[VInt 0]] ]}.
Proof.
  destruct (migrate_data_appends_to_target (Sample.cfg [] None None None)
              (Sample.env 2) "orders" "orders_ch" (-5)
              (Sample.world {[ "orders_ch" := [[VInt 1]]; "other" := [[VInt 0]] ]})
              (Sample.orders 2) [[VInt 1]])
    as (speed & w' & Hrun & Hdb).
  - intros n. reflexivity.
  - reflexivity.
  - reflexivity.
  - discriminate.
  - lia.
  - reflexivity.
  - exists speed, w'. split; [exact Hrun|]. rewrite Hdb.
    apply map_eq. intros t. vm_compute. reflexivity.
Defined.

(** X8: a batch size of 1 or less (0 apart) is not refused: the
    transfer issues one bulk write per row, each holding that row. *)
Theorem migrate_data_small_batch_size (cfg : Config) (env : Env)
    (mysql_table ch_table : string) (batch_size : Z) (w : World)
    (tb : MySQLTable) (old : list row) :
  no_faults env ->
  mysql_db env !! mysql_table = Some tb ->
  well_formed_table tb = true ->
  table_rows tb <> [] ->
  batch_size <= 1 ->
  batch_size <> 0 ->
  ch_db w !! ch_table = Some old ->
  exists speed w',
    migrate_data cfg env mysql_table ch_table batch_size w
    = (Ok (len (table_rows tb), speed), w') /\
    writes w' = writes w
                ++ ((fun r => bulk_write ch_table (Field <$> table_columns tb) [r])
                      <$> converted_rows (table_rows tb)).
Proof.
  intros Hnf Ht Hwf Hne Hle Hbs Hold.
  destruct (migrate_data_spec cfg env mysql_table ch_table batch_size w tb old
              Hnf Ht Hwf Hne Hbs Hold) as (speed & w' & Hrun & Hw & _).
  exists speed, w'. split; [exact Hrun|].
  rewrite Hw, (batches_singletons batch_size _ Hle), <- list_fmap_compose.
  reflexivity.
Qed.

Lemma migrate_data_small_batch_size_witness :
  exists speed w',
    migrate_data (Sample.cfg [] None None None) (Sample.env 2)
      "orders" "orders_ch" (-1) (Sample.world {[ "orders_ch" := [] ]})
    = (Ok (2, speed), w') /\
    writes w' = [bulk_write "orders_ch" ["id"] [[VInt 7]];
                 bulk_write "orders_ch" ["id"] [[VInt 7]]].
Proof.
  destruct (migrate_data_small_batch_size (Sample.cfg [] None None None)
              (Sample.env 2) "orders" "orders_ch" (-1)
              (Sample.world {[ "orders_ch" := [] ]}) (Sample.orders 2) [])
    as (speed & w' & Hrun & Hw).
  - intros n. reflexivity.
  - reflexivity.
  - reflexivity.
  - discriminate.
  - lia.
  - lia.
  - reflexivity.
  - exists speed, w'. split; [exact Hrun|exact Hw].
Defined.

(** ** DDLSynthesizer and the steps before the transfer *)

Lemma column_defs_total (columns : list Column) :
  exists defs, column_defs columns = Ok defs /\ length defs = length columns.
Proof.
  induction columns as [|col rest (defs & IH & Hlen)]; [exists []; auto|].
  cbn [column_defs].
  destruct (convert_total (Type_ col) (Null col)) as (ty & ->). rewrite IH.
  eexists. split; [reflexivity|]. simpl. rewrite Hlen. reflexivity.
Qed.

Lemma generate_clickhouse_ddl_total (mysql_table ch_table : string)
    (columns : list Column) (primary_keys : list string) :
  exists ddl,
    generate_clickhouse_ddl mysql_table ch_table columns primary_keys = Ok ddl.
Proof.
  unfold generate_clickhouse_ddl.
  destruct (column_defs_total columns) as (defs & -> & _). eauto.
Qed.

Lemma mysql_describe_ok (env : Env) (t : string) (tb : MySQLTable) (w : World) :
  mysql_db env !! t = Some tb -> faults env (calls w) = None ->
  mysql_describe env t w = (Ok (table_columns tb), tick_call w).
Proof.
  intros Ht Hf. unfold mysql_describe, source_table. unfold_st.
  rewrite (round_trip_ok env w Hf), Ht. reflexivity.
Qed.

Lemma drop_table_if_exists_ok (cfg : Config) (env : Env) (t : string) (w : World) :
  no_faults env ->
  drop_table_if_exists cfg env t w = (Ok tt, dropped cfg t w).
Proof.
  intros Hnf. unfold drop_table_if_exists, dropped.
  destruct (default true (drop_table_before_create cfg)); [|reflexivity].
  cbn [negb]. unfold try_catch, ch_drop, bind.
  rewrite (round_trip_ok env w (Hnf _)). reflexivity.
Qed.

Lemma create_clickhouse_table_ok (env : Env) (t ddl : string) (w : World) :
  no_faults env ->
  create_clickhouse_table env t ddl w = (Ok tt, created t w).
Proof.
  intros Hnf. unfold create_clickhouse_table, created, try_catch, ch_create, bind.
  rewrite (round_trip_ok env w (Hnf _)). unfold modify.
  change (ch_db (tick_call w)) with (ch_db w).
  destruct (ch_db w !! t); reflexivity.
Qed.

(** Steps 1 to 3 when no round trip fails: the transfer starts on the
    prepared target. *)
Lemma transfer_steps_prepared (cfg : Config) (env : Env)
    (mysql_table ch_table : string) (batch_size : Z) (w : World) (tb : MySQLTable) :
  no_faults env ->
  mysql_db env !! mysql_table = Some tb ->
  transfer_steps cfg env mysql_table ch_table batch_size w
  = migrate_data cfg env mysql_table ch_table batch_size (prepared cfg ch_table w).
Proof.
  intros Hnf Ht. unfold transfer_steps, get_mysql_table_structure, get_primary_key.
  unfold bind at 1. rewrite (mysql_describe_ok env mysql_table tb w Ht (Hnf _)).
  unfold bind at 1, mysql_key_columns, bind at 1.
  rewrite (round_trip_ok env _ (Hnf _)). unfold ret at 1.
  unfold bind at 1. rewrite (drop_table_if_exists_ok cfg env ch_table _ Hnf).
  destruct (generate_clickhouse_ddl_total mysql_table ch_table (table_columns tb)
              (match mysql_db env !! mysql_table with
               | Some tb0 => table_primary_key tb0
               | None => []
               end)) as (ddl & Hddl).
  unfold bind at 1, of_result. rewrite Hddl.
  unfold bind at 1. rewrite (create_clickhouse_table_ok env ch_table ddl _ Hnf).
  reflexivity.
Qed.

Lemma prepared_target (cfg : Config) (t : string) (w : World) :
  ch_db (prepared cfg t w) !! t
  = Some (if default true (drop_table_before_create cfg) then []
          else default [] (ch_db w !! t)) /\
  writes (prepared cfg t w) = writes w /\
  (forall other, other <> t -> ch_db (prepared cfg t w) !! other = ch_db w !! other).
Proof.
  unfold prepared, created, dropped.
  destruct (default true (drop_table_before_create cfg)); cbn [ch_db set_ch_db tick_call].
  - rewrite lookup_delete_eq. cbn. rewrite lookup_insert_eq.
    split; [reflexivity|]. split; [reflexivity|].
    intros other Hne. rewrite lookup_insert_ne, lookup_delete_ne by congruence.
    reflexivity.
  - destruct (ch_db w !! t) as [old|] eqn:Hold; cbn.
    + rewrite Hold. auto.
    + rewrite lookup_insert_eq. split; [reflexivity|]. split; [reflexivity|].
      intros other Hne. rewrite lookup_insert_ne by congruence. reflexivity.
Qed.

Lemma prepared_ticks (cfg : Config) (t : string) (w : World) :
  ticks (prepared cfg t w) = ticks w.
Proof.
  unfold prepared, created, dropped.
  destruct (default true (drop_table_before_create cfg));
    match goal with |- context [match ?x with Some _ => _ | None => _ end] =>
      destruct x end; reflexivity.
Qed.

(** ** MigrationOrchestrator: outcomes of one table *)

(** [migrate_table] when one of steps 1 to 4 raises. *)
Lemma migrate_table_transfer_raises (cfg : Config) (env : Env)
    (mysql_table ch_table : string) (batch_size : option Z) (verify : option bool)
    (w : World) (e : exn) (w1 : World) :
  transfer_steps cfg env mysql_table ch_table (resolved_batch_size cfg batch_size)
    (tick_clock w) = (Raise e, w1) ->
  migrate_table cfg env mysql_table ch_table batch_size verify w
  = (if negb (default false (continue_on_error cfg)) then Raise e
     else Ok (set_error (now env (ticks w1) - now env (ticks w))%Q (str_of_exn e)
                (new_table_result mysql_table ch_table)),
     add_log (LogTableFailed (str_of_exn e)) (tick_clock w1)).
Proof.
  intros Hraise. unfold migrate_table, bind at 1. rewrite time_time_eq.
  fold (resolved_batch_size cfg batch_size).
  unfold with_local, try_catch, migrate_table_try.
  unfold bind at 1, outer at 1, zoom at 1. cbn [fst snd].
  rewrite Hraise. unfold migrate_table_except, bind, outer, zoom, local_modify,
    modify, local_get, log, raise.
  cbn [fst snd]. rewrite time_time_eq.
  destruct (negb (default false (continue_on_error cfg))); reflexivity.
Qed.

Lemma verify_migration_eval (env : Env) (mysql_table ch_table : string)
    (w : World) (tb : MySQLTable) (target : list row) :
  mysql_db env !! mysql_table = Some tb ->
  ch_db w !! ch_table = Some target ->
  no_faults env ->
  exists w',
    verify_migration env mysql_table ch_table w
    = (Ok (len (table_rows tb) =? len target), w') /\
    ch_db w' = ch_db w /\ writes w' = writes w.
Proof.
  intros Hsrc Htgt Hnf. unfold verify_migration, bind at 1.
  rewrite (mysql_count_ok env mysql_table tb w Hsrc (Hnf _)).
  unfold bind at 1.
  rewrite (ch_count_ok env ch_table target (tick_call w) Htgt (Hnf _)).
  unfold_st. destruct (len (table_rows tb) =? len target);
    eexists; (split; [reflexivity|]); split; reflexivity.
Qed.

(** [migrate_table] on a table that holds rows when no round trip fails:
    the result, and the target, given what the target table held once
    prepared. *)
Lemma migrate_table_ok (cfg : Config) (env : Env) (mysql_table ch_table : string)
    (batch_size : option Z) (verify : option bool) (w : World) (tb : MySQLTable) :
  no_faults env ->
  mysql_db env !! mysql_table = Some tb ->
  well_formed_table tb = true ->
  table_rows tb <> [] ->
  resolved_batch_size cfg batch_size <> 0 ->
  let base := if default true (drop_table_before_create cfg) then []
              else default [] (ch_db w !! ch_table) in
  exists r w',
    migrate_table cfg env mysql_table ch_table batch_size verify w = (Ok r, w') /\
    r_status r = success /\
    r_error r = None /\
    r_rows r = len (table_rows tb) /\
    r_verified r = (resolved_verify cfg verify && (len base =? 0)) /\
    ch_db w' = <[ch_table := base ++ converted_rows (table_rows tb)]> (ch_db w).
Proof.
  intros Hnf Ht Hwf Hne Hbs base.
  destruct (prepared_target cfg ch_table (tick_clock w)) as (Hbase & _ & Hother).
  fold base in Hbase. change (ch_db (tick_clock w)) with (ch_db w) in *.
  destruct (migrate_data_spec cfg env mysql_table ch_table
              (resolved_batch_size cfg batch_size)
              (prepared cfg ch_table (tick_clock w)) tb base
              Hnf Ht Hwf Hne Hbs Hbase) as (speed & w1 & Hrun & _ & Hdb).
  assert (Hsteps : transfer_steps cfg env mysql_table ch_table
                     (resolved_batch_size cfg batch_size) (tick_clock w)
                   = (Ok (len (table_rows tb), speed), w1))
    by (rewrite (transfer_steps_prepared _ _ _ _ _ _ tb Hnf Ht); exact Hrun).
  assert (Hfinal : ch_db w1
                   = <[ch_table := base ++ converted_rows (table_rows tb)]> (ch_db w)).
  { pose proof (migrate_data_touches cfg env mysql_table ch_table
                  (resolved_batch_size cfg batch_size)
                  (prepared cfg ch_table (tick_clock w))) as [Hframe _].
    rewrite Hrun in Hframe. cbn [snd] in Hframe.
    apply map_eq. intros t. destruct (decide (t = ch_table)) as [->|Hne'].
    - rewrite lookup_insert_eq. exact Hdb.
    - rewrite lookup_insert_ne by congruence.
      rewrite (Hframe t Hne'). apply Hother, Hne'. }
  rewrite (migrate_table_transferred _ _ _ _ _ _ _ _ _ _ Hsteps).
  unfold with_local, try_catch.
  destruct (resolved_verify cfg verify).
  - destruct (verify_migration_eval env mysql_table ch_table w1 tb
                (base ++ converted_rows (table_rows tb)) Ht Hdb Hnf)
      as (w2 & Hverify & Hdb2 & _).
    unfold bind, outer, zoom, local_modify, modify, local_get.
    cbn [fst snd]. rewrite Hverify. cbn [fst snd]. rewrite time_time_eq.
    do 2 eexists. split; [reflexivity|]. cbn.
    split; [reflexivity|]. split; [reflexivity|]. split; [reflexivity|].
    split; [|rewrite Hdb2; exact Hfinal].
    unfold converted_rows, len. rewrite length_app, length_fmap.
    destruct (Z.eqb_spec (Z.of_nat (length base)) 0) as [Hz|Hnz].
    + apply Z.eqb_eq. lia.
    + apply Z.eqb_neq. lia.
  - unfold bind, outer, zoom, local_modify, modify, local_get, ret.
    cbn [fst snd]. rewrite time_time_eq.
    do 2 eexists. split; [reflexivity|]. cbn. auto.
Qed.

(** X9: with the drop policy on (the default), a batch size other than
    0 and no round trip failing, [migrate_table] on a source table that
    exists, has columns, and holds rows, each as wide as the columns,
    returns a success with the number of rows of the table and no
    error; the target table then holds exactly the rows of the source,
    converted and in order, whatever it held before; no other target
    table changes; and [verified] is true exactly when verification was
    asked for. *)
Theorem migrate_table_copies_table (cfg : Config) (env : Env)
    (mysql_table ch_table : string) (batch_size : option Z) (verify : option bool)
    (w : World) (tb : MySQLTable) :
  no_faults env ->
  mysql_db env !! mysql_table = Some tb ->
  well_formed_table tb = true ->
  table_rows tb <> [] ->
  resolved_batch_size cfg batch_size <> 0 ->
  default true (drop_table_before_create cfg) = true ->
  exists r w',
    migrate_table cfg env mysql_table ch_table batch_size verify w = (Ok r, w') /\
    r_status r = success /\
    r_error r = None /\
    r_rows r = len (table_rows tb) /\
    r_verified r = resolved_verify cfg verify /\
    ch_db w' = <[ch_table := converted_rows (table_rows tb)]> (ch_db w).
Proof.
  intros Hnf Ht Hwf Hne Hbs Hdrop.
  destruct (migrate_table_ok cfg env mysql_table ch_table batch_size verify w tb
              Hnf Ht Hwf Hne Hbs) as (r & w' & Hrun & Hs & He & Hr & Hv & Hdb).
  rewrite Hdrop in Hv, Hdb. cbn [app] in Hdb.
  exists r, w'. rewrite andb_true_r in Hv. auto 10.
Qed.

Lemma migrate_table_copies_table_witness :
  exists r w',
    migrate_table (Sample.cfg [] None None None) (Sample.env 4)
      "orders" "orders_ch" (Some 3) None
      (Sample.world {[ "orders_ch" := [[VInt 0]] ]}) = (Ok r, w') /\
    r_status r = success /\ r_rows r = 4 /\ r_verified r = true /\
    ch_db w' = {[ "orders_ch" := replicate 4 [VInt 7] ]}.
Proof.
  destruct (migrate_table_copies_table (Sample.cfg [] None None None) (Sample.env 4)
              "orders" "orders_ch" (Some 3) None
              (Sample.world {[ "orders_ch" := [[VInt 0]] ]}) (Sample.orders 4))
    as (r & w' & Hrun & Hs & _ & Hr & Hv & Hdb).
  - intros n. reflexivity.
  - reflexivity.
  - reflexivity.
  - discriminate.
  - discriminate.
  - reflexivity.
  - exists r, w'. split; [exact Hrun|]. split; [exact Hs|]. split; [exact Hr|].
    split; [exact Hv|]. rewrite Hdb. apply map_eq. intros t. vm_compute. reflexivity.
Defined.

(** X10: with the drop policy off, a batch size other than 0, no round
    trip failing and a target table that already holds rows,
    [migrate_table] on a source table that exists, has columns, and
    holds rows, each as wide as the columns, appends the rows of the
    source after the rows already there, and still returns a success
    with the number of source rows; [verified] is false, also when
    verification is asked for, the target count then being larger than
    the source count. *)
Theorem migrate_table_without_drop_appends (cfg : Config) (env : Env)
    (mysql_table ch_table : string) (batch_size : option Z) (verify : option bool)
    (w : World) (tb : MySQLTable) (old : list row) :
  no_faults env ->
  mysql_db env !! mysql_table = Some tb ->
  well_formed_table tb = true ->
  table_rows tb <> [] ->
  resolved_batch_size cfg batch_size <> 0 ->
  drop_table_before_create cfg = Some false ->
  ch_db w !! ch_table = Some old ->
  old <> [] ->
  exists r w',
    migrate_table cfg env mysql_table ch_table batch_size verify w = (Ok r, w') /\
    r_status r = success /\
    r_rows r = len (table_rows tb) /\
    r_verified r = false /\
    ch_db w' = <[ch_table := old ++ converted_rows (table_rows tb)]> (ch_db w).
Proof.
  intros Hnf Ht Hwf Hne Hbs Hdrop Hold Hnonempty.
  destruct (migrate_table_ok cfg env mysql_table ch_table batch_size verify w tb
              Hnf Ht Hwf Hne Hbs) as (r & w' & Hrun & Hs & He & Hr & Hv & Hdb).
  rewrite Hdrop, Hold in Hv, Hdb. cbn [default from_option id] in Hv, Hdb.
  exists r, w'. split; [exact Hrun|]. split; [exact Hs|]. split; [exact Hr|].
  split; [|exact Hdb]. rewrite Hv.
  replace (len old =? 0) with false; [apply andb_false_r|].
  symmetry. apply Z.eqb_neq. unfold len. destruct old; [congruence|simpl; lia].
Qed.

Lemma migrate_table_without_drop_witness :
  exists r w',
    migrate_table (Sample.cfg [] (Some false) None None) (Sample.env 2)
      "orders" "orders_ch" None None
      (Sample.world {[ "orders_ch" := [[VInt 0]] ]}) = (Ok r, w') /\
    r_status r = success /\ r_rows r = 2 /\ r_verified r = false /\
    ch_db w' = {[ "orders_ch" := [[VInt 0]; [VInt 7]; [VInt 7]] ]}.
Proof.
  destruct (migrate_table_without_drop_appends
              (Sample.cfg [] (Some false) None None) (Sample.env 2)
              "orders" "orders_ch" None None
              (Sample.world {[ "orders_ch" := [[VInt 0]] ]}) (Sample.orders 2)
              [[VInt 0]])
    as (r & w' & Hrun & Hs & Hr & Hv & Hdb).
  - intros n. reflexivity.
  - reflexivity.
  - reflexivity.
  - discriminate.
  - discriminate.
  - reflexivity.
  - reflexivity.
  - discriminate.
  - exists r, w'. split; [exact Hrun|]. split; [exact Hs|]. split; [exact Hr|].
    split; [exact Hv|]. rewrite Hdb. apply map_eq. intros t. vm_compute. reflexivity.
Defined.

Lemma migrate_data_zero_batch_size (cfg : Config) (env : Env)
    (mysql_table ch_table : string) (w : World) (tb : MySQLTable) :
  mysql_db env !! mysql_table = Some tb ->
  table_rows tb <> [] ->
  faults env (calls w) = None ->
  migrate_data cfg env mysql_table ch_table 0 w
  = (Raise (ZeroDivisionError "integer division or modulo by zero"), tick_call w).
Proof.
  intros Ht Hne Hf. unfold migrate_data, bind at 1.
  rewrite (mysql_count_ok env mysql_table tb w Ht Hf).
  replace (len (table_rows tb) =? 0) with false; [reflexivity|].
  symmetry. apply Z.eqb_neq. unfold len.
  destruct (table_rows tb); [congruence|simpl; lia].
Qed.

(** X11: a batch size of 0 is not refused before the work starts: on a
    table that holds rows (no round trip failing), [migrate_table] has
    already prepared the target (dropped it under the drop policy, and
    created it) when the [ZeroDivisionError] of the batch count stops
    the transfer; the table fails (or the exception propagates when
    continue-on-error is off), no write is issued, and under the drop
    policy the target table is left empty. *)
Theorem migrate_table_zero_batch_size (cfg : Config) (env : Env)
    (mysql_table ch_table : string) (batch_size : option Z) (verify : option bool)
    (w : World) (tb : MySQLTable) :
  no_faults env ->
  mysql_db env !! mysql_table = Some tb ->
  table_rows tb <> [] ->
  resolved_batch_size cfg batch_size = 0 ->
  let e := ZeroDivisionError "integer division or modulo by zero" in
  exists w',
    migrate_table cfg env mysql_table ch_table batch_size verify w
    = (if negb (default false (continue_on_error cfg)) then Raise e
       else Ok (set_error (now env (S (ticks w)) - now env (ticks w))%Q (str_of_exn e)
                  (new_table_result mysql_table ch_table)), w') /\
    writes w' = writes w /\
    ch_db w' !! ch_table
    = Some (if default true (drop_table_before_create cfg) then []
            else default [] (ch_db w !! ch_table)).
Proof.
  intros Hnf Ht Hne Hbs e.
  assert (Hsteps : transfer_steps cfg env mysql_table ch_table
                     (resolved_batch_size cfg batch_size) (tick_clock w)
                   = (Raise e, tick_call (prepared cfg ch_table (tick_clock w)))).
  { rewrite (transfer_steps_prepared _ _ _ _ _ _ tb Hnf Ht), Hbs.
    apply (migrate_data_zero_batch_size _ _ _ _ _ tb Ht Hne (Hnf _)). }
  rewrite (migrate_table_transfer_raises _ _ _ _ _ _ _ _ _ Hsteps).
  destruct (prepared_target cfg ch_table (tick_clock w)) as (Hbase & Hw & _).
  eexists. split; [|split].
  - cbn [ticks tick_call]. rewrite prepared_ticks. reflexivity.
  - cbn. exact Hw.
  - cbn. exact Hbase.
Qed.

Lemma migrate_table_zero_batch_size_witness :
  exists w',
    migrate_table (Sample.cfg [] None None None) (Sample.env 2)
      "orders" "orders_ch" (Some 0) None
      (Sample.world {[ "orders_ch" := [[VInt 0]] ]})
    = (Raise (ZeroDivisionError "integer division or modulo by zero"), w') /\
    writes w' = [] /\
    ch_db w' !! "orders_ch" = Some [].
Proof.
  destruct (migrate_table_zero_batch_size (Sample.cfg [] None None None)
              (Sample.env 2) "orders" "orders_ch" (Some 0) None
              (Sample.world {[ "orders_ch" := [[VInt 0]] ]}) (Sample.orders 2))
    as (w' & Hrun & Hw & Hdb).
  - intros n. reflexivity.
  - reflexivity.
  - discriminate.
  - reflexivity.
  - exists w'. split; [exact Hrun|]. split; [exact Hw|exact Hdb].
Defined.

Lemma get_mysql_table_structure_missing (env : Env) (table_name : string) (w : World) :
  mysql_db env !! table_name = None ->
  exists e, get_mysql_table_structure env table_name w = (Raise e, tick_call w).
Proof.
  intros Hnone. unfold get_mysql_table_structure, mysql_describe, bind at 1.
  unfold round_trip. destruct (faults env (calls w)); [eauto|].
  unfold bind, source_table, no_such_table, raise. rewrite Hnone. eauto.
Qed.

(** X12: when the source database has no table [mysql_table],
    [migrate_table] fails at the introspection, before the drop: the
    target is exactly as it was (the table [ch_table] included) and no
    write is issued; under continue-on-error the result is a failure
    with 0 rows and the error text, otherwise the exception propagates. *)
Theorem migrate_table_missing_source (cfg : Config) (env : Env)
    (mysql_table ch_table : string) (batch_size : option Z) (verify : option bool)
    (w : World) :
  mysql_db env !! mysql_table = None ->
  exists e w',
    migrate_table cfg env mysql_table ch_table batch_size verify w
    = (if negb (default false (continue_on_error cfg)) then Raise e
       else Ok (set_error (now env (S (ticks w)) - now env (ticks w))%Q (str_of_exn e)
                  (new_table_result mysql_table ch_table)), w') /\
    ch_db w' = ch_db w /\
    writes w' = writes w.
Proof.
  intros Hnone.
  destruct (get_mysql_table_structure_missing env mysql_table (tick_clock w) Hnone)
    as (e & Hraise).
  rewrite (migrate_table_structure_raises _ _ _ _ _ _ _ _ _ Hraise).
  exists e. eexists. split; [reflexivity|]. split; reflexivity.
Qed.

Lemma migrate_table_missing_source_witness :
  exists e w',
    migrate_table (Sample.cfg [] None None None) (Sample.env 2)
      "missing" "orders_ch" None None
      (Sample.world {[ "orders_ch" := [[VInt 0]] ]}) = (Raise e, w') /\
    ch_db w' = {[ "orders_ch" := [[VInt 0]] ]}.
Proof.
  destruct (migrate_table_missing_source (Sample.cfg [] None None None)
              (Sample.env 2) "missing" "orders_ch" None None
              (Sample.world {[ "orders_ch" := [[VInt 0]] ]}))
    as (e & w' & Hrun & Hdb & _).
  - reflexivity.
  - exists e, w'. split; [exact Hrun|exact Hdb].
Defined.

(** X13: whatever happens, a result that [migrate_table] returns names
    the two tables it was called with, and is either a success without
    error text, or a failure with an error text and [verified] false;
    a failure is returned only under continue-on-error. *)
Theorem migrate_table_result_shape (cfg : Config) (env : Env)
    (mysql_table ch_table : string) (batch_size : option Z) (verify : option bool)
    (w : World) (r : TableResult) (w' : World) :
  migrate_table cfg env mysql_table ch_table batch_size verify w = (Ok r, w') ->
  r_mysql_table r = mysql_table /\
  r_ch_table r = ch_table /\
  ((r_status r = success /\ r_error r = None) \/
   (r_status r = failed /\ is_Some (r_error r) /\ r_verified r = false /\
    default false (continue_on_error cfg) = true)).
Proof.
  destruct (transfer_steps cfg env mysql_table ch_table
              (resolved_batch_size cfg batch_size) (tick_clock w))
    as [[[rows speed]|e] w1] eqn:Hsteps.
  - rewrite (migrate_table_transferred _ _ _ _ _ _ _ _ _ _ Hsteps).
    unfold with_local, try_catch, migrate_table_except, bind, outer, zoom,
      local_modify, modify, local_get, log, raise, ret.
    cbn [fst snd].
    destruct (resolved_verify cfg verify).
    + cbv beta iota. cbn [fst snd].
      destruct (verify_migration env mysql_table ch_table w1) as [[b|e] w2];
        cbn [fst snd]; rewrite ?time_time_eq; cbn [fst snd].
      * intros [= <- <-]. cbn. auto.
      * destruct (default false (continue_on_error cfg)) eqn:Hc; cbn [negb];
          intros [= <- <-].
        cbn. split; [reflexivity|]. split; [reflexivity|]. right. eauto.
    + rewrite ?time_time_eq. intros [= <- <-]. cbn. auto.
  - rewrite (migrate_table_transfer_raises _ _ _ _ _ _ _ _ _ Hsteps).
    destruct (default false (continue_on_error cfg)) eqn:Hc; cbn [negb];
      intros [= <- <-].
        cbn. split; [reflexivity|]. split; [reflexivity|]. right. eauto.
Qed.

Lemma migrate_table_result_shape_witness :
  let run := migrate_table (Sample.cfg [] None None (Some true)) (Sample.env 2)
               "missing" "orders_ch" None None (Sample.world ∅) in
  exists r, run.1 = Ok r /\ r_mysql_table r = "missing" /\ r_status r = failed.
Proof.
  intros run.
  destruct (migrate_table_result_shape (Sample.cfg [] None None (Some true))
              (Sample.env 2) "missing" "orders_ch" None None (Sample.world ∅)
              (set_error (1 - 0)%Q "Table 'missing' doesn't exist"
                 (new_table_result "missing" "orders_ch"))
              run.2)
    as (Hm & _ & _).
  - vm_compute. reflexivity.
  - eexists. split; [vm_compute; reflexivity|]. split; [exact Hm|reflexivity].
Defined.

(** X14: with [skip_empty_tables] on (the default), the drop policy on
    and no round trip failing, [migrate_table] on an empty source table
    returns a success with 0 rows, issues no write, and leaves an empty
    target table; [verified] is true exactly when verification was
    asked for. *)
Theorem migrate_table_empty_source (cfg : Config) (env : Env)
    (mysql_table ch_table : string) (batch_size : option Z) (verify : option bool)
    (w : World) (tb : MySQLTable) :
  no_faults env ->
  mysql_db env !! mysql_table = Some tb ->
  table_rows tb = [] ->
  default true (skip_empty_tables cfg) = true ->
  default true (drop_table_before_create cfg) = true ->
  exists r w',
    migrate_table cfg env mysql_table ch_table batch_size verify w = (Ok r, w') /\
    r_status r = success /\
    r_rows r = 0 /\
    r_verified r = resolved_verify cfg verify /\
    writes w' = writes w /\
    ch_db w' !! ch_table = Some [].
Proof.
  intros Hnf Ht Hrows Hskip Hdrop.
  destruct (prepared_target cfg ch_table (tick_clock w)) as (Hbase & Hw & _).
  rewrite Hdrop in Hbase.
  destruct (migrate_data_empty_table_skipped cfg env mysql_table ch_table
              (resolved_batch_size cfg batch_size)
              (prepared cfg ch_table (tick_clock w)) tb Ht Hrows Hskip (Hnf _))
    as (w1 & Hrun & Hw1 & Hdb1).
  assert (Hsteps : transfer_steps cfg env mysql_table ch_table
                     (resolved_batch_size cfg batch_size) (tick_clock w)
                   = (Ok (0, 0%Q), w1))
    by (rewrite (transfer_steps_prepared _ _ _ _ _ _ tb Hnf Ht); exact Hrun).
  rewrite (migrate_table_transferred _ _ _ _ _ _ _ _ _ _ Hsteps).
  unfold with_local, try_catch.
  destruct (resolved_verify cfg verify).
  - assert (Htarget : ch_db w1 !! ch_table = Some []) by (rewrite Hdb1; exact Hbase).
    destruct (verify_migration_eval env mysql_table ch_table w1 tb [] Ht Htarget Hnf)
      as (w2 & Hverify & Hdb2 & Hw2).
    rewrite Hrows in Hverify.
    unfold bind, outer, zoom, local_modify, modify, local_get.
    cbn [fst snd]. rewrite Hverify. cbn [fst snd]. rewrite time_time_eq.
    do 2 eexists. split; [reflexivity|]. cbn.
    rewrite Hw2, Hw1, Hw, Hdb2, Hdb1. auto.
  - unfold bind, outer, zoom, local_modify, modify, local_get, ret.
    cbn [fst snd]. rewrite time_time_eq.
    do 2 eexists. split; [reflexivity|]. cbn.
    rewrite Hw1, Hw, Hdb1. auto.
Qed.

Lemma migrate_table_empty_source_witness :
  exists r w',
    migrate_table (Sample.cfg [] None None None) (Sample.env 0)
      "orders" "orders_ch" None None
      (Sample.world {[ "orders_ch" := [[VInt 0]] ]}) = (Ok r, w') /\
    r_status r = success /\ r_rows r = 0 /\ r_verified r = true /\
    ch_db w' !! "orders_ch" = Some [].
Proof.
  destruct (migrate_table_empty_source (Sample.cfg [] None None None) (Sample.env 0)
              "orders" "orders_ch" None None
              (Sample.world {[ "orders_ch" := [[VInt 0]] ]}) (Sample.orders 0))
    as (r & w' & Hrun & Hs & Hr & Hv & _ & Hdb).
  - intros n. reflexivity.
  - reflexivity.
  - reflexivity.
  - reflexivity.
  - reflexivity.
  - exists r, w'. auto 10.
Defined.

(** ** MigrationOrchestrator: notifications and bookkeeping *)

(** The loop over the tables and the notifier: a loop that ends sends
    nothing; a loop left by an exception has sent one failure
    notification, with the text of that exception, and this happens
    with continue-on-error off only. *)
Lemma tables_loop_notifications (cfg : Config) (env : Env) (total : Z)
    (tbls : list TableMapping) :
  forall (idx : Z) (o : Orch) (res : result unit) (o' : Orch),
    tables_loop cfg env total idx tbls o = (res, o') ->
    match res with
    | Ok _ => notifications o' = notifications o
    | Raise e =>
        default false (continue_on_error cfg) = false /\
        exists failed_table completed,
          notifications o'
          = notifications o
            ++ [NotifyFailure failed_table (str_of_exn e) total completed]
    end.
Proof.
  induction tbls as [|tc rest IH]; intros idx o res o' Hrun.
  - injection Hrun as <- <-. reflexivity.
  - cbn [tables_loop] in Hrun. destruct (invalid_entry tc).
    + unfold bind at 1, in_world, zoom, log, modify in Hrun. cbn in Hrun.
      apply IH in Hrun. exact Hrun.
    + unfold bind at 1 in Hrun. rewrite table_iteration in Hrun.
      destruct (migrate_table _ _ _ _ _ _ _) as [[r|e] w1] eqn:Hm.
      * apply IH in Hrun. exact Hrun.
      * destruct (default false (continue_on_error cfg)) eqn:Hc; cbn [negb] in Hrun.
        -- destruct (migrate_table_continue_returns cfg env
                       (default "" (tc_mysql_table tc))
                       (default "" (tc_ch_table tc))
                       (tc_batch_size tc) (tc_verify tc) (world o) Hc)
             as (r & w2 & Hret).
           congruence.
        -- injection Hrun as <- <-. split; [reflexivity|]. eauto.
Qed.

(** X15: the notifications of a run over a non-empty mapping list, from
    a fresh orchestrator. The first is the start notification, with the
    whole list and the two database names. A run that ends without an
    exception sends after it the success notification, carrying the
    final statistics, when no table failed, and nothing when some table
    failed. A run left by an exception sends after it exactly one
    failure notification, carrying the text of that exception and the
    number of entries of the list. *)
Theorem run_notifications (cfg : Config) (env : Env) (w : World)
    (res : result unit) (o' : Orch) :
  migrate_all_tables cfg env (new_orch w) = (res, o') ->
  default [] (tables cfg) <> [] ->
  let tbls := default [] (tables cfg) in
  let start := NotifyStart tbls (mysql_database cfg) (clickhouse_database cfg) in
  match res with
  | Ok _ =>
      notifications o'
      = if failed_tables (migration_stats o') =? 0
        then [start; NotifySuccess (migration_stats o')]
        else [start]
  | Raise e =>
      exists failed_table completed,
        notifications o'
        = [start; NotifyFailure failed_table (str_of_exn e) (len tbls) completed]
  end.
Proof.
  intros Hrun Hne tbls start. subst tbls start. unfold migrate_all_tables in Hrun.
  destruct (default [] (tables cfg)) as [|tc rest]; [congruence|].
  cbv iota in Hrun. remember (tc :: rest) as tbls eqn:Htbls. clear Htbls Hne tc rest.
  unfold bind at 1, update_stats at 1, modify at 1 in Hrun.
  unfold bind at 1, notify at 1, modify at 1 in Hrun.
  unfold bind at 1, in_world at 1, zoom at 1 in Hrun.
  cbn [world migration_stats stats_history notifications new_orch] in Hrun.
  rewrite time_time_eq in Hrun. unfold bind at 1 in Hrun.
  destruct (tables_loop cfg env (len tbls) 1 tbls _) as [res1 o1] eqn:Hloop.
  apply tables_loop_notifications in Hloop.
  cbn [notifications app] in Hloop.
  destruct res1 as [[]|e].
  - unfold bind at 1, in_world at 1, zoom at 1 in Hrun.
    rewrite time_time_eq in Hrun.
    unfold bind at 1, update_stats at 1, modify at 1 in Hrun.
    unfold bind at 1, get_stats at 1 in Hrun.
    unfold bind at 1, update_stats at 1, modify at 1 in Hrun.
    unfold bind at 1, get_stats at 1 in Hrun.
    cbn [world migration_stats stats_history notifications] in Hrun.
    destruct (failed_tables _ =? 0) eqn:Hf in Hrun;
      unfold notify, in_world, zoom, log, modify in Hrun;
      injection Hrun as <- <-; cbn in Hf |- *;
      rewrite Hf, Hloop; reflexivity.
  - injection Hrun as <- <-. destruct Hloop as (_ & t & c & ->). eauto.
Qed.

Lemma run_notifications_witness :
  exists o' completed,
    migrate_all_tables
      (Sample.cfg [Sample.entry (Some "orders") (Some "orders_ch");
                   Sample.entry None (Some "lost");
                   Sample.entry (Some "missing") (Some "missing_ch");
                   Sample.entry (Some "orders") (Some "again")]
                  None None None)
      (Sample.env 3) (new_orch (Sample.world ∅))
    = (Raise (ProgrammingError "Table 'missing' doesn't exist"), o') /\
    nth_error (notifications o') 1
    = Some (NotifyFailure "missing" "Table 'missing' doesn't exist" 4 completed) /\
    length (notifications o') = 2%nat.
Proof.
  pose proof (run_notifications
                (Sample.cfg [Sample.entry (Some "orders") (Some "orders_ch");
                             Sample.entry None (Some "lost");
                             Sample.entry (Some "missing") (Some "missing_ch");
                             Sample.entry (Some "orders") (Some "again")]
                            None None None)
                (Sample.env 3) (Sample.world ∅)
                (Raise (ProgrammingError "Table 'missing' doesn't exist"))) as H.
  edestruct H as (t & c & Hn).
  - vm_compute. reflexivity.
  - discriminate.
  - eexists. exists 2. split; [vm_compute; reflexivity|].
    split; vm_compute; reflexivity.
Defined.

(** X16: a run over two valid mappings with continue-on-error off, where
    [migrate_table] succeeds on the first table and the introspection of
    the second raises: the exception leaves the run; the statistics count
    one success and one failure out of two, hold the first table's result
    and no result for the second, and never receive [total_time] and
    [avg_speed]; the notifications are the start and one failure, which
    names the second table and reports one table out of two as done. *)
Theorem two_tables_abort_on_second (cfg : Config) (env : Env) (w : World)
    (m1 m2 : TableMapping) (r1 : TableResult) (w1 : World) (e : exn) (w2 : World) :
  tables cfg = Some [m1; m2] ->
  invalid_entry m1 = false ->
  invalid_entry m2 = false ->
  default false (continue_on_error cfg) = false ->
  migrate_table cfg env (default "" (tc_mysql_table m1)) (default "" (tc_ch_table m1))
    (tc_batch_size m1) (tc_verify m1) (tick_clock w) = (Ok r1, w1) ->
  r_status r1 = success ->
  get_mysql_table_structure env (default "" (tc_mysql_table m2)) (tick_clock w1)
  = (Raise e, w2) ->
  exists o',
    migrate_all_tables cfg env (new_orch w) = (Raise e, o') /\
    total_tables (migration_stats o') = 2 /\
    success_tables (migration_stats o') = 1 /\
    failed_tables (migration_stats o') = 1 /\
    table_details (migration_stats o') = [r1] /\
    avg_speed (migration_stats o') = None /\
    notifications o'
    = [NotifyStart [m1; m2] (mysql_database cfg) (clickhouse_database cfg);
       NotifyFailure (default "" (tc_mysql_table m2)) (str_of_exn e) 2 1].
Proof.
  intros Htables Hv1 Hv2 Hc Hfirst Hs1 Hsecond.
  assert (Hd : default [] (tables cfg) = [m1; m2]) by (rewrite Htables; reflexivity).
  unfold migrate_all_tables. rewrite Hd. cbv iota.
  unfold bind at 1, update_stats at 1, modify at 1.
  unfold bind at 1, notify at 1, modify at 1.
  unfold bind at 1, in_world at 1, zoom at 1.
  cbn [world migration_stats stats_history notifications new_orch].
  rewrite time_time_eq. unfold bind at 1.
  cbn [tables_loop]. rewrite Hv1, Hv2.
  unfold bind at 1. rewrite table_iteration. cbn [world]. rewrite Hfirst.
  unfold bind at 1. rewrite table_iteration. cbn [world].
  rewrite (migrate_table_structure_raises _ _ _ _ _ _ _ _ _ Hsecond), Hc.
  cbn [negb]. eexists. split; [reflexivity|].
  cbn [migration_stats notifications]. unfold record_result, count_result.
  rewrite Hs1. cbn. auto 10.
Qed.

Lemma two_tables_abort_witness :
  exists o' r1,
    migrate_all_tables
      (Sample.cfg [Sample.entry (Some "orders") (Some "orders_ch");
                   Sample.entry (Some "missing") (Some "missing_ch")]
                  None None None)
      (Sample.env 3) (new_orch (Sample.world ∅))
    = (Raise (ProgrammingError "Table 'missing' doesn't exist"), o') /\
    table_details (migration_stats o') = [r1] /\
    failed_tables (migration_stats o') = 1.
Proof.
  edestruct (two_tables_abort_on_second
               (Sample.cfg [Sample.entry (Some "orders") (Some "orders_ch");
                            Sample.entry (Some "missing") (Some "missing_ch")]
                           None None None)
               (Sample.env 3) (Sample.world ∅)
               (Sample.entry (Some "orders") (Some "orders_ch"))
               (Sample.entry (Some "missing") (Some "missing_ch")))
    as (o' & Hrun & _ & _ & Hf & Hd & _).
  - reflexivity.
  - reflexivity.
  - reflexivity.
  - reflexivity.
  - vm_compute. reflexivity.
  - reflexivity.
  - vm_compute. reflexivity.
  - exists o'. eexists. split; [exact Hrun|]. split; [exact Hd|exact Hf].
Defined.

Lemma sum_rows_snoc (details : list TableResult) (r : TableResult) :
  sum_rows (details ++ [r]) = sum_rows details + r_rows r.
Proof.
  unfold sum_rows. induction details as [|x rest IH]; simpl; [lia|].
  rewrite IH. lia.
Qed.

Lemma count_status_snoc (b : bool) (details : list TableResult) (r : TableResult) :
  count_status b (details ++ [r])
  = count_status b details + (if bool_decide (is_success r = b) then 1 else 0).
Proof.
  unfold count_status. rewrite filter_app, len_app. f_equal.
  rewrite filter_cons, filter_nil.
  case_decide; case_bool_decide; try contradiction; reflexivity.
Qed.

Lemma record_result_consistent (r : TableResult) (s : Stats) :
  consistent 0 s -> consistent 0 (record_result r s).
Proof.
  unfold consistent, record_result, count_result, append_table_details,
    add_total_rows. intros (Hrows & Hs & Hf).
  destruct (r_status r) eqn:Hst; cbn;
    rewrite sum_rows_snoc, !count_status_snoc; unfold is_success; rewrite Hst;
    repeat case_bool_decide; try congruence; lia.
Qed.

(** The loop over the tables keeps the statistics in line with the
    recorded results; a loop left by an exception has counted one
    failure more than it recorded. *)
Lemma tables_loop_consistent (cfg : Config) (env : Env) (total : Z)
    (tbls : list TableMapping) :
  forall (idx : Z) (o : Orch) (res : result unit) (o' : Orch),
    tables_loop cfg env total idx tbls o = (res, o') ->
    consistent 0 (migration_stats o) ->
    consistent (match res with Ok _ => 0 | Raise _ => 1 end) (migration_stats o').
Proof.
  induction tbls as [|tc rest IH]; intros idx o res o' Hrun Hcons.
  - injection Hrun as <- <-. exact Hcons.
  - cbn [tables_loop] in Hrun. destruct (invalid_entry tc).
    + unfold bind at 1, in_world, zoom, log, modify in Hrun. cbn in Hrun.
      apply IH in Hrun; [exact Hrun|exact Hcons].
    + unfold bind at 1 in Hrun. rewrite table_iteration in Hrun.
      destruct (migrate_table _ _ _ _ _ _ _) as [[r|e] w1] eqn:Hm.
      * apply IH in Hrun; [exact Hrun|].
        cbn [migration_stats]. apply record_result_consistent, Hcons.
      * destruct (default false (continue_on_error cfg)) eqn:Hc; cbn [negb] in Hrun.
        -- destruct (migrate_table_continue_returns cfg env
                       (default "" (tc_mysql_table tc))
                       (default "" (tc_ch_table tc))
                       (tc_batch_size tc) (tc_verify tc) (world o) Hc)
             as (r & w2 & Hret).
           congruence.
        -- injection Hrun as <- <-. cbn [migration_stats].
           destruct Hcons as (Hrows & Hs & Hf).
           unfold consistent, incr_failed_tables. cbn.
           split; [exact Hrows|]. split; [exact Hs|]. lia.
Qed.

(** X17: at the end of every run from a fresh orchestrator, ended or
    left by an exception, the aggregates agree with the recorded
    per-table results: [total_rows] is the sum of their rows,
    [success_tables] the number of them with status success, and
    [failed_tables] the number of them with status failed, plus one
    when an exception left the run (the table that raised is counted
    and has no result). *)
Theorem run_statistics_match_results (cfg : Config) (env : Env) (w : World)
    (res : result unit) (o' : Orch) :
  migrate_all_tables cfg env (new_orch w) = (res, o') ->
  let details := table_details (migration_stats o') in
  total_rows (migration_stats o') = sum_rows details /\
  success_tables (migration_stats o') = count_status true details /\
  failed_tables (migration_stats o')
  = count_status false details + match res with Ok _ => 0 | Raise _ => 1 end.
Proof.
  intros Hrun details. subst details. unfold migrate_all_tables in Hrun.
  destruct (default [] (tables cfg)) as [|tc rest].
  - unfold in_world, zoom, log, modify in Hrun. injection Hrun as <- <-.
    cbn. auto.
  - cbv iota in Hrun. remember (tc :: rest) as tbls eqn:Htbls. clear Htbls tc rest.
    unfold bind at 1, update_stats at 1, modify at 1 in Hrun.
    unfold bind at 1, notify at 1, modify at 1 in Hrun.
    unfold bind at 1, in_world at 1, zoom at 1 in Hrun.
    cbn [world migration_stats stats_history notifications new_orch] in Hrun.
    rewrite time_time_eq in Hrun. unfold bind at 1 in Hrun.
    destruct (tables_loop cfg env (len tbls) 1 tbls _) as [res1 o1] eqn:Hloop.
    apply tables_loop_consistent in Hloop; [|cbn; unfold consistent; cbn; auto].
    destruct res1 as [[]|e].
    + unfold bind at 1, in_world at 1, zoom at 1 in Hrun.
      rewrite time_time_eq in Hrun.
      unfold bind at 1, update_stats at 1, modify at 1 in Hrun.
      unfold bind at 1, get_stats at 1 in Hrun.
      unfold bind at 1, update_stats at 1, modify at 1 in Hrun.
      unfold bind at 1, get_stats at 1 in Hrun.
      cbn [world migration_stats stats_history notifications] in Hrun.
      destruct (failed_tables _ =? 0) in Hrun;
        unfold notify, in_world, zoom, log, modify in Hrun;
        injection Hrun as <- <-; cbn; exact Hloop.
    + injection Hrun as <- <-. exact Hloop.
Qed.

Lemma run_statistics_match_results_witness :
  let o' := snd (migrate_all_tables
                   (Sample.cfg [Sample.entry (Some "orders") (Some "orders_ch");
                                Sample.entry (Some "missing") (Some "missing_ch");
                                Sample.entry (Some "orders") (Some "copy")]
                               None None (Some true))
                   (Sample.env 3) (new_orch (Sample.world ∅))) in
  total_rows (migration_stats o') = 6 /\
  success_tables (migration_stats o') = 2 /\
  failed_tables (migration_stats o') = 1.
Proof.
  intros o'.
  destruct (run_statistics_match_results
              (Sample.cfg [Sample.entry (Some "orders") (Some "orders_ch");
                           Sample.entry (Some "missing") (Some "missing_ch");
                           Sample.entry (Some "orders") (Some "copy")]
                          None None (Some true))
              (Sample.env 3) (Sample.world ∅) (Ok tt) o')
    as (Hrows & Hs & Hf).
  - vm_compute. reflexivity.
  - rewrite Hrows, Hs, Hf. vm_compute. auto.
Defined.

Lemma tables_loop_all_invalid (cfg : Config) (env : Env) (total : Z)
    (tbls : list TableMapping) :
  Forall (fun tc => invalid_entry tc = true) tbls ->
  forall (idx : Z) (o : Orch),
  exists o',
    tables_loop cfg env total idx tbls o = (Ok tt, o') /\
    migration_stats o' = migration_stats o /\
    stats_history o' = stats_history o /\
    notifications o' = notifications o /\
    ch_db (world o') = ch_db (world o) /\
    calls (world o') = calls (world o) /\
    ticks (world o') = ticks (world o) /\
    writes (world o') = writes (world o) /\
    logs (world o') = logs (world o) ++ (LogInvalidConfig <$> tbls).
Proof.
  induction 1 as [|tc rest Hinv _ IH]; intros idx o.
  - exists o. rewrite app_nil_r. auto 10.
  - cbn [tables_loop]. rewrite Hinv.
    unfold bind at 1, in_world, zoom, log, modify. cbn [fst snd world].
    edestruct IH as (o' & Hrun & Hs & Hh & Hn & Hdb & Hc & Ht & Hw & Hl).
    exists o'. split; [exact Hrun|].
    rewrite Hs, Hh, Hn, Hdb, Hc, Ht, Hw, Hl. cbn.
    rewrite <- app_assoc. auto 10.
Qed.

(** X18: a run over a non-empty mapping list whose entries are all
    invalid (a table name missing or empty) makes no round trip to a
    database and issues no write: it logs each entry, counts no success
    and no failure out of [total_tables] entries, records no result,
    and, no table having failed, sends the success notification after
    the start notification. *)
Theorem run_over_invalid_entries (cfg : Config) (env : Env) (w : World) :
  let tbls := default [] (tables cfg) in
  tbls <> [] ->
  Forall (fun tc => invalid_entry tc = true) tbls ->
  exists o',
    migrate_all_tables cfg env (new_orch w) = (Ok tt, o') /\
    total_tables (migration_stats o') = len tbls /\
    success_tables (migration_stats o') = 0 /\
    failed_tables (migration_stats o') = 0 /\
    table_details (migration_stats o') = [] /\
    notifications o'
    = [NotifyStart tbls (mysql_database cfg) (clickhouse_database cfg);
       NotifySuccess (migration_stats o')] /\
    calls (world o') = calls w /\
    writes (world o') = writes w /\
    ch_db (world o') = ch_db w /\
    logs (world o') = logs w ++ (LogInvalidConfig <$> tbls).
Proof.
  intros tbls Hne Hinv. subst tbls. unfold migrate_all_tables.
  destruct (default [] (tables cfg)) as [|tc rest]; [congruence|].
  cbv iota. remember (tc :: rest) as tbls eqn:Htbls. clear Htbls Hne tc rest.
  unfold bind at 1, update_stats at 1, modify at 1.
  unfold bind at 1, notify at 1, modify at 1.
  unfold bind at 1, in_world at 1, zoom at 1.
  cbn [world migration_stats stats_history notifications new_orch].
  rewrite time_time_eq. unfold bind at 1.
  edestruct (tables_loop_all_invalid cfg env (len tbls) tbls Hinv 1)
    as (o1 & -> & Hs & Hh & Hn & Hdb & Hc & Ht & Hw & Hl).
  cbn [world migration_stats stats_history notifications] in *.
  unfold bind at 1, in_world at 1, zoom at 1. rewrite time_time_eq.
  unfold bind at 1, update_stats at 1, modify at 1.
  unfold bind at 1, get_stats at 1.
  unfold bind at 1, update_stats at 1, modify at 1.
  unfold bind at 1, get_stats at 1.
  cbn [world migration_stats stats_history notifications].
  rewrite Hs. cbn. unfold notify, modify. cbn.
  eexists. split; [reflexivity|]. cbn. rewrite Hn, Hc, Hw, Hdb, Hl. auto 12.
Qed.

Lemma run_over_invalid_entries_witness :
  exists o',
    migrate_all_tables
      (Sample.cfg [Sample.entry None (Some "lost"); Sample.entry (Some "") None]
                  None None None)
      (Sample.env 3) (new_orch (Sample.world ∅)) = (Ok tt, o') /\
    total_tables (migration_stats o') = 2 /\
    success_tables (migration_stats o') = 0 /\
    length (notifications o') = 2%nat /\
    calls (world o') = 0%nat.
Proof.
  destruct (run_over_invalid_entries
              (Sample.cfg [Sample.entry None (Some "lost"); Sample.entry (Some "") None]
                          None None None)
              (Sample.env 3) (Sample.world ∅))
    as (o' & Hrun & Ht & Hs & _ & _ & Hn & Hc & _).
  - discriminate.
  - repeat constructor.
  - exists o'. split; [exact Hrun|]. split; [exact Ht|]. split; [exact Hs|].
    split; [rewrite Hn; reflexivity|exact Hc].
Defined.

(** ** DDLSynthesizer: the statement *)

Lemma append_assoc (a b c : string) : (a +:+ b) +:+ c = a +:+ b +:+ c.
Proof.
  induction a as [|x r IH]; [reflexivity|].
  change ((String x r +:+ b) +:+ c) with (String x ((r +:+ b) +:+ c)).
  rewrite IH. reflexivity.
Qed.

Lemma prefix_app (n b : string) : String.prefix n (n +:+ b) = true.
Proof.
  induction n as [|c r IH]; [destruct b; reflexivity|].
  change (String c r +:+ b) with (String c (r +:+ b)). cbn [String.prefix].
  destruct (ascii_dec c c); [exact IH|congruence].
Qed.

Lemma contains_prefix (n s : string) :
  String.prefix n s = true -> PyStr.contains n s = true.
Proof. intros H. destruct s; cbn [PyStr.contains]; rewrite H; reflexivity. Qed.

Lemma contains_app_r (n a s : string) :
  PyStr.contains n s = true -> PyStr.contains n (a +:+ s) = true.
Proof.
  intros H. induction a as [|c r IH]; [exact H|].
  change (String c r +:+ s) with (String c (r +:+ s)). cbn [PyStr.contains].
  rewrite IH. apply orb_true_r.
Qed.

Lemma contains_middle (n a b : string) :
  PyStr.contains n (a +:+ n +:+ b) = true.
Proof. apply contains_app_r, contains_prefix, prefix_app. Qed.

(** X19: [generate_clickhouse_ddl] never raises, whatever the columns
    and the key; the statement does not depend on the name of the
    source table; it creates the target table under [IF NOT EXISTS];
    and with no primary key its ordering clause is [ORDER BY (tuple())]. *)
Theorem generate_clickhouse_ddl_statement (mysql_table ch_table : string)
    (columns : list Column) (primary_keys : list string) :
  exists ddl,
    generate_clickhouse_ddl mysql_table ch_table columns primary_keys = Ok ddl /\
    (forall other,
        generate_clickhouse_ddl other ch_table columns primary_keys = Ok ddl) /\
    PyStr.contains ("CREATE TABLE IF NOT EXISTS `" +:+ ch_table +:+ "`") ddl = true /\
    (primary_keys = [] -> PyStr.contains "ORDER BY (tuple())" ddl = true).
Proof.
  unfold generate_clickhouse_ddl.
  destruct (column_defs_total columns) as (defs & -> & _).
  eexists. split; [reflexivity|]. split; [reflexivity|]. split.
  - set (head := "CREATE TABLE IF NOT EXISTS `" +:+ ch_table +:+ "`").
    assert (Hshape : forall rest,
               nl +:+ "CREATE TABLE IF NOT EXISTS `" +:+ ch_table +:+ "`" +:+ rest
               = nl +:+ head +:+ rest)
      by (intros rest; unfold head; rewrite !append_assoc; reflexivity).
    rewrite Hshape. apply contains_middle.
  - intros ->.
    repeat (apply contains_app_r;
            try (apply contains_prefix; reflexivity)).
Qed.

Lemma generate_clickhouse_ddl_statement_witness :
  exists ddl,
    generate_clickhouse_ddl "orders" "orders_ch" [Sample.id_column] [] = Ok ddl /\
    PyStr.contains "ORDER BY (tuple())" ddl = true.
Proof.
  destruct (generate_clickhouse_ddl_statement "orders" "orders_ch"
              [Sample.id_column] [])
    as (ddl & Hddl & _ & _ & Horder).
  exists ddl. split; [exact Hddl|]. apply Horder. reflexivity.
Defined.

(** ** The notifier *)

Lemma send_card_run (answers : nat -> result (option Z)) (self : Feishu.Notifier)
    (title : string) (elements : list Feishu.Element) (color : string)
    (s : Feishu.Web) :
  exists s',
    Feishu.send_card answers self title elements color s
    = (Ok (Feishu.enabled self
           && bool_decide (answers (length (Feishu.posts s)) = Ok (Some 0))), s') /\
    Feishu.posts s'
    = Feishu.posts s
      ++ (if Feishu.enabled self
          then [(Feishu.webhook_url self,
                 {| Feishu.card_title := title; Feishu.card_template := color;
                    Feishu.card_elements := elements |})]
          else []).
Proof.
  unfold Feishu.send_card. destruct (Feishu.enabled self); cbn [negb andb].
  - unfold try_catch, bind, Feishu.post_card, Feishu.feishu_log, modify, ret.
    destruct (answers (length (Feishu.posts s))) as [[code|]|e]; cbn.
    + case_bool_decide as Hc.
      * rewrite bool_decide_eq_true_2 by congruence. eauto.
      * rewrite bool_decide_eq_false_2 by congruence. eauto.
    + rewrite bool_decide_eq_false_2 by congruence. eauto.
    + rewrite bool_decide_eq_false_2 by congruence. eauto.
  - exists s. rewrite app_nil_r. split; reflexivity.
Qed.

(** X20: [send_card] never raises and posts at most one card. It posts
    nothing when the notifier is disabled; it returns true exactly when
    the notifier is enabled and the webhook answers with code 0; an
    exception raised by the post or by the decoding of the answer is
    swallowed and the result is false. *)
Theorem send_card_result (answers : nat -> result (option Z)) (self : Feishu.Notifier)
    (title : string) (elements : list Feishu.Element) (color : string)
    (s : Feishu.Web) :
  exists sent s',
    Feishu.send_card answers self title elements color s = (Ok sent, s') /\
    (sent = true <->
     Feishu.enabled self = true /\
     answers (length (Feishu.posts s)) = Ok (Some 0)) /\
    (Feishu.enabled self = false -> Feishu.posts s' = Feishu.posts s) /\
    (length (Feishu.posts s') <= S (length (Feishu.posts s)))%nat.
Proof.
  destruct (send_card_run answers self title elements color s) as (s' & Hrun & Hp).
  do 2 eexists. split; [exact Hrun|]. split; [|split].
  - rewrite andb_true_iff, bool_decide_eq_true. reflexivity.
  - intros Hoff. rewrite Hp, Hoff, app_nil_r. reflexivity.
  - rewrite Hp, length_app. destruct (Feishu.enabled self); simpl; lia.
Qed.

Lemma send_card_result_witness :
  let self := (Feishu.init {| Feishu.cfg_enabled := Some true;
                              Feishu.cfg_webhook_url := Some "https://hook";
                              Feishu.cfg_notify_on_start := None;
                              Feishu.cfg_notify_on_success := None;
                              Feishu.cfg_notify_on_failure := None;
                              Feishu.cfg_env_name := None;
                              Feishu.cfg_project_name := None;
                              Feishu.cfg_mention_users := None;
                              Feishu.cfg_mention_all := None |}).1 in
  exists s',
    Feishu.send_card (fun _ => Ok (Some 0)) self "Started" [Feishu.Hr] "blue"
      {| Feishu.posts := []; Feishu.feishu_logs := [] |}
    = (Ok true, s').
Proof.
  intros self.
  destruct (send_card_result (fun _ => Ok (Some 0)) self "Started" [Feishu.Hr] "blue"
              {| Feishu.posts := []; Feishu.feishu_logs := [] |})
    as (sent & s' & Hrun & Hsent & _).
  exists s'. rewrite Hrun. f_equal. f_equal. apply Hsent. split; reflexivity.
Defined.

(** Whether a notifier built from [config] posts at all: [enabled] is
    set and the webhook address is not empty. *)
Lemma init_enabled (config : Feishu.Settings) :
  Feishu.enabled (Feishu.init config).1
  = default false (Feishu.cfg_enabled config)
    && negb (bool_decide (default "" (Feishu.cfg_webhook_url config) = "")).
Proof.
  unfold Feishu.init. cbn [fst Feishu.enabled].
  destruct (default false (Feishu.cfg_enabled config)); cbn [andb]; [|reflexivity].
  case_bool_decide; reflexivity.
Qed.

(** X21: a failure notification, on a notifier built from a
    configuration, never raises; it posts one card, red and titled
    [[FAILURE] project], to the configured address when [enabled] is
    set, [webhook_url] is not empty and [notify_on_failure] is not
    switched off, and posts nothing in every other case (a notifier
    enabled without an address is silently disabled). *)
Theorem notify_failure_posts (answers : nat -> result (option Z))
    (config : Feishu.Settings) (now_text : string) (error_info : Feishu.ErrorInfo)
    (s : Feishu.Web) :
  let self := (Feishu.init config).1 in
  let wanted :=
    default false (Feishu.cfg_enabled config)
    && negb (bool_decide (default "" (Feishu.cfg_webhook_url config) = ""))
    && default true (Feishu.cfg_notify_on_failure config) in
  exists s',
    Feishu.notify_failure answers self now_text error_info s = (Ok tt, s') /\
    Feishu.posts s'
    = Feishu.posts s
      ++ (if wanted
          then [(default "" (Feishu.cfg_webhook_url config),
                 {| Feishu.card_title :=
                      "[FAILURE] "
                      +:+ default "Data Migration" (Feishu.cfg_project_name config);
                    Feishu.card_template := "red";
                    Feishu.card_elements :=
                      Feishu.failure_elements self now_text error_info |})]
          else []).
Proof.
  intros self wanted. unfold Feishu.notify_failure.
  pose proof (init_enabled config) as Hen. fold self in Hen.
  assert (Hflag : Feishu.notify_on_failure self
                  = default true (Feishu.cfg_notify_on_failure config))
    by reflexivity.
  rewrite Hflag. subst wanted.
  destruct (default true (Feishu.cfg_notify_on_failure config)); cbn [negb].
  - destruct (send_card_run answers self
                ("[FAILURE] " +:+ Feishu.project_name self)
                (Feishu.failure_elements self now_text error_info) "red" s)
      as (s' & Hrun & Hp).
    unfold bind. rewrite Hrun. exists s'. split; [reflexivity|].
    rewrite Hp, Hen, andb_true_r. reflexivity.
  - exists s. rewrite andb_false_r, app_nil_r. split; reflexivity.
Qed.

Lemma substring_length_le (n : nat) (s : string) :
  (String.length (String.substring 0 n s) <= n)%nat.
Proof.
  revert s. induction n as [|n IH]; intros [|c s]; simpl; try lia.
  specialize (IH s). lia.
Qed.

Lemma append_length (a b : string) :
  String.length (a +:+ b) = (String.length a + String.length b)%nat.
Proof.
  induction a as [|c r IH]; [reflexivity|].
  change (String c r +:+ b) with (String c (r +:+ b)). simpl. rewrite IH. reflexivity.
Qed.

Lemma substring_length_full (n : nat) (s : string) :
  (n <= String.length s)%nat ->
  String.length (String.substring 0 n s) = n.
Proof.
  revert s. induction n as [|n IH]; intros [|c s]; simpl; intros Hn; try lia.
  rewrite IH by lia. reflexivity.
Qed.

(** X22: the traceback shown on a failure card is the traceback itself
    when it has at most 1000 characters; when it has more, it is its
    first 1000 characters followed by a newline and the truncation
    mark, 1016 characters in all; so it never has more than 1016
    characters. The card holds the traceback element when the traceback
    is not empty, and without a traceback it holds two elements fewer:
    three elements, and two more for a mention. *)
Theorem failure_card_traceback (self : Feishu.Notifier) (now_text : string)
    (error_info : Feishu.ErrorInfo) :
  let tb := Feishu.traceback error_info in
  let shown := Feishu.shown_traceback tb in
  let block :=
    Feishu.Div ("**Traceback**:" +:+ Feishu.nlnl +:+ "```" +:+ nl
                +:+ shown +:+ nl +:+ "```") in
  (String.length shown <= 1016)%nat /\
  ((String.length tb <= 1000)%nat -> shown = tb) /\
  ((1000 < String.length tb)%nat ->
   shown = String.substring 0 1000 tb +:+ nl +:+ "... (truncated)" /\
   String.length shown = 1016%nat) /\
  (tb <> "" -> block ∈ Feishu.failure_elements self now_text error_info) /\
  length (Feishu.failure_elements self now_text error_info)
  = (3 + (if bool_decide (tb = "") then 0 else 2)
     + (match Feishu._build_mention_element self with
        | Some _ => 2
        | None => 0
        end))%nat.
Proof.
  intros tb shown block. subst shown block. unfold Feishu.shown_traceback.
  split; [|split; [|split; [|split]]].
  - destruct (Nat.ltb_spec 1000 (String.length tb)) as [Hlong|Hshort]; [|lia].
    rewrite !append_length. pose proof (substring_length_le 1000 tb).
    change (String.length nl) with 1%nat.
    change (String.length "... (truncated)") with 15%nat. lia.
  - intros Hshort. destruct (Nat.ltb_spec 1000 (String.length tb)); [lia|reflexivity].
  - intros Hlong. destruct (Nat.ltb_spec 1000 (String.length tb)); [|lia].
    split; [reflexivity|].
    rewrite !append_length, substring_length_full by lia.
    change (String.length nl) with 1%nat.
    change (String.length "... (truncated)") with 15%nat. lia.
  - intros Hne. unfold Feishu.failure_elements, Feishu.with_mention.
    fold tb. destruct tb as [|c r] eqn:Htb; [congruence|].
    destruct (Feishu._build_mention_element self);
      rewrite ?elem_of_app, !elem_of_cons; auto 10.
  - unfold Feishu.failure_elements, Feishu.with_mention. fold tb.
    destruct tb as [|c r]; destruct (Feishu._build_mention_element self);
      rewrite ?length_app; reflexivity.
Qed.

Lemma failure_card_traceback_witness :
  let self := (Feishu.init {| Feishu.cfg_enabled := Some true;
                              Feishu.cfg_webhook_url := Some "https://hook";
                              Feishu.cfg_notify_on_start := None;
                              Feishu.cfg_notify_on_success := None;
                              Feishu.cfg_notify_on_failure := None;
                              Feishu.cfg_env_name := None;
                              Feishu.cfg_project_name := None;
                              Feishu.cfg_mention_users := None;
                              Feishu.cfg_mention_all := None |}).1 in
  let info tb := {| Feishu.failed_table := "orders"; Feishu.error_message := "boom";
                    Feishu.info_total_tables := 3; Feishu.completed_tables := 1;
                    Feishu.traceback := tb |} in
  let short := "Traceback (most recent call last)" in
  let long := String.string_of_list_ascii (repeat "x"%char 1001) in
  Feishu.shown_traceback short = short /\
  Feishu.shown_traceback long
  = String.string_of_list_ascii (repeat "x"%char 1000) +:+ nl +:+ "... (truncated)".
Proof.
  intros self info short long. split.
  - destruct (failure_card_traceback self "2024-03-09 07:05:00" (info short))
      as (_ & Hshort & _).
    apply Hshort. vm_compute. lia.
  - destruct (failure_card_traceback self "2024-03-09 07:05:00" (info long))
      as (_ & _ & Hlong & _).
    destruct Hlong as [Hshown _]; [vm_compute; lia|].
    cbn [Feishu.traceback info] in Hshown. rewrite Hshown.
    vm_compute. reflexivity.
Defined.

(** ** The task ledger *)

Lemma filter_fresh_id (db : Ledger.DB) :
  ledger_ok db ->
  filter (fun t => Ledger.id t = Ledger.next_task_id db) (Ledger.tasks db) = [].
Proof.
  unfold ledger_ok. induction 1 as [|t rest Hlt _ IH]; [reflexivity|].
  rewrite filter_cons. case_decide; [lia|exact IH].
Qed.

(** X23: [create_task] returns the next key of the table; [get_task] on
    that key then returns the new task, running, named as asked, started
    at the time given, not ended, with all counters at 0, no error text,
    and the configuration snapshot that was stored (the JSON coding
    being one that decodes what it encodes); every other key reads as
    it did before. *)
Theorem create_task_then_get_task {Json : Type} (dumps : Json -> string)
    (loads : string -> result Json) (now_text db_now_text name : string)
    (snapshot : Json) (db : Ledger.DB) :
  (forall j, loads (dumps j) = Ok j) ->
  ledger_ok db ->
  let created := Ledger.create_task dumps now_text db_now_text name snapshot db in
  created.1 = Ledger.next_task_id db /\
  ledger_ok created.2 /\
  (exists t,
      Ledger.get_task loads created.1 created.2 = Ok (Some (t, snapshot)) /\
      Ledger.id t = created.1 /\
      Ledger.task_name t = name /\
      Ledger.status t = "running" /\
      Ledger.start_time t = Some now_text /\
      Ledger.end_time t = None /\
      Ledger.total_tables t = 0 /\
      Ledger.success_tables t = 0 /\
      Ledger.failed_tables t = 0 /\
      Ledger.total_rows t = 0 /\
      Ledger.error_message t = None) /\
  (forall other,
      other <> created.1 ->
      Ledger.get_task loads other created.2 = Ledger.get_task loads other db).
Proof.
  intros Hjson Hok created. subst created. unfold Ledger.create_task.
  cbn [fst snd]. split; [reflexivity|]. split; [|split].
  - unfold ledger_ok in *. cbn [Ledger.tasks Ledger.next_task_id].
    apply Forall_app. split.
    + eapply Forall_impl; [exact Hok|]. cbn. intros; lia.
    + apply Forall_cons. split; [cbn; lia|constructor].
  - eexists. unfold Ledger.get_task. cbn [Ledger.tasks].
    rewrite filter_app, (filter_fresh_id db Hok), filter_cons.
    cbn [Ledger.id]. rewrite decide_True by reflexivity.
    cbn [app Ledger.config_snapshot]. rewrite Hjson.
    split; [reflexivity|]. cbn. auto 12.
  - intros other Hne. unfold Ledger.get_task. cbn [Ledger.tasks].
    rewrite filter_app, filter_cons. cbn [Ledger.id].
    rewrite decide_False by congruence. rewrite filter_nil, app_nil_r. reflexivity.
Qed.

Lemma create_task_then_get_task_witness :
  let created := Ledger.create_task (fun j : string => j) "2024-03-09 07:05:00"
                   "2024-03-09 06:05:00" "nightly" "{}" Ledger.empty in
  created.1 = 1 /\
  exists t, Ledger.get_task Ok 1 created.2 = Ok (Some (t, "{}")) /\
            Ledger.status t = "running".
Proof.
  intros created.
  destruct (create_task_then_get_task (fun j : string => j) Ok
              "2024-03-09 07:05:00" "2024-03-09 06:05:00" "nightly" "{}"
              Ledger.empty)
    as (Hid & _ & (t & Hget & _ & _ & Hst & _) & _).
  - reflexivity.
  - constructor.
  - split; [exact Hid|]. exists t. split; [exact Hget|exact Hst].
Defined.

Lemma find_task_update (now_text : string) (task_id : Z) (new_status : string)
    (stats : option Ledger.StatsUpdate) (message : option string)
    (db : Ledger.DB) (k : Z) :
  find_task k (Ledger.update_task_status now_text task_id new_status stats message db)
  = (fun t => if bool_decide (k = task_id)
              then Ledger.updated now_text new_status stats message t else t)
      <$> find_task k db.
Proof.
  unfold find_task, Ledger.update_task_status. cbn [Ledger.tasks].
  induction (Ledger.tasks db) as [|t rest IH]; [reflexivity|].
  cbn [fmap list_fmap]. rewrite !filter_cons.
  destruct (decide (Ledger.id t = k)) as [Hk|Hk].
  - subst k. destruct (bool_decide (Ledger.id t = task_id)).
    + rewrite decide_True by reflexivity. reflexivity.
    + rewrite decide_True by reflexivity. reflexivity.
  - destruct (bool_decide (Ledger.id t = task_id)).
    + rewrite decide_False by exact Hk. exact IH.
    + rewrite decide_False by exact Hk. exact IH.
Qed.

Lemma update_unknown_task (now_text : string) (task_id : Z) (new_status : string)
    (stats : option Ledger.StatsUpdate) (message : option string) (db : Ledger.DB) :
  find_task task_id db = None ->
  Ledger.update_task_status now_text task_id new_status stats message db = db.
Proof.
  unfold find_task, Ledger.update_task_status. destruct db as [ts n ms m].
  cbn [Ledger.tasks Ledger.next_task_id Ledger.table_migrations
       Ledger.next_migration_id].
  intros Hnone. f_equal.
  induction ts as [|t rest IH]; [reflexivity|].
  rewrite filter_cons in Hnone. cbn [fmap list_fmap].
  case_decide as Hk; [discriminate Hnone|].
  rewrite bool_decide_eq_false_2 by exact Hk. f_equal. apply IH, Hnone.
Qed.

(** X24: [update_task_status] on a key that no task has changes
    nothing and raises nothing. On the task it names it sets the
    status; it sets [end_time] exactly for the statuses ['completed']
    and ['failed']; it stores an error text only when one is given
    that is not empty, and keeps the earlier text otherwise; it leaves
    every other task and the per-table records as they were. *)
Theorem update_task_status_scope (now_text : string) (task_id : Z)
    (new_status : string) (stats : option Ledger.StatsUpdate)
    (message : option string) (db : Ledger.DB) :
  let db' := Ledger.update_task_status now_text task_id new_status stats message db in
  (find_task task_id db = None -> db' = db) /\
  (forall other, other <> task_id -> find_task other db' = find_task other db) /\
  Ledger.table_migrations db' = Ledger.table_migrations db /\
  (forall t,
      find_task task_id db = Some t ->
      exists t',
        find_task task_id db' = Some t' /\
        Ledger.status t' = new_status /\
        Ledger.end_time t'
        = (if bool_decide (new_status = "completed")
              || bool_decide (new_status = "failed")
           then Some now_text else Ledger.end_time t) /\
        Ledger.error_message t'
        = (match message with
           | None | Some EmptyString => Ledger.error_message t
           | Some msg => Some msg
           end)).
Proof.
  intros db'. subst db'. split; [apply update_unknown_task|]. split; [|split].
  - intros other Hne. rewrite find_task_update.
    rewrite bool_decide_eq_false_2 by exact Hne.
    destruct (find_task other db); reflexivity.
  - reflexivity.
  - intros t Ht. rewrite find_task_update, Ht.
    rewrite bool_decide_eq_true_2 by reflexivity.
    eexists. split; [reflexivity|]. cbn. auto.
Qed.

Lemma update_task_status_scope_witness :
  let db := (Ledger.create_task (fun j : string => j) "07:05" "06:05"
               "nightly" "{}" Ledger.empty).2 in
  exists t',
    find_task 1 (Ledger.update_task_status "08:00" 1 "failed" None (Some "") db)
    = Some t' /\
    Ledger.status t' = "failed" /\
    Ledger.end_time t' = Some "08:00" /\
    Ledger.error_message t' = None.
Proof.
  intros db.
  destruct (update_task_status_scope "08:00" 1 "failed" None (Some "") db)
    as (_ & _ & _ & Hknown).
  destruct (Hknown _ eq_refl) as (t' & Hfind & Hst & Hend & Hmsg).
  exists t'. split; [exact Hfind|]. split; [exact Hst|]. split; [exact Hend|exact Hmsg].
Defined.

(** X25: the records of a task come back from [get_table_migrations]
    in the order [add_table_migration] stored them: after one more is
    added for a task, its records are the earlier ones followed by the
    new one, with the fields as given and [verified] again the boolean
    that was stored as 1 or 0; the records of every other task are the
    same as before. *)
Theorem add_table_migration_then_get (task_id : Z)
    (mysql_table ch_table status : string) (rows : Z) (time_used speed : Q)
    (verified : bool) (message : option string) (db : Ledger.DB) :
  let db' := Ledger.add_table_migration task_id mysql_table ch_table status rows
               time_used speed verified message db in
  (exists r,
      Ledger.get_table_migrations task_id db'
      = Ledger.get_table_migrations task_id db ++ [(r, verified)] /\
      Ledger.tm_id r = Ledger.next_migration_id db /\
      Ledger.tm_mysql_table r = mysql_table /\
      Ledger.tm_ch_table r = ch_table /\
      Ledger.tm_status r = status /\
      Ledger.tm_rows r = rows /\
      Ledger.tm_time_used r = time_used /\
      Ledger.tm_speed r = speed /\
      Ledger.tm_error_message r = message) /\
  (forall other,
      other <> task_id ->
      Ledger.get_table_migrations other db' = Ledger.get_table_migrations other db) /\
  Ledger.tasks db' = Ledger.tasks db.
Proof.
  intros db'. subst db'. unfold Ledger.get_table_migrations, Ledger.add_table_migration.
  cbn [Ledger.table_migrations Ledger.tasks]. split; [|split; [|reflexivity]].
  - eexists. rewrite filter_app, filter_cons. cbn [Ledger.tm_task_id].
    rewrite decide_True by reflexivity. rewrite filter_nil, fmap_app.
    cbn [fmap list_fmap Ledger.tm_verified].
    split.
    + f_equal. f_equal. f_equal. destruct verified; reflexivity.
    + cbn. auto 10.
  - intros other Hne. rewrite filter_app, filter_cons. cbn [Ledger.tm_task_id].
    rewrite decide_False by congruence. rewrite filter_nil, app_nil_r. reflexivity.
Qed.

Lemma add_table_migration_then_get_witness :
  let db := Ledger.add_table_migration 1 "orders" "orders_ch" "success" 3 1 3
              true None Ledger.empty in
  Ledger.get_table_migrations 2
    (Ledger.add_table_migration 1 "users" "users_ch" "failed" 0 0 0 false
       (Some "boom") db)
  = [].
Proof.
  intros db.
  destruct (add_table_migration_then_get 1 "users" "users_ch" "failed" 0 0 0 false
              (Some "boom") db)
    as (_ & Hother & _).
  rewrite Hother by lia. reflexivity.
Defined.

(** ** The background task *)

Lemma record_details_spec (task_id : Z) (details : list TableResult) :
  forall db,
    record_details task_id details db
    = {| Ledger.tasks := Ledger.tasks db;
         Ledger.next_task_id := Ledger.next_task_id db;
         Ledger.table_migrations :=
           Ledger.table_migrations db
           ++ detail_records task_id (Ledger.next_migration_id db) details;
         Ledger.next_migration_id :=
           Ledger.next_migration_id db + Z.of_nat (length details) |}.
Proof.
  unfold record_details.
  induction details as [|r rest IH]; intros db.
  - destruct db. cbn. rewrite app_nil_r, Z.add_0_r. reflexivity.
  - cbn [foldl]. rewrite IH. unfold Ledger.add_table_migration.
    cbn [Ledger.tasks Ledger.next_task_id Ledger.table_migrations
         Ledger.next_migration_id detail_records length].
    rewrite <- app_assoc. cbn [app]. f_equal. lia.
Qed.

Lemma find_task_record_details (task_id : Z) (details : list TableResult)
    (db : Ledger.DB) (k : Z) :
  find_task k (record_details task_id details db) = find_task k db.
Proof. rewrite record_details_spec. reflexivity. Qed.

Lemma detail_records_of_task (task_id first_id : Z) (details : list TableResult) :
  filter (fun r => Ledger.tm_task_id r = task_id)
         (detail_records task_id first_id details)
  = detail_records task_id first_id details.
Proof.
  revert first_id. induction details as [|r rest IH]; intros first_id; [reflexivity|].
  cbn [detail_records]. rewrite filter_cons. cbn [Ledger.tm_task_id].
  rewrite decide_True by reflexivity. rewrite IH. reflexivity.
Qed.

Lemma detail_records_of_other (task_id first_id other : Z)
    (details : list TableResult) :
  other <> task_id ->
  filter (fun r => Ledger.tm_task_id r = other)
         (detail_records task_id first_id details)
  = [].
Proof.
  intros Hne. revert first_id.
  induction details as [|r rest IH]; intros first_id; [reflexivity|].
  cbn [detail_records]. rewrite filter_cons. cbn [Ledger.tm_task_id].
  rewrite decide_False by congruence. apply IH.
Qed.

Lemma detail_records_verified (task_id first_id : Z) (details : list TableResult) :
  (fun r => (r, negb (Ledger.tm_verified r =? 0)))
    <$> detail_records task_id first_id details
  = zip (detail_records task_id first_id details) (r_verified <$> details).
Proof.
  revert first_id. induction details as [|r rest IH]; intros first_id; [reflexivity|].
  cbn [detail_records fmap list_fmap zip zip_with Ledger.tm_verified].
  f_equal; [|apply IH].
  destruct (r_verified r); reflexivity.
Qed.

(** The state of the ledger after a run, case by case. *)
Lemma run_migration_task_eval (host : Host) (cfg : Config) (env : Env) (w : World)
    (now_text later_text : string) (task_id : Z) (db : Ledger.DB) :
  let failed_at text msg :=
    Ledger.update_task_status text task_id "failed" None (Some msg) in
  let inner :=
    match config_error host, connect_error host,
          migrate_all_tables cfg env (new_orch w) with
    | Some e, _, _ | None, Some e, _ | None, None, (Raise e, _) =>
        failed_at now_text (str_of_exn e) db
    | None, None, (Ok _, o) =>
        record_details task_id (table_details (migration_stats o))
          (Ledger.update_task_status now_text task_id "completed"
             (Some (completed_stats (migration_stats o))) None db)
    end in
  run_migration_task host cfg env w now_text later_text task_id db
  = (Ok tt,
     match setup_error host, cleanup_error host with
     | Some e, _ => failed_at later_text (startup_failure e) db
     | None, Some e => failed_at later_text (startup_failure e) inner
     | None, None => inner
     end).
Proof.
  intros failed_at inner. subst failed_at inner.
  unfold run_migration_task, task_body.
  destruct (setup_error host) as [e0|]; [reflexivity|].
  destruct (config_error host) as [e1|].
  { destruct (cleanup_error host); reflexivity. }
  destruct (connect_error host) as [e2|].
  { destruct (cleanup_error host); reflexivity. }
  destruct (migrate_all_tables cfg env (new_orch w)) as [[u|e3] o].
  - destruct (cleanup_error host); reflexivity.
  - destruct (cleanup_error host); reflexivity.
Qed.

Lemma startup_failure_cons (e : exn) :
  exists c s, startup_failure e = String c s.
Proof. unfold startup_failure. eexists _, _. reflexivity. Qed.

Ltac find_updated Ht :=
  rewrite ?find_task_update, ?find_task_record_details, ?find_task_update, ?Ht;
  rewrite ?bool_decide_eq_true_2 by reflexivity.

Ltac find_other Hne :=
  rewrite ?find_task_update, ?find_task_record_details, ?find_task_update;
  rewrite ?bool_decide_eq_false_2 by exact Hne;
  match goal with
  | |- context [find_task ?k ?db] => destruct (find_task k db); reflexivity
  end.

(** X26: taking the statements on the ledger and the closing of the
    connections to succeed, [run_migration_task] on a task that exists
    leaves it 'completed' exactly when none of the set-up, the loading
    of the configuration, the connection, the migration and the
    clean-up raises, and 'failed' when one of them does. Either way its
    end time is set, its name and start time are kept, and no other
    task is changed. *)
Theorem run_migration_task_final_status (host : Host) (cfg : Config) (env : Env)
    (w : World) (now_text later_text : string) (task_id : Z) (db : Ledger.DB)
    (t : Ledger.Task) :
  find_task task_id db = Some t ->
  let run := run_migration_task host cfg env w now_text later_text task_id db in
  (exists t',
      find_task task_id run.2 = Some t' /\
      Ledger.status t'
      = (if run_completes host cfg env w then "completed" else "failed") /\
      (Ledger.end_time t' = Some now_text \/ Ledger.end_time t' = Some later_text) /\
      Ledger.task_name t' = Ledger.task_name t /\
      Ledger.start_time t' = Ledger.start_time t) /\
  (forall other, other <> task_id -> find_task other run.2 = find_task other db).
Proof.
  intros Ht run. subst run. rewrite run_migration_task_eval. cbn [fst snd].
  unfold run_completes.
  destruct (setup_error host), (config_error host), (connect_error host),
    (cleanup_error host), (migrate_all_tables cfg env (new_orch w)) as [[u|raised] o];
    cbn [fst];
    (split;
     [ find_updated Ht; eexists; split; [reflexivity|]; cbn; auto
     | intros other Hne; find_other Hne ]).
Qed.

Lemma run_migration_task_final_status_witness :
  let db := (Ledger.create_task (fun j : string => j) "07:05" "06:05"
               "nightly" "{}" Ledger.empty).2 in
  let host := {| setup_error := None; config_error := None;
                 connect_error := Some (OperationalError "Connection refused");
                 cleanup_error := None |} in
  exists t',
    find_task 1 (run_migration_task host
                   (Sample.cfg [Sample.entry (Some "orders") (Some "orders_ch")]
                      None None None)
                   (Sample.env 3) (Sample.world ∅) "08:00" "08:01" 1 db).2
    = Some t' /\
    Ledger.status t' = "failed".
Proof.
  intros db host.
  edestruct (run_migration_task_final_status host
               (Sample.cfg [Sample.entry (Some "orders") (Some "orders_ch")]
                  None None None)
               (Sample.env 3) (Sample.world ∅) "08:00" "08:01" 1 db)
    as ((t' & Hfind & Hst & _) & _).
  - reflexivity.
  - exists t'. split; [exact Hfind|exact Hst].
Defined.

(** X27: when the set-up, the configuration, the connection and the
    migration succeed, the task receives the counters of
    [migration_stats], and [get_table_migrations] returns, after the
    records the task already had, one record for each entry of
    [table_details], in the order of the entries, with the fields of
    the entry and [verified] as the boolean of the entry; the records
    of the other tasks are the same as before. This holds whether or
    not the clean-up fails afterwards. *)
Theorem run_migration_task_report (host : Host) (cfg : Config) (env : Env)
    (w : World) (now_text later_text : string) (task_id : Z) (db : Ledger.DB)
    (o : Orch) :
  setup_error host = None ->
  config_error host = None ->
  connect_error host = None ->
  migrate_all_tables cfg env (new_orch w) = (Ok tt, o) ->
  let db' := (run_migration_task host cfg env w now_text later_text task_id db).2 in
  let stats := migration_stats o in
  Ledger.get_table_migrations task_id db'
  = Ledger.get_table_migrations task_id db
    ++ zip (detail_records task_id (Ledger.next_migration_id db) (table_details stats))
           (r_verified <$> table_details stats) /\
  (forall other,
      other <> task_id ->
      Ledger.get_table_migrations other db' = Ledger.get_table_migrations other db) /\
  (forall t,
      find_task task_id db = Some t ->
      exists t',
        find_task task_id db' = Some t' /\
        Ledger.total_tables t' = total_tables stats /\
        Ledger.success_tables t' = success_tables stats /\
        Ledger.failed_tables t' = failed_tables stats /\
        Ledger.total_rows t' = total_rows stats /\
        Ledger.total_time t' = total_time stats).
Proof.
  intros Hs Hc Hn Hm db' stats. subst db' stats.
  rewrite run_migration_task_eval, Hs, Hc, Hn, Hm. cbn [fst snd].
  assert (Hrecords :
            Ledger.table_migrations
              (match cleanup_error host with
               | Some e =>
                   Ledger.update_task_status later_text task_id "failed" None
                     (Some (startup_failure e))
                     (record_details task_id (table_details (migration_stats o))
                        (Ledger.update_task_status now_text task_id "completed"
                           (Some (completed_stats (migration_stats o))) None db))
               | None =>
                   record_details task_id (table_details (migration_stats o))
                     (Ledger.update_task_status now_text task_id "completed"
                        (Some (completed_stats (migration_stats o))) None db)
               end)
            = Ledger.table_migrations db
              ++ detail_records task_id (Ledger.next_migration_id db)
                   (table_details (migration_stats o))).
  { destruct (cleanup_error host); cbn [Ledger.update_task_status Ledger.table_migrations];
      rewrite record_details_spec; reflexivity. }
  split; [|split].
  - unfold Ledger.get_table_migrations. rewrite Hrecords.
    rewrite filter_app, fmap_app, detail_records_of_task, detail_records_verified.
    reflexivity.
  - intros other Hne. unfold Ledger.get_table_migrations. rewrite Hrecords.
    rewrite filter_app, detail_records_of_other by exact Hne.
    rewrite app_nil_r. reflexivity.
  - intros t Ht. destruct (cleanup_error host);
      find_updated Ht; eexists; (split; [reflexivity|]); cbn; auto.
Qed.

Lemma run_migration_task_report_witness :
  let db := (Ledger.create_task (fun j : string => j) "07:05" "06:05"
               "nightly" "{}" Ledger.empty).2 in
  let host := {| setup_error := None; config_error := None;
                 connect_error := None; cleanup_error := None |} in
  let cfg := Sample.cfg [Sample.entry (Some "orders") (Some "orders_ch");
                         Sample.entry (Some "missing") (Some "missing_ch")]
               None None (Some true) in
  let db' := (run_migration_task host cfg (Sample.env 3) (Sample.world ∅)
                "08:00" "08:01" 1 db).2 in
  (fun m => (Ledger.tm_mysql_table m.1, Ledger.tm_status m.1, Ledger.tm_rows m.1, m.2))
    <$> Ledger.get_table_migrations 1 db'
  = [("orders", "success", 3, true); ("missing", "failed", 0, false)].
Proof.
  intros db host cfg db'.
  edestruct (run_migration_task_report host cfg (Sample.env 3) (Sample.world ∅)
               "08:00" "08:01" 1 db)
    as (Hrecords & _).
  - reflexivity.
  - reflexivity.
  - reflexivity.
  - vm_compute. reflexivity.
  - subst db'. rewrite Hrecords. vm_compute. reflexivity.
Defined.

(** X28: when the migration itself raises, as it does at the first
    failing table unless [continue_on_error] is set, nothing of what
    the migration had done is reported: no per-table record is stored
    and the counters of the task stay as they were, while the task is
    marked 'failed'. When the clean-up succeeds, the end time is that
    of the inner handler and the error text is the text of the
    exception (the earlier text is kept when that text is empty); when
    the clean-up raises too, the end time is that of the outer handler
    and the error text is the start-up text for the exception of the
    clean-up. *)
Theorem run_migration_task_aborted (host : Host) (cfg : Config) (env : Env)
    (w : World) (now_text later_text : string) (task_id : Z) (db : Ledger.DB)
    (e : exn) (o : Orch) (t : Ledger.Task) :
  setup_error host = None ->
  config_error host = None ->
  connect_error host = None ->
  migrate_all_tables cfg env (new_orch w) = (Raise e, o) ->
  find_task task_id db = Some t ->
  let db' := (run_migration_task host cfg env w now_text later_text task_id db).2 in
  Ledger.table_migrations db' = Ledger.table_migrations db /\
  exists t',
    find_task task_id db' = Some t' /\
    Ledger.status t' = "failed" /\
    match cleanup_error host with
    | None =>
        Ledger.end_time t' = Some now_text /\
        Ledger.error_message t'
        = (match str_of_exn e with
           | EmptyString => Ledger.error_message t
           | msg => Some msg
           end)
    | Some e' =>
        Ledger.end_time t' = Some later_text /\
        Ledger.error_message t' = Some (startup_failure e')
    end /\
    Ledger.total_tables t' = Ledger.total_tables t /\
    Ledger.success_tables t' = Ledger.success_tables t /\
    Ledger.failed_tables t' = Ledger.failed_tables t /\
    Ledger.total_rows t' = Ledger.total_rows t.
Proof.
  intros Hs Hc Hn Hm Ht db'. subst db'.
  rewrite run_migration_task_eval, Hs, Hc, Hn, Hm. cbn [fst snd].
  destruct (cleanup_error host) as [e'|].
  - destruct (startup_failure_cons e') as (c & s & Hmsg). rewrite Hmsg.
    split; [reflexivity|]. find_updated Ht.
    eexists. split; [reflexivity|]. cbn. auto 10.
  - split; [reflexivity|]. find_updated Ht.
    eexists. split; [reflexivity|]. cbn.
    destruct (str_of_exn e); auto 10.
Qed.

Lemma run_migration_task_aborted_witness :
  let db := (Ledger.create_task (fun j : string => j) "07:05" "06:05"
               "nightly" "{}" Ledger.empty).2 in
  let host := {| setup_error := None; config_error := None;
                 connect_error := None; cleanup_error := None |} in
  let cfg := Sample.cfg [Sample.entry (Some "orders") (Some "orders_ch");
                         Sample.entry (Some "missing") (Some "missing_ch")]
               None None None in
  let db' := (run_migration_task host cfg (Sample.env 3) (Sample.world ∅)
                "08:00" "08:01" 1 db).2 in
  length (table_details
            (migration_stats
               (migrate_all_tables cfg (Sample.env 3) (new_orch (Sample.world ∅))).2))
  = 1%nat /\
  Ledger.table_migrations db' = [] /\
  exists t', find_task 1 db' = Some t' /\ Ledger.total_tables t' = 0.
Proof.
  intros db host cfg db'.
  edestruct (run_migration_task_aborted host cfg (Sample.env 3) (Sample.world ∅)
               "08:00" "08:01" 1 db)
    as (Hrecords & t' & Hfind & _ & _ & Htotal & _).
  - reflexivity.
  - reflexivity.
  - reflexivity.
  - vm_compute. reflexivity.
  - reflexivity.
  - split; [vm_compute; reflexivity|]. split; [exact Hrecords|].
    exists t'. split; [exact Hfind|exact Htotal].
Defined.

(** X29: an exception raised outside the inner [try], by the set-up
    before it or by the clean-up in its [finally], is reported as a
    failure to start: the task is marked 'failed' at the time of the
    outer handler, and its error text is the start-up prefix followed
    by the text of that exception. For the clean-up this holds even
    after a migration that completed, and the text replaces the one the
    inner handler stored for a migration that failed. *)
Theorem failure_outside_inner_try (host : Host) (cfg : Config) (env : Env)
    (w : World) (now_text later_text : string) (task_id : Z) (db : Ledger.DB)
    (e : exn) (t : Ledger.Task) :
  setup_error host = Some e \/
  (setup_error host = None /\ cleanup_error host = Some e) ->
  find_task task_id db = Some t ->
  let db' := (run_migration_task host cfg env w now_text later_text task_id db).2 in
  exists t',
    find_task task_id db' = Some t' /\
    Ledger.status t' = "failed" /\
    Ledger.end_time t' = Some later_text /\
    Ledger.error_message t' = Some (startup_failure e).
Proof.
  intros Hout Ht db'. subst db'. rewrite run_migration_task_eval. cbn [fst snd].
  destruct (startup_failure_cons e) as (c & s & Hmsg).
  destruct Hout as [Hs|[Hs Hl]].
  - rewrite Hs, Hmsg. find_updated Ht. eexists. split; [reflexivity|]. cbn. auto.
  - rewrite Hs, Hl, Hmsg.
    destruct (config_error host), (connect_error host),
      (migrate_all_tables cfg env (new_orch w)) as [[u|raised] o];
      find_updated Ht; eexists; (split; [reflexivity|]); cbn; auto.
Qed.

Lemma failure_outside_inner_try_witness :
  let db := (Ledger.create_task (fun j : string => j) "07:05" "06:05"
               "nightly" "{}" Ledger.empty).2 in
  let host := {| setup_error := None; config_error := None;
                 connect_error := None;
                 cleanup_error := Some (OperationalError "Permission denied") |} in
  let cfg := Sample.cfg [Sample.entry (Some "orders") (Some "orders_ch")]
               None None None in
  let db' := (run_migration_task host cfg (Sample.env 3) (Sample.world ∅)
                "08:00" "08:01" 1 db).2 in
  run_completes {| setup_error := None; config_error := None;
                   connect_error := None; cleanup_error := None |}
    cfg (Sample.env 3) (Sample.world ∅) = true /\
  exists t',
    find_task 1 db' = Some t' /\
    Ledger.status t' = "failed" /\
    Ledger.end_time t' = Some "08:01".
Proof.
  intros db host cfg db'.
  edestruct (failure_outside_inner_try host cfg (Sample.env 3) (Sample.world ∅)
               "08:00" "08:01" 1 db)
    as (t' & Hfind & Hst & Hend & _).
  - right. split; reflexivity.
  - reflexivity.
  - split; [vm_compute; reflexivity|].
    exists t'. split; [exact Hfind|]. split; [exact Hst|exact Hend].
Defined.
